(** * KidSafe Alphabet Tutor: the tutoring session engine

    A shallow embedding of the Python services under
    [backend/app/services] (curriculum, memory, safety, phoneme and agent
    service) together with the properties of the session engine that the
    design document states about them.

    Conventions of the embedding.
    - Python [str] is Rocq's [string]; every character is an ASCII code
      point and the case maps act on the letters A-Z / a-z only.
    - Python [int] is [Z]; list slicing is written out with its clamping.
    - A Python [dict] with string keys is a [gmap string _]; a decoded JSON
      document keeps its own tree type [json].
    - A Python exception is the [Raise] case of [result]; a method that
      mutates a service takes the service and returns the new one, also when
      it raises.
    - [datetime.now().isoformat()] is an explicit argument of the calls that
      read the clock. *)

From Stdlib Require Import ZArith QArith Qround Qminmax String Ascii List Lia Bool.
From stdpp Require Import gmap strings list.

Open Scope string_scope.

(** ** Exceptions and results *)

Inductive exn : Type :=
  | AttributeError
  | TypeError
  | KeyError
  | OSError.

Inductive result (A : Type) : Type :=
  | Ok (a : A)
  | Raise (e : exn).

Arguments Ok {A} a.
Arguments Raise {A} e.

#[global] Instance result_ret : MRet result := fun A a => Ok a.
#[global] Instance result_bind : MBind result := fun A B f m =>
  match m with
  | Ok a => f a
  | Raise e => Raise e
  end.

Definition is_ok {A} (r : result A) : bool :=
  match r with Ok _ => true | Raise _ => false end.

(** ** Python string primitives *)

Module PyStr.

Definition ord (c : ascii) : Z := Z.of_nat (nat_of_ascii c).
Definition chr (z : Z) : ascii := ascii_of_nat (Z.to_nat z).

Definition is_upper (c : ascii) : bool := (65 <=? ord c)%Z && (ord c <=? 90)%Z.
Definition is_lower (c : ascii) : bool := (97 <=? ord c)%Z && (ord c <=? 122)%Z.
Definition is_alpha (c : ascii) : bool := is_upper c || is_lower c.
Definition is_digit (c : ascii) : bool := (48 <=? ord c)%Z && (ord c <=? 57)%Z.

(** [str.isspace] on one ASCII character: tab, line feed, vertical tab,
    form feed, carriage return, the four separators 0x1c-0x1f and space. *)
Definition is_space (c : ascii) : bool :=
  ((9 <=? ord c)%Z && (ord c <=? 13)%Z)
  || ((28 <=? ord c)%Z && (ord c <=? 31)%Z)
  || (ord c =? 32)%Z.

Definition lower_char (c : ascii) : ascii :=
  if is_upper c then chr (ord c + 32) else c.
Definition upper_char (c : ascii) : ascii :=
  if is_lower c then chr (ord c - 32) else c.

Fixpoint smap (f : ascii -> ascii) (s : string) : string :=
  match s with
  | EmptyString => EmptyString
  | String c s' => String (f c) (smap f s')
  end.

(** [s.lower()] and [s.upper()] *)
Definition lower (s : string) : string := smap lower_char s.
Definition upper (s : string) : string := smap upper_char s.

(** [sub in s] *)
Fixpoint contains (sub s : string) : bool :=
  String.prefix sub s ||
  match s with
  | EmptyString => false
  | String _ s' => contains sub s'
  end.

(** [s.split(sep)] for a non-empty [sep]: the occurrences of [sep] are
    found from left to right and do not overlap.  [skip] counts the
    characters of a matched separator that are still to be passed over;
    [acc] is the piece being read. *)
Fixpoint split_from (sep s acc : string) (skip : nat) : list string :=
  match skip with
  | S k =>
      match s with
      | EmptyString => [acc]
      | String _ s' => split_from sep s' acc k
      end
  | O =>
      match s with
      | EmptyString => [acc]
      | String c s' =>
          if String.prefix sep s
          then acc :: split_from sep s' EmptyString (String.length sep - 1)
          else split_from sep s' (acc +:+ String c EmptyString) 0
      end
  end.

Definition split (sep s : string) : list string := split_from sep s EmptyString 0.

(** [xs[-1]] on a non-empty list; [split] never returns the empty list. *)
Definition last_piece (xs : list string) : string := default EmptyString (last xs).

Fixpoint lstrip (s : string) : string :=
  match s with
  | EmptyString => EmptyString
  | String c s' => if is_space c then lstrip s' else s
  end.

Fixpoint rstrip (s : string) : string :=
  match s with
  | EmptyString => EmptyString
  | String c s' =>
      match rstrip s' with
      | EmptyString => if is_space c then EmptyString else String c EmptyString
      | r => String c r
      end
  end.

(** [s.strip()] *)
Definition strip (s : string) : string := rstrip (lstrip s).

(** [s.split()]: the maximal runs of non-blank characters.  [cur] is the
    run being read, empty between runs. *)
Fixpoint split_ws_from (s cur : string) : list string :=
  match s with
  | EmptyString => if String.eqb cur EmptyString then [] else [cur]
  | String c s' =>
      if is_space c
      then (if String.eqb cur EmptyString then split_ws_from s' EmptyString
            else cur :: split_ws_from s' EmptyString)
      else split_ws_from s' (cur +:+ String c EmptyString)
  end.

Definition split_ws (s : string) : list string := split_ws_from s EmptyString.

Fixpoint sforall (p : ascii -> bool) (s : string) : bool :=
  match s with
  | EmptyString => true
  | String c s' => p c && sforall p s'
  end.

(** [s.isalpha()]: at least one character and all of them letters. *)
Definition isalpha (s : string) : bool :=
  negb (String.eqb s EmptyString) && sforall is_alpha s.

(** [s.capitalize()] *)
Definition capitalize (s : string) : string :=
  match s with
  | EmptyString => EmptyString
  | String c s' => String (upper_char c) (lower s')
  end.

(** [s.replace(a, b)] for single characters [a] and [b]. *)
Definition replace_char (a b : ascii) (s : string) : string :=
  smap (fun c => if Ascii.eqb c a then b else c) s.

(** [any(w in s for w in ws)] *)
Definition any_in (ws : list string) (s : string) : bool :=
  existsb (fun w => contains w s) ws.

(** [s in ws] for a list of strings [ws]. *)
Definition mem (s : string) (ws : list string) : bool :=
  existsb (String.eqb s) ws.

(** [bool(s)] *)
Definition nonempty (s : string) : bool := negb (String.eqb s EmptyString).

End PyStr.

(** ** Decoded JSON documents *)

(** What [json.load] returns: [None], [bool], number, [str], [list] and
    [dict].  A [dict] keeps its items in insertion order, each key once.  Of
    a number the services only use its truth value, so numbers are integers
    here. *)
#[warnings="-register-all"]
Inductive json : Type :=
  | JNull
  | JBool (b : bool)
  | JNum (z : Z)
  | JStr (s : string)
  | JArr (items : list json)
  | JObj (fields : list (string * json)).

Module Json.

(** [bool(j)] *)
Definition truthy (j : json) : bool :=
  match j with
  | JNull => false
  | JBool b => b
  | JNum z => negb (z =? 0)%Z
  | JStr s => PyStr.nonempty s
  | JArr l => match l with [] => false | _ => true end
  | JObj l => match l with [] => false | _ => true end
  end.

(** [d.get(k)] on the items of a [dict]. *)
Fixpoint assoc (k : string) (fields : list (string * json)) : option json :=
  match fields with
  | [] => None
  | (k', v) :: rest => if String.eqb k k' then Some v else assoc k rest
  end.

(** [j.get(k, d)]: only a [dict] has the method. *)
Definition get_default (j : json) (k : string) (d : json) : result json :=
  match j with
  | JObj fields => Ok (default d (assoc k fields))
  | _ => Raise AttributeError
  end.

(** [j.get(k)]: a missing key gives [None], as a key bound to [null] does. *)
Definition get (j : json) (k : string) : result json := get_default j k JNull.

(** [j.lower()]: only a [str] has the method. *)
Definition str_lower (j : json) : result string :=
  match j with
  | JStr s => Ok (PyStr.lower s)
  | _ => Raise AttributeError
  end.

(** The values that [for x in j] visits: the items of a [list], the
    characters of a [str], the keys of a [dict]. *)
Definition iter (j : json) : result (list json) :=
  match j with
  | JArr l => Ok l
  | JStr s => Ok (map (fun c => JStr (String c EmptyString)) (list_ascii_of_string s))
  | JObj fields => Ok (map (fun kv => JStr (fst kv)) fields)
  | _ => Raise TypeError
  end.

(** [len(j)]: defined on [str], [list] and [dict]. *)
Definition len (j : json) : result Z :=
  match j with
  | JStr s => Ok (Z.of_nat (String.length s))
  | JArr l => Ok (Z.of_nat (length l))
  | JObj l => Ok (Z.of_nat (length l))
  | _ => Raise TypeError
  end.

End Json.

(** [[f(x) for x in xs]] where [f] may raise: the first exception ends the
    comprehension. *)
Fixpoint mapM {A B} (f : A -> result B) (xs : list A) : result (list B) :=
  match xs with
  | [] => Ok []
  | x :: rest => y ← f x; ys ← mapM f rest; mret (y :: ys)
  end.

(** ** Interpreter services the code relies on *)

(** [str(v)] as an f-string applies it to a decoded JSON value that is not a
    [str] (the text of a number, [None], a list, ...). *)
Class Formatter := format_value : json -> string.

Definition py_str `{Formatter} (j : json) : string :=
  match j with
  | JStr s => s
  | _ => format_value j
  end.

(** ** curriculum_service.py *)

Module Curriculum.

Record CurriculumService : Type := mkCurriculum {
  lessons : json;
  phoneme_map : gmap string (list string)
}.

(** What reading and decoding [self.lessons_file] produces inside the [try]
    of [_load_lessons]. *)
Inductive file_read : Type :=
  | FileNotFound               (* [open] raises FileNotFoundError *)
  | InvalidJSON                (* [json.load] raises JSONDecodeError *)
  | ReadFailure (e : exn)      (* any other exception of [open] or [json.load] *)
  | Decoded (j : json).        (* [json.load] returns [j] *)

Definition _get_default_lessons : json :=
  JObj [("A", JObj [
    ("phoneme", JStr "/æ/");
    ("phoneme_clue", JStr "ah");
    ("examples", JArr [JStr "Apple"; JStr "Ant"; JStr "Alligator"]);
    ("activity", JStr "Can you find something in the room that starts with the letter A?");
    ("prompt", JStr "This is the letter A. It makes the 'ah' sound, like in apple. Can you say 'ah'?")
  ])].

(** The log line formats [len(lessons)] inside the [try]; only the two
    handled exceptions lead to the fallback table. *)
Definition _load_lessons (r : file_read) : result json :=
  match r with
  | Decoded j => _ ← Json.len j; mret j
  | FileNotFound => Ok _get_default_lessons
  | InvalidJSON => Ok _get_default_lessons
  | ReadFailure e => Raise e
  end.

(** The list stored under one letter: the clue, the letter, the examples,
    all in lower case. *)
Definition phoneme_entry (letter : string) (data : json) : result (list string) :=
  clue ← Json.get_default data "phoneme_clue" (JStr "");
  clue_lower ← Json.str_lower clue;
  examples ← Json.get_default data "examples" (JArr []);
  words ← Json.iter examples;
  words_lower ← mapM Json.str_lower words;
  mret (clue_lower :: PyStr.lower letter :: words_lower).

Fixpoint build_items (items : list (string * json)) (acc : gmap string (list string))
  : result (gmap string (list string)) :=
  match items with
  | [] => Ok acc
  | (letter, data) :: rest =>
      sounds ← phoneme_entry letter data;
      build_items rest (<[letter := sounds]> acc)
  end.

Definition _build_phoneme_map (lessons : json) : result (gmap string (list string)) :=
  match lessons with
  | JObj items => build_items items ∅
  | _ => Raise AttributeError
  end.

Definition get_lesson (cs : CurriculumService) (letter : string) : result json :=
  Json.get (lessons cs) (PyStr.upper letter).

Section Formatting.
Context `{Formatter}.

Definition check_pronunciation (cs : CurriculumService) (user_input target_letter : string)
  : result (bool * string) :=
  let user_lower := PyStr.lower user_input in
  let target_sounds := default [] (phoneme_map cs !! PyStr.upper target_letter) in
  if existsb (fun sound => PyStr.contains sound user_lower) target_sounds
  then Ok (true, "Great job! You said the " +:+ target_letter +:+ " sound correctly!")
  else
    lesson ← get_lesson cs target_letter;
    phoneme_clue ←
      (if Json.truthy lesson
       then Json.get_default lesson "phoneme_clue" (JStr (PyStr.lower target_letter))
       else Ok (JStr (PyStr.lower target_letter)));
    mret (false, "Close! Try the '" +:+ py_str phoneme_clue +:+ "' sound for "
                   +:+ target_letter +:+ ". You can do it!").

End Formatting.

(** [ord(s)] raises unless [s] has exactly one character. *)
Definition ord_str (s : string) : result Z :=
  match s with
  | String c EmptyString => Ok (PyStr.ord c)
  | _ => Raise TypeError
  end.

Definition get_next_letter (current_letter : string) : result (option string) :=
  if negb (PyStr.nonempty current_letter) then Ok (Some "A")
  else
    o ← ord_str (PyStr.upper current_letter);
    let next_ord := (o + 1)%Z in
    if (next_ord <=? PyStr.ord "Z"%char)%Z
    then Ok (Some (String (PyStr.chr next_ord) EmptyString))
    else Ok None.

(** The [try] covers both assignments: an exception of [_load_lessons]
    leaves the service as it was, one of [_build_phoneme_map] comes after
    [self.lessons] has been assigned. *)
Definition reload_lessons (r : file_read) (cs : CurriculumService)
  : CurriculumService * bool :=
  match _load_lessons r with
  | Raise _ => (cs, false)
  | Ok new_lessons =>
      let cs1 := mkCurriculum new_lessons (phoneme_map cs) in
      match _build_phoneme_map new_lessons with
      | Raise _ => (cs1, false)
      | Ok pm => (mkCurriculum new_lessons pm, true)
      end
  end.

(** The state of a service right after [__init__] or a successful reload:
    the phoneme map is the one built from the lesson table. *)
Definition consistent (cs : CurriculumService) : Prop :=
  _build_phoneme_map (lessons cs) = Ok (phoneme_map cs).

(** [get_lesson(letter)] returns a lesson, not [None]. *)
Definition has_lesson (cs : CurriculumService) (letter : string) : Prop :=
  exists lesson, get_lesson cs letter = Ok lesson /\ lesson <> JNull.

(** *** The other readers of the lesson table *)

Definition get_current_lesson_prompt `{Formatter} (cs : CurriculumService) (letter : string)
    (child_name : option string) : result string :=
  lesson ← get_lesson cs letter;
  if negb (Json.truthy lesson)
  then Ok ("Let's learn about the letter " +:+ letter +:+ "!")
  else
    let name_part :=
      match child_name with
      | Some name => if PyStr.nonempty name then name +:+ ", " else ""
      | None => ""
      end in
    prompt_text ← Json.get_default lesson "prompt"
                    (JStr ("Let's learn the letter " +:+ letter +:+ "!"));
    mret (name_part +:+ py_str prompt_text).

Definition get_letter_examples (cs : CurriculumService) (letter : string) : result json :=
  lesson ← get_lesson cs letter;
  if Json.truthy lesson then Json.get_default lesson "examples" (JArr []) else Ok (JArr []).

Definition get_letter_activity (cs : CurriculumService) (letter : string) : result json :=
  lesson ← get_lesson cs letter;
  if Json.truthy lesson
  then Json.get_default lesson "activity"
         (JStr ("Can you think of a word that starts with " +:+ letter +:+ "?"))
  else Ok (JStr "").

(** [current_letter] is a [str] or [None]. *)
Definition is_curriculum_complete (current_letter : option string) : bool :=
  match current_letter with
  | Some l => String.eqb l "Z"
  | None => true
  end.

(** A lesson table as [json.load] builds it: no key occurs twice. *)
Definition unique_keys (lessons : json) : Prop :=
  match lessons with
  | JObj items => NoDup (map fst items)
  | _ => True
  end.

End Curriculum.

(** ** memory_service.py *)

(** The clock as [_calculate_session_duration] reads it: for the stored
    start time, [int((datetime.now() - datetime.fromisoformat(start))
    .total_seconds())], or [None] when the [try] block raises. *)
Class SessionClock := seconds_since : string -> option Z.

Module Memory.

(** One entry of [session["history"]]: the [dict] with the keys [type],
    [text] and [timestamp]. *)
Record ConversationTurn : Type := mkTurn {
  turn_type : string;
  text : string;
  timestamp : string
}.

Record DerivedState : Type := mkState {
  current_letter : string;
  child_name : option string;
  difficulty : string;
  last_mistake : option string;
  session_start : string;
  total_interactions : Z
}.

Record Session : Type := mkSession {
  history : list ConversationTurn;
  derived_state : DerivedState
}.

Record MemoryService : Type := mkMemory {
  max_turns : Z;
  sessions : gmap string Session
}.

(** [MemoryService(max_turns)] *)
Definition init (max_turns : Z) : MemoryService := mkMemory max_turns ∅.

Definition set_child_name (n : option string) (st : DerivedState) : DerivedState :=
  mkState (current_letter st) n (difficulty st) (last_mistake st)
          (session_start st) (total_interactions st).
Definition set_last_mistake (m : option string) (st : DerivedState) : DerivedState :=
  mkState (current_letter st) (child_name st) (difficulty st) m
          (session_start st) (total_interactions st).
Definition set_current_letter (l : string) (st : DerivedState) : DerivedState :=
  mkState l (child_name st) (difficulty st) (last_mistake st)
          (session_start st) (total_interactions st).
Definition set_total_interactions (n : Z) (st : DerivedState) : DerivedState :=
  mkState (current_letter st) (child_name st) (difficulty st) (last_mistake st)
          (session_start st) n.
Definition set_session (sid : string) (s : Session) (ms : MemoryService) : MemoryService :=
  mkMemory (max_turns ms) (<[sid := s]> (sessions ms)).

(** The session that [get_session] creates at time [now]. *)
Definition new_session (now : string) : Session :=
  mkSession [] (mkState "A" None "easy" None now 0).

Definition get_session (now sid : string) (ms : MemoryService) : MemoryService * Session :=
  match sessions ms !! sid with
  | Some s => (ms, s)
  | None => (set_session sid (new_session now) ms, new_session now)
  end.

(** [l[start:]] with Python's treatment of a negative or too large start. *)
Definition slice_from {A} (start : Z) (l : list A) : list A :=
  let len := Z.of_nat (length l) in
  let i := if (start <? 0)%Z then Z.max 0 (start + len) else Z.min start len in
  drop (Z.to_nat i) l.

(** [l[-n:]] *)
Definition last_entries {A} (n : Z) (l : list A) : list A := slice_from (- n) l.

(** The candidate that one phrase contributes: the first word after the
    last occurrence of the phrase, when there is one. *)
Definition name_candidate (phrase user_lower : string) : list string :=
  if PyStr.contains phrase user_lower then
    let name_part := PyStr.strip (PyStr.last_piece (PyStr.split phrase user_lower)) in
    if PyStr.nonempty name_part then take 1 (PyStr.split_ws name_part) else []
  else [].

Definition valid_name (candidate : string) : bool :=
  PyStr.nonempty candidate && PyStr.isalpha candidate
  && (1 <? Z.of_nat (String.length candidate))%Z.

Definition needs_practice_phrases : list string := ["try again"; "not quite"; "almost"].
Definition praise_phrases : list string := ["great"; "excellent"; "perfect"].

Definition _update_derived_state (st : DerivedState) (user_input assistant_response : string)
  : DerivedState :=
  let user_lower := PyStr.lower user_input in
  let st1 :=
    if PyStr.contains "my name is" user_lower || PyStr.contains "i'm" user_lower
       || PyStr.contains "i am" user_lower
    then
      let name_candidates :=
        (name_candidate "my name is" user_lower ++ name_candidate "i'm" user_lower
         ++ name_candidate "i am" user_lower)%list in
      match find valid_name name_candidates with
      | Some candidate => set_child_name (Some (PyStr.capitalize candidate)) st
      | None => st
      end
    else st in
  if PyStr.any_in needs_practice_phrases (PyStr.lower assistant_response)
  then set_last_mistake (Some user_input) st1
  else if PyStr.any_in praise_phrases (PyStr.lower assistant_response)
  then set_last_mistake None st1
  else st1.

(** [now0] is read if the session has to be created, [now1] and [now2]
    stamp the two entries. *)
Definition add_turn (now0 now1 now2 sid user_input assistant_response : string)
    (ms : MemoryService) : MemoryService * Session :=
  let '(ms1, session) := get_session now0 sid ms in
  let h1 := (history session ++ [mkTurn "user" user_input now1])%list in
  let h2 := (h1 ++ [mkTurn "assistant" assistant_response now2])%list in
  let max_entries := (max_turns ms * 2)%Z in
  let h3 := last_entries max_entries h2 in
  let st := _update_derived_state (derived_state session) user_input assistant_response in
  let st' := set_total_interactions (total_interactions st + 1) st in
  let session' := mkSession h3 st' in
  (set_session sid session' ms1, session').

Definition progress_letter (now sid from_letter to_letter : string) (ms : MemoryService)
  : MemoryService * bool :=
  let '(ms1, session) := get_session now sid ms in
  let session' :=
    mkSession (history session) (set_current_letter to_letter (derived_state session)) in
  (set_session sid session' ms1, true).

Definition get_derived_state (now sid : string) (ms : MemoryService)
  : MemoryService * DerivedState :=
  let '(ms1, session) := get_session now sid ms in
  (ms1, derived_state session).

(** [limit] is [None] or an integer; [None] and [0] both give the whole
    history. *)
Definition get_conversation_history (now sid : string) (limit : option Z) (ms : MemoryService)
  : MemoryService * list ConversationTurn :=
  let '(ms1, session) := get_session now sid ms in
  match limit with
  | Some n => if (n =? 0)%Z then (ms1, history session)
              else (ms1, last_entries n (history session))
  | None => (ms1, history session)
  end.

(** The letter that a read of the session gives, without the side effect
    of creating it: a session that does not exist yet is created at ['A']. *)
Definition letter_at (ms : MemoryService) (sid : string) : string :=
  match sessions ms !! sid with
  | Some s => current_letter (derived_state s)
  | None => "A"
  end.

Definition clear_session (sid : string) (ms : MemoryService) : MemoryService * bool :=
  match sessions ms !! sid with
  | Some _ => (mkMemory (max_turns ms) (delete sid (sessions ms)), true)
  | None => (ms, false)
  end.

(** The session that a call for [sid] works on. *)
Definition session_before (now sid : string) (ms : MemoryService) : Session :=
  snd (get_session now sid ms).

(** *** Runs of turns *)

(** One call of [add_turn] with the three clock readings it makes. *)
Record turn_call : Type := mkCall {
  call_now0 : string;
  call_now1 : string;
  call_now2 : string;
  call_sid : string;
  call_user : string;
  call_assistant : string
}.

Definition do_call (ms : MemoryService) (c : turn_call) : MemoryService :=
  fst (add_turn (call_now0 c) (call_now1 c) (call_now2 c) (call_sid c)
                (call_user c) (call_assistant c) ms).

Definition run_turns (calls : list turn_call) (ms : MemoryService) : MemoryService :=
  fold_left do_call calls ms.

(** The entries that the calls append for [sid], oldest first. *)
Definition entries_of (sid : string) (calls : list turn_call) : list ConversationTurn :=
  flat_map (fun c =>
    if String.eqb (call_sid c) sid
    then [mkTurn "user" (call_user c) (call_now1 c);
          mkTurn "assistant" (call_assistant c) (call_now2 c)]
    else []) calls.

Definition history_of (ms : MemoryService) (sid : string) : list ConversationTurn :=
  match sessions ms !! sid with
  | Some s => history s
  | None => []
  end.

(** *** Statistics *)

(** The [dict] that [get_session_stats] returns. *)
Record SessionStats : Type := mkStats {
  stats_session_id : string;
  stats_current_letter : string;
  stats_child_name : option string;
  stats_total_interactions : Z;
  stats_session_duration : Z;
  stats_conversation_turns : Z
}.

Definition _calculate_session_duration `{SessionClock} (start_time : string) : Z :=
  match seconds_since start_time with
  | Some duration => duration
  | None => 0%Z
  end.

Definition get_session_stats `{SessionClock} (now sid : string) (ms : MemoryService)
  : MemoryService * SessionStats :=
  let '(ms1, session) := get_session now sid ms in
  let state := derived_state session in
  (ms1, mkStats sid (current_letter state) (child_name state) (total_interactions state)
                (_calculate_session_duration (session_start state))
                (Z.of_nat (length (history session)) / 2)%Z).

(** *** Shapes of a history *)

(** A history made of whole turns: a user entry, then an assistant entry,
    and so on. *)
Fixpoint whole_turns (h : list ConversationTurn) : Prop :=
  match h with
  | [] => True
  | user_entry :: assistant_entry :: rest =>
      turn_type user_entry = "user" /\ turn_type assistant_entry = "assistant"
      /\ whole_turns rest
  | _ => False
  end.

(** The number of interactions that a read of the session reports. *)
Definition interactions_of (ms : MemoryService) (sid : string) : Z :=
  match sessions ms !! sid with
  | Some s => total_interactions (derived_state s)
  | None => 0%Z
  end.

(** The number of calls in a run that are made for [sid]. *)
Definition calls_for (sid : string) (calls : list turn_call) : nat :=
  length (filter (fun c => call_sid c = sid) calls).

(** *** Names *)

(** A name as the extraction stores it: letters only, at least two of
    them, the first in upper case and the others in lower case. *)
Definition proper_name (name : string) : Prop :=
  PyStr.isalpha name = true
  /\ (2 <= String.length name)%nat
  /\ PyStr.capitalize name = name.

(** The name that a read of the session reports. *)
Definition name_of (ms : MemoryService) (sid : string) : option string :=
  match sessions ms !! sid with
  | Some s => child_name (derived_state s)
  | None => None
  end.

End Memory.

(** ** safety_service.py *)

(** The two libraries the safety service calls: [better_profanity] and the
    regular expressions of [re], both with the flags the service passes. *)
Class ProfanityFilter := {
  contains_profanity : string -> bool;
  censor : string -> string
}.

Class Regex := {
  (* [re.search(pattern, text, re.IGNORECASE)] finds a match *)
  re_search : string -> string -> bool;
  (* [re.sub(pattern, repl, text, flags=re.IGNORECASE)] *)
  re_sub : string -> string -> string -> string
}.

Module Safety.

Definition pii_patterns : list string :=
  [ "\b\d{3}-\d{2}-\d{4}\b";
    "\b\d{3}-\d{3}-\d{4}\b";
    "\b[A-Za-z0-9._%+-]+@[A-Za-z0-9.-]+\.[A-Z|a-z]{2,}\b";
    "\b\d{1,5}\s+\w+\s+(street|st|avenue|ave|road|rd|drive|dr)\b" ].

Definition unsafe_topics : list string :=
  [ "violence"; "scary"; "death"; "blood"; "weapon"; "gun"; "knife";
    "stranger"; "secret"; "password"; "address"; "phone number";
    "where do you live"; "what school"; "parents work" ].

Section Libraries.
Context `{ProfanityFilter} `{Regex}.

(** The loop stops at the first pattern that matches. *)
Definition _detect_pii (text : string) : list string :=
  if existsb (fun pattern => re_search pattern text) pii_patterns
  then ["pii_detected"] else [].

Definition _remove_pii (text : string) : string :=
  fold_left (fun cleaned pattern => re_sub pattern "[REMOVED]" cleaned) pii_patterns text.

Definition _detect_unsafe_topics (text : string) : list string :=
  let text_lower := PyStr.lower text in
  map (fun topic => "unsafe_topic_" +:+ PyStr.replace_char " " "_" topic)
      (filter (fun topic => PyStr.contains topic text_lower = true) unsafe_topics).

Definition moderate_content (text : string) : bool * string * list string :=
  let violations0 : list string := [] in
  let cleaned0 := text in
  let '(violations1, cleaned1) :=
    if contains_profanity text
    then ((violations0 ++ ["inappropriate_language"])%list, censor text)
    else (violations0, cleaned0) in
  let pii_found := _detect_pii text in
  let '(violations2, cleaned2) :=
    match pii_found with
    | [] => (violations1, cleaned1)
    | _ => ((violations1 ++ pii_found)%list, _remove_pii cleaned1)
    end in
  let unsafe_found := _detect_unsafe_topics text in
  let violations3 :=
    match unsafe_found with
    | [] => violations2
    | _ => (violations2 ++ unsafe_found)%list
    end in
  let is_safe := (Z.of_nat (length violations3) =? 0)%Z in
  (is_safe, cleaned2, violations3).

End Libraries.

(** The three components of the result of [moderate_content]. *)
Definition is_safe (r : bool * string * list string) : bool := fst (fst r).
Definition cleaned_text (r : bool * string * list string) : string := snd (fst r).
Definition violations (r : bool * string * list string) : list string := snd r.

Definition generate_safe_response (violations : list string) : string :=
  if PyStr.mem "inappropriate_language" violations
  then "Let's use kind words! Can we try saying that in a nicer way?"
  else if existsb (fun v => PyStr.contains "pii" v) violations
  then "Remember, we don't share personal information! Let's focus on learning letters instead."
  else if existsb (fun v => PyStr.contains "unsafe_topic" v) violations
  then "That's not something we talk about in our alphabet lessons. Let's learn about letters instead!"
  else "Let's keep our conversation about learning letters! What letter would you like to practice?".

Definition learning_keywords : list string :=
  [ "letter"; "alphabet"; "sound"; "word"; "learn"; "teach"; "practice";
    "phonics"; "pronunciation"; "spell"; "say"; "repeat" ].

Definition inappropriate_keywords : list string :=
  [ "hack"; "break"; "destroy"; "kill"; "hurt"; "bad words";
    "password"; "login"; "account"; "money"; "buy"; "sell" ].

Definition is_child_appropriate_request (text : string) : bool :=
  let text_lower := PyStr.lower text in
  let has_learning_context := PyStr.any_in learning_keywords text_lower in
  let has_inappropriate_content := PyStr.any_in inappropriate_keywords text_lower in
  has_learning_context && negb has_inappropriate_content.

End Safety.

(** ** phoneme_service.py *)

Module Phoneme.

(** The dataclass of the result.  [accuracy_score] is a Python [float];
    it is a rational here. *)
Record PhonemeAnalysis : Type := mkAnalysis {
  detected_phonemes : list string;
  expected_phonemes : list string;
  accuracy_score : Q;
  feedback : string;
  pronunciation_tips : list string
}.

(** The three tables of [__init__], in the order they are written. *)
Definition letter_phonemes : list (string * list string) :=
  [ ("A", ["/eɪ/"; "/æ/"]); ("B", ["/biː/"]); ("C", ["/siː/"]); ("D", ["/diː/"]);
    ("E", ["/iː/"; "/ɛ/"]); ("F", ["/ɛf/"]); ("G", ["/dʒiː/"]); ("H", ["/eɪtʃ/"]);
    ("I", ["/aɪ/"; "/ɪ/"]); ("J", ["/dʒeɪ/"]); ("K", ["/keɪ/"]); ("L", ["/ɛl/"]);
    ("M", ["/ɛm/"]); ("N", ["/ɛn/"]); ("O", ["/oʊ/"; "/ɒ/"]); ("P", ["/piː/"]);
    ("Q", ["/kjuː/"]); ("R", ["/ɑːr/"]); ("S", ["/ɛs/"]); ("T", ["/tiː/"]);
    ("U", ["/juː/"; "/ʌ/"]); ("V", ["/viː/"]); ("W", ["/dʌbəljuː/"]); ("X", ["/ɛks/"]);
    ("Y", ["/waɪ/"]); ("Z", ["/ziː/"; "/zɛd/"]) ].

Definition phoneme_patterns : list (string * list string) :=
  [ ("/eɪ/", ["ay"; "a_e"; "ai"]);
    ("/æ/", ["a"]);
    ("/iː/", ["ee"; "ea"; "e_e"]);
    ("/ɛ/", ["e"]);
    ("/aɪ/", ["i_e"; "igh"; "y"]);
    ("/ɪ/", ["i"]);
    ("/oʊ/", ["o_e"; "oa"; "ow"]);
    ("/ɒ/", ["o"]);
    ("/juː/", ["u_e"; "ue"]);
    ("/ʌ/", ["u"]) ].

Definition pronunciation_tips_table : list (string * string) :=
  [ ("/eɪ/", "Say 'ay' like in 'play'");
    ("/æ/", "Say 'a' like in 'cat'");
    ("/iː/", "Say 'ee' like in 'see'");
    ("/ɛ/", "Say 'e' like in 'bed'");
    ("/aɪ/", "Say 'i' like in 'kite'");
    ("/ɪ/", "Say 'i' like in 'sit'");
    ("/oʊ/", "Say 'o' like in 'go'");
    ("/ɒ/", "Say 'o' like in 'hot'");
    ("/juː/", "Say 'u' like in 'cute'");
    ("/ʌ/", "Say 'u' like in 'cup'") ].

Definition mouth_tips : list (string * string) :=
  [ ("A", "Open your mouth wide");
    ("E", "Smile while saying the sound");
    ("I", "Make your mouth small and round");
    ("O", "Make your lips round like a circle");
    ("U", "Push your lips forward") ].

(** [d.get(k)] on a table. *)
Fixpoint table_get {V} (k : string) (d : list (string * V)) : option V :=
  match d with
  | [] => None
  | (k', v) :: rest => if String.eqb k k' then Some v else table_get k rest
  end.

(** [d[k]] *)
Definition table_item {V} (k : string) (d : list (string * V)) : result V :=
  match table_get k d with
  | Some v => Ok v
  | None => Raise KeyError
  end.

Fixpoint sfilter (p : ascii -> bool) (s : string) : string :=
  match s with
  | EmptyString => EmptyString
  | String c s' => if p c then String c (sfilter p s') else sfilter p s'
  end.

Fixpoint join (sep : string) (parts : list string) : string :=
  match parts with
  | [] => EmptyString
  | [p] => p
  | p :: rest => p +:+ sep +:+ join sep rest
  end.

(** A character that [\w] or [\s] matches. *)
Definition is_word_or_space (c : ascii) : bool :=
  PyStr.is_alpha c || PyStr.is_digit c || Ascii.eqb c "_"%char || PyStr.is_space c.

Definition _normalize_transcript (transcript : string) : string :=
  if negb (PyStr.nonempty transcript) then EmptyString
  else
    let normalized := sfilter is_word_or_space (PyStr.lower transcript) in
    join " " (PyStr.split_ws normalized).

(** [x in l] for phonemes. *)
Definition mem : string -> list string -> bool := PyStr.mem.

(** [list(set(detected))]: the order of the result is not determined by
    Python; the first occurrences are kept here, in their order. *)
Definition _detect_phonemes (transcript target_letter : string) : result (list string) :=
  by_name ←
    (if PyStr.contains (PyStr.lower target_letter) transcript
     then table_item target_letter letter_phonemes
     else Ok []);
  let by_pattern :=
    flat_map (fun '(phoneme, patterns) =>
      flat_map (fun pattern =>
        if PyStr.contains pattern transcript then [phoneme] else []) patterns)
      phoneme_patterns in
  mret (remove_dups (by_name ++ by_pattern)%list).

(** [set(a) == set(b)] *)
Definition set_eqb (a b : list string) : bool :=
  forallb (fun x => mem x b) a && forallb (fun x => mem x a) b.

(** [len(set(a) & set(b))] *)
Definition count_common (a b : list string) : Z :=
  Z.of_nat (length (remove_dups (filter (fun x => mem x b = true) a))).

(** Round half to even, as [round]. *)
Definition round_half_even (q : Q) : Z :=
  let f := Qfloor q in
  match Qcompare (q - inject_Z f)%Q (1 # 2) with
  | Lt => f
  | Gt => (f + 1)%Z
  | Eq => if Z.even f then f else (f + 1)%Z
  end.

(** [round(q, 2)] *)
Definition round2 (q : Q) : Q := Qmake (round_half_even (q * 100)%Q) 100.

Definition _calculate_accuracy (detected expected : list string) : Q :=
  match expected, detected with
  | [], _ => 0%Q
  | _, [] => 0%Q
  | _, _ =>
      let matches := count_common detected expected in
      let total_expected := Z.of_nat (length expected) in
      let accuracy := (inject_Z matches / inject_Z total_expected)%Q in
      let accuracy :=
        if set_eqb detected expected then Qmin 1 (accuracy + (2 # 10))%Q else accuracy in
      round2 accuracy
  end.

Definition _generate_feedback (detected expected : list string) (accuracy : Q)
    (target_letter : string) (phonics_mode : bool) : string :=
  if Qle_bool (8 # 10) accuracy
  then "Excellent! You pronounced '" +:+ target_letter +:+ "' perfectly!"
  else if Qle_bool (6 # 10) accuracy
  then "Good job! Your '" +:+ target_letter +:+ "' sound is almost perfect."
  else if Qle_bool (4 # 10) accuracy
  then "Nice try! Let's practice the '" +:+ target_letter +:+ "' sound together."
  else if phonics_mode
  then "Let's work on the '" +:+ target_letter +:+ "' sound. Listen carefully..."
  else "Let's practice saying the letter '" +:+ target_letter +:+ "' together.".

(** The missing phonemes are visited in the order of [expected]; Python
    iterates over a set here. *)
Definition _get_pronunciation_tips (detected expected : list string) (target_letter : string)
  : list string :=
  let missing_phonemes := remove_dups (filter (fun x => mem x detected = false) expected) in
  let tips := omap (fun phoneme => table_get phoneme pronunciation_tips_table) missing_phonemes in
  let tips :=
    match tips with
    | [] => ["Try saying '" +:+ target_letter +:+ "' clearly and slowly"]
    | _ => tips
    end in
  let tips :=
    match table_get target_letter mouth_tips with
    | Some tip => (tips ++ [tip])%list
    | None => tips
    end in
  take 3 tips.

Definition _create_error_analysis (error_msg : string) : PhonemeAnalysis :=
  mkAnalysis [] [] 0%Q ("Sorry, I couldn't analyze that. " +:+ error_msg)
             ["Please try speaking clearly into the microphone"].

Definition analyze_pronunciation (audio_transcript target_letter : string) (phonics_mode : bool)
  : PhonemeAnalysis :=
  let target_letter := PyStr.upper target_letter in
  match table_get target_letter letter_phonemes with
  | None => _create_error_analysis "Invalid target letter"
  | Some expected_phonemes =>
      let transcript := _normalize_transcript audio_transcript in
      match _detect_phonemes transcript target_letter with
      | Raise _ => _create_error_analysis "Analysis failed"
      | Ok detected_phonemes =>
          let accuracy := _calculate_accuracy detected_phonemes expected_phonemes in
          let feedback :=
            _generate_feedback detected_phonemes expected_phonemes accuracy
                               target_letter phonics_mode in
          let tips := _get_pronunciation_tips detected_phonemes expected_phonemes target_letter in
          mkAnalysis detected_phonemes expected_phonemes accuracy feedback tips
      end
  end.

(** The score as the design document words it, over finite sets: the
    share of the expected phonemes that were detected, with a bonus of 0.2
    capped at 1 when the two sets are equal, and 0 when either is empty. *)
Definition accuracy_spec (detected expected : list string) : Q :=
  let D : gset string := list_to_set detected in
  let E : gset string := list_to_set expected in
  if decide (E = ∅ \/ D = ∅) then 0%Q
  else
    let base := (inject_Z (Z.of_nat (size (D ∩ E))) / inject_Z (Z.of_nat (size E)))%Q in
    if decide (D = E) then Qmin 1 (base + (2 # 10))%Q else base.

End Phoneme.

(** ** agent_service.py *)

Module Agent.

Import Curriculum Memory.

(** The module-level singletons that every [AgentService] shares.  The
    safety service has no state. *)
Record World : Type := mkWorld {
  curriculum : CurriculumService;
  memory : MemoryService
}.

(** A value of a metadata [dict]. *)
Inductive mval : Type :=
  | MBool (b : bool)
  | MStr (s : string)
  | MList (l : list string).

(** A method of the agent: it may change the shared services and then
    return or raise; what it changed before raising stays changed. *)
Definition M (A : Type) : Type := World -> World * result A.

#[global] Instance M_ret : MRet M := fun A a w => (w, Ok a).
#[global] Instance M_bind : MBind M := fun A B f m w =>
  match m w with
  | (w', Ok a) => f a w'
  | (w', Raise e) => (w', Raise e)
  end.

Definition lift {A} (r : result A) : M A := fun w => (w, r).

Definition with_memory {A} (f : MemoryService -> MemoryService * A) : M A := fun w =>
  let '(ms, a) := f (memory w) in (mkWorld (curriculum w) ms, Ok a).

Definition read_curriculum {A} (f : CurriculumService -> result A) : M A := fun w =>
  (w, f (curriculum w)).

(** [bool(x)] for the optional letter that [get_next_letter] returns. *)
Definition truthy_letter (o : option string) : option string :=
  match o with
  | Some l => if PyStr.nonempty l then Some l else None
  | None => None
  end.

Section Services.
Context `{Formatter} `{ProfanityFilter} `{Regex}.

Definition process_user_input (user_input : string) : bool * string * gmap string mval :=
  let '(is_safe, cleaned_input, violations) := Safety.moderate_content user_input in
  if negb is_safe then
    (false, Safety.generate_safe_response violations, {[ "violations" := MList violations ]})
  else if negb (Safety.is_child_appropriate_request cleaned_input) then
    (false, "Let's focus on learning letters! What letter would you like to practice?",
     {[ "inappropriate_request" := MBool true ]})
  else (true, cleaned_input, ∅).

Definition generate_response (now sid user_input : string) : M (string * gmap string mval) :=
  state ← with_memory (get_derived_state now sid);
  let current_letter := current_letter state in
  '(is_correct, feedback) ←
    read_curriculum (fun cs => check_pronunciation cs user_input current_letter);
  let metadata : gmap string mval :=
    <["progress_made" := MBool false]>
      (<["needs_practice" := MBool (negb is_correct)]>
         (<["is_correct" := MBool is_correct]>
            {[ "current_letter" := MStr current_letter ]})) in
  if is_correct then
    next_letter ← lift (get_next_letter current_letter);
    match truthy_letter next_letter with
    | Some next_letter =>
        _ ← with_memory (progress_letter now sid current_letter next_letter);
        let metadata :=
          <["new_letter" := MStr next_letter]> (<["progress_made" := MBool true]> metadata) in
        next_lesson ← read_curriculum (fun cs => get_lesson cs next_letter);
        if Json.truthy next_lesson then
          prompt ← lift (Json.get_default next_lesson "prompt" (JStr ""));
          mret (feedback +:+ " Now let's learn " +:+ next_letter +:+ "! " +:+ py_str prompt,
                metadata)
        else
          mret (feedback +:+ " Great job! Let's try the letter " +:+ next_letter +:+ ".",
                metadata)
    | None =>
        mret (feedback +:+ " Wow! You've learned the whole alphabet! You're amazing!",
              <["curriculum_complete" := MBool true]> metadata)
    end
  else mret (feedback, metadata).

(** The result is [None] or a pair; the first component is whatever the
    lesson table holds under [prompt] in the help case, a [str] otherwise. *)
Definition handle_special_commands (now sid user_input : string)
  : M (option (json * gmap string mval)) :=
  let user_lower := PyStr.strip (PyStr.lower user_input) in
  if PyStr.mem user_lower ["help"; "what do i do"; "i don't know"] then
    state ← with_memory (get_derived_state now sid);
    let current_letter := current_letter state in
    lesson ← read_curriculum (fun cs => get_lesson cs current_letter);
    if Json.truthy lesson then
      prompt ← lift (Json.get_default lesson "prompt"
                       (JStr ("Let's practice the letter " +:+ current_letter +:+ "!")));
      mret (Some (prompt, {[ "type" := MStr "help" ]}))
    else mret None
  else if PyStr.mem user_lower ["repeat"; "say that again"; "what"] then
    history ← with_memory (get_conversation_history now sid (Some 2%Z));
    match last history with
    | Some turn =>
        if String.eqb (turn_type turn) "assistant"
        then mret (Some (JStr (text turn), {[ "type" := MStr "repeat" ]}))
        else mret None
    | None => mret None
    end
  else if PyStr.contains "next letter" user_lower || PyStr.contains "skip" user_lower then
    state ← with_memory (get_derived_state now sid);
    let current_letter := current_letter state in
    next_letter ← lift (get_next_letter current_letter);
    match truthy_letter next_letter with
    | Some next_letter =>
        _ ← with_memory (progress_letter now sid current_letter next_letter);
        lesson ← read_curriculum (fun cs => get_lesson cs next_letter);
        prompt ←
          (if Json.truthy lesson
           then p ← lift (Json.get_default lesson "prompt"
                            (JStr ("Let's learn " +:+ next_letter +:+ "!")));
                mret (py_str p)
           else mret ("Let's try " +:+ next_letter +:+ "!"));
        mret (Some (JStr ("Okay! " +:+ prompt),
                    <["new_letter" := MStr next_letter]> {[ "type" := MStr "skip" ]}))
    | None => mret None
    end
  else mret None.

(** *** Runs of the engine *)

(** The calls that reach the shared services during a session: the two
    methods of the agent that can move the letter, the safety gate, the
    memory write that ends a turn, and a reload of the lesson table. *)
Inductive op : Type :=
  | GenerateResponse (now sid user_input : string)
  | HandleSpecialCommands (now sid user_input : string)
  | ProcessUserInput (user_input : string)
  | AddTurn (now0 now1 now2 sid user_input assistant_response : string)
  | ReloadLessons (r : file_read).

Definition step (o : op) (w : World) : World :=
  match o with
  | GenerateResponse now sid user_input => fst (generate_response now sid user_input w)
  | HandleSpecialCommands now sid user_input => fst (handle_special_commands now sid user_input w)
  | ProcessUserInput _ => w
  | AddTurn now0 now1 now2 sid user_input assistant_response =>
      mkWorld (curriculum w)
              (fst (add_turn now0 now1 now2 sid user_input assistant_response (memory w)))
  | ReloadLessons r => mkWorld (fst (reload_lessons r (curriculum w))) (memory w)
  end.

Definition run (ops : list op) (w : World) : World := fold_left (fun w o => step o w) ops w.

End Services.

(** The current letter of a session in a state of the engine. *)
Definition letter_of (w : World) (sid : string) : string := letter_at (memory w) sid.

(** A single upper-case letter A-Z. *)
Definition is_letter (l : string) : Prop :=
  exists c, l = String c EmptyString /\ (65 <= PyStr.ord c <= 90)%Z.

(** The place of an upper-case letter in the alphabet, from 0. *)
Definition alphabet_position (letter : string) : Z :=
  match letter with
  | String c EmptyString => (PyStr.ord c - PyStr.ord "A"%char)%Z
  | _ => (-1)%Z
  end.

(** [b] is the letter after [a], for [a] in A-Y. *)
Definition successor_of (a b : string) : Prop :=
  exists c, a = String c EmptyString /\ (65 <= PyStr.ord c <= 89)%Z
            /\ b = String (PyStr.chr (PyStr.ord c + 1)) EmptyString.

(** The two ways a letter is allowed to change in one call. *)
Definition held_or_advanced (a b : string) : Prop := b = a \/ successor_of a b.

(** The world after the read of the derived state that opens a call. *)
Definition after_read (now sid0 : string) (w : World) : World :=
  mkWorld (curriculum w) (fst (get_derived_state now sid0 (memory w))).

(** The world after the letter of [sid0] has been set to [l]. *)
Definition after_progress (now sid0 l : string) (w : World) : World :=
  mkWorld (curriculum w)
    (fst (progress_letter now sid0 (letter_of w sid0) l (memory (after_read now sid0 w)))).

(** A computation that leaves the services as they are. *)
Definition pure_call {A} (m : M A) : Prop := forall w, fst (m w) = w.

(** The metadata of [generate_response] before the progression step. *)
Definition base_metadata_of (current_letter : string) (is_correct : bool) : gmap string mval :=
  <["progress_made" := MBool false]>
    (<["needs_practice" := MBool (negb is_correct)]>
       (<["is_correct" := MBool is_correct]>
          {[ "current_letter" := MStr current_letter ]})).

(** The phrases that [handle_special_commands] looks for, after the input
    is put in lower case and stripped. *)
Definition is_skip_phrase (user_input : string) : bool :=
  let user_lower := PyStr.strip (PyStr.lower user_input) in
  PyStr.contains "next letter" user_lower || PyStr.contains "skip" user_lower.

Definition is_repeat_phrase (user_input : string) : bool :=
  PyStr.mem (PyStr.strip (PyStr.lower user_input)) ["repeat"; "say that again"; "what"].

End Agent.

(** ** Concrete tables, services and libraries

    The values on which the services are run in the examples below. *)

Module Fixtures.

Import Curriculum Memory Agent.

(** A table that holds a lesson for B only, and the service built from it. *)
Definition lessons_b : json :=
  JObj [("B", JObj [("phoneme_clue", JStr "buh"); ("examples", JArr [JStr "Ball"])])].

Definition service_b : CurriculumService :=
  mkCurriculum lessons_b (<["B" := ["buh"; "b"; "ball"]]> ∅).

(** The service as it is built when the lesson file is missing. *)
Definition default_service : CurriculumService :=
  mkCurriculum _get_default_lessons
    (<["A" := ["ah"; "a"; "apple"; "ant"; "alligator"]]> ∅).

(** A table with a lesson for Z, and the service built from it. *)
Definition lessons_z : json :=
  JObj [("Z", JObj [("phoneme_clue", JStr "zzz"); ("examples", JArr [JStr "Zebra"])])].

Definition service_z : CurriculumService :=
  mkCurriculum lessons_z (<["Z" := ["zzz"; "z"; "zebra"]]> ∅).

(** A formatter for concrete runs; it is only ever applied to values that
    are not strings. *)
Definition plain_formatter : Formatter := fun j =>
  match j with
  | JNull => "None"
  | JBool true => "True"
  | JBool false => "False"
  | _ => "?"
  end.

(** A profanity filter that knows one word, to run the service on concrete
    inputs. *)
Definition one_word_filter : ProfanityFilter := {|
  contains_profanity := fun s => PyStr.contains "darn" (PyStr.lower s);
  censor := fun s => if PyStr.contains "darn" (PyStr.lower s) then "****" else s
|}.

(** What [re] does with the four PII patterns on a text without a digit and
    without ['@']: every pattern needs one of them, so nothing is found and
    nothing is replaced. *)
Definition no_pii_regex : Regex := {|
  re_search := fun _ _ => false;
  re_sub := fun _ _ text => text
|}.

(** A world in which the session ["s"] has reached Z. *)
Definition world_at_z : World :=
  mkWorld service_z
    (mkMemory 3 (<["s" := mkSession [] (mkState "Z" None "easy" None "t0" 25)]> ∅)).

(** A new memory service next to the built-in lesson table. *)
Definition new_world : World := mkWorld default_service (Memory.init 3).

(** Four turns of one session. *)
Definition four_turns : list turn_call :=
  [ mkCall "t0" "t1" "t2" "s" "one" "Great!";
    mkCall "t3" "t4" "t5" "s" "two" "Try again";
    mkCall "t6" "t7" "t8" "s" "three" "Almost";
    mkCall "t9" "t10" "t11" "s" "four" "Perfect" ].

(** A clock that reports no elapsed time. *)
Definition frozen_clock : SessionClock := fun _ => Some 0%Z.

(** A table whose lesson for C has examples but no clue, and the service
    built from it. *)
Definition lessons_c : json :=
  JObj [("C", JObj [("examples", JArr [JStr "Cat"])])].

Definition service_c : CurriculumService :=
  mkCurriculum lessons_c (<["C" := [""; "c"; "cat"]]> ∅).

(** A file that decodes to a table from which no phoneme map can be built:
    the lesson for B is [null]. *)
Definition lessons_with_null : json :=
  JObj [("A", JObj [("phoneme_clue", JStr "ah")]); ("B", JNull)].

End Fixtures.

(** * Properties *)

(** ** Strings *)

Module PyStrFacts.

Import PyStr.

Lemma ord_chr (z : Z) : (0 <= z < 256)%Z -> ord (chr z) = z.
Proof.
  intros Hz. unfold ord, chr.
  rewrite nat_ascii_embedding by lia. lia.
Qed.

Lemma ord_range (c : ascii) : (0 <= ord c < 256)%Z.
Proof.
  unfold ord. pose proof (nat_ascii_bounded c). lia.
Qed.

Lemma chr_ord (c : ascii) : chr (ord c) = c.
Proof.
  unfold ord, chr. rewrite Nat2Z.id. apply ascii_nat_embedding.
Qed.

Lemma upper_char_not_lower (c : ascii) : is_lower c = false -> upper_char c = c.
Proof. unfold upper_char. now intros ->. Qed.

(** Lower-casing forgets an earlier upper-casing. *)
Lemma lower_upper_char (c : ascii) : lower_char (upper_char c) = lower_char c.
Proof.
  unfold lower_char, upper_char.
  destruct (is_lower c) eqn:Hl.
  - unfold is_lower in Hl. apply andb_true_iff in Hl as [H1 H2].
    apply Z.leb_le in H1, H2.
    assert (Hu : is_upper (chr (ord c - 32)) = true).
    { unfold is_upper. rewrite ord_chr by lia.
      apply andb_true_iff; split; apply Z.leb_le; lia. }
    rewrite Hu. rewrite ord_chr by lia.
    assert (Hn : is_upper c = false).
    { unfold is_upper. apply andb_false_iff. right. apply Z.leb_gt. lia. }
    rewrite Hn. replace (ord c - 32 + 32)%Z with (ord c) by lia. apply chr_ord.
  - reflexivity.
Qed.

Lemma lower_upper (s : string) : lower (upper s) = lower s.
Proof.
  unfold lower, upper. induction s as [|c s IH]; simpl.
  - reflexivity.
  - now rewrite lower_upper_char, IH.
Qed.

Lemma prefix_smap (f : ascii -> ascii) (a b : string) :
  String.prefix a b = true -> String.prefix (smap f a) (smap f b) = true.
Proof.
  revert b. induction a as [|x a IH]; intros [|y b]; simpl; try easy.
  destruct (ascii_dec x y) as [->|Hne]; [|easy].
  intros Hp. destruct (ascii_dec (f y) (f y)); [|congruence]. now apply IH.
Qed.

Lemma contains_smap (f : ascii -> ascii) (sub s : string) :
  contains sub s = true -> contains (smap f sub) (smap f s) = true.
Proof.
  induction s as [|c s IH]; simpl.
  - rewrite orb_false_r. intros Hp. rewrite orb_false_r.
    now apply (prefix_smap f sub EmptyString).
  - intros Hc. apply orb_true_iff in Hc as [Hp|Hc]; apply orb_true_iff.
    + left. now apply (prefix_smap f sub (String c s)).
    + right. now apply IH.
Qed.

Lemma contains_lower (sub s : string) :
  contains sub s = true -> contains (lower sub) (lower s) = true.
Proof. apply contains_smap. Qed.

(** *** Case maps *)

Lemma is_upper_lower_char (c : ascii) : is_upper (lower_char c) = false.
Proof.
  unfold lower_char. destruct (is_upper c) eqn:Hu; [|exact Hu].
  unfold is_upper in *. apply andb_true_iff in Hu as [H1 H2].
  apply Z.leb_le in H1, H2. rewrite ord_chr by lia.
  apply andb_false_iff. right. apply Z.leb_gt. lia.
Qed.

Lemma is_lower_upper_char (c : ascii) : is_lower (upper_char c) = false.
Proof.
  unfold upper_char. destruct (is_lower c) eqn:Hl; [|exact Hl].
  unfold is_lower in *. apply andb_true_iff in Hl as [H1 H2].
  apply Z.leb_le in H1, H2. rewrite ord_chr by lia.
  apply andb_false_iff. left. apply Z.leb_gt. lia.
Qed.

Lemma lower_char_idem (c : ascii) : lower_char (lower_char c) = lower_char c.
Proof. unfold lower_char at 1. now rewrite is_upper_lower_char. Qed.

Lemma upper_char_idem (c : ascii) : upper_char (upper_char c) = upper_char c.
Proof. unfold upper_char at 1. now rewrite is_lower_upper_char. Qed.

Lemma lower_idem (s : string) : lower (lower s) = lower s.
Proof.
  unfold lower. induction s as [|c s IH]; cbn; [reflexivity|].
  now rewrite lower_char_idem, IH.
Qed.

Lemma upper_idem (s : string) : upper (upper s) = upper s.
Proof.
  unfold upper. induction s as [|c s IH]; cbn; [reflexivity|].
  now rewrite upper_char_idem, IH.
Qed.

Lemma upper_lower_char (c : ascii) : upper_char (lower_char c) = upper_char c.
Proof.
  unfold lower_char, upper_char.
  destruct (is_upper c) eqn:Hu.
  - unfold is_upper in Hu. apply andb_true_iff in Hu as [H1 H2].
    apply Z.leb_le in H1, H2.
    assert (Hl : is_lower (chr (ord c + 32)) = true).
    { unfold is_lower. rewrite ord_chr by lia.
      apply andb_true_iff; split; apply Z.leb_le; lia. }
    rewrite Hl. rewrite ord_chr by lia.
    assert (Hn : is_lower c = false).
    { unfold is_lower. apply andb_false_iff. left. apply Z.leb_gt. lia. }
    rewrite Hn. replace (ord c + 32 - 32)%Z with (ord c) by lia. apply chr_ord.
  - reflexivity.
Qed.

Lemma upper_lower (s : string) : upper (lower s) = upper s.
Proof.
  unfold lower, upper. induction s as [|c s IH]; cbn; [reflexivity|].
  now rewrite upper_lower_char, IH.
Qed.

Lemma length_smap (f : ascii -> ascii) (s : string) :
  String.length (smap f s) = String.length s.
Proof. induction s as [|c s IH]; cbn; [reflexivity | now rewrite IH]. Qed.

Lemma is_alpha_lower_char (c : ascii) : is_alpha c = true -> is_alpha (lower_char c) = true.
Proof.
  unfold is_alpha, lower_char. destruct (is_upper c) eqn:Hu; [|now rewrite Hu].
  intros _. unfold is_upper in Hu. apply andb_true_iff in Hu as [H1 H2].
  apply Z.leb_le in H1, H2. apply orb_true_iff. right.
  unfold is_lower. rewrite ord_chr by lia.
  apply andb_true_iff; split; apply Z.leb_le; lia.
Qed.

Lemma is_alpha_upper_char (c : ascii) : is_alpha c = true -> is_alpha (upper_char c) = true.
Proof.
  unfold is_alpha, upper_char. destruct (is_lower c) eqn:Hl; [|now rewrite Hl].
  intros _. unfold is_lower in Hl. apply andb_true_iff in Hl as [H1 H2].
  apply Z.leb_le in H1, H2. apply orb_true_iff. left.
  unfold is_upper. rewrite ord_chr by lia.
  apply andb_true_iff; split; apply Z.leb_le; lia.
Qed.

Lemma sforall_alpha_lower (s : string) :
  sforall is_alpha s = true -> sforall is_alpha (lower s) = true.
Proof.
  unfold lower. induction s as [|c s IH]; cbn; [reflexivity|].
  intros Ha. apply andb_true_iff in Ha as [H1 H2].
  now rewrite is_alpha_lower_char, IH.
Qed.

Lemma isalpha_capitalize (s : string) : isalpha s = true -> isalpha (capitalize s) = true.
Proof.
  unfold isalpha. destruct s as [|c s]; cbn; [discriminate|].
  intros Ha. apply andb_true_iff in Ha as [H1 H2].
  now rewrite is_alpha_upper_char, sforall_alpha_lower.
Qed.

Lemma capitalize_idem (s : string) : capitalize (capitalize s) = capitalize s.
Proof.
  destruct s as [|c s]; cbn; [reflexivity|].
  now rewrite upper_char_idem, lower_idem.
Qed.

Lemma length_capitalize (s : string) : String.length (capitalize s) = String.length s.
Proof.
  destruct s as [|c s]; cbn; [reflexivity|]. unfold lower. now rewrite length_smap.
Qed.

End PyStrFacts.

(** ** The curriculum store *)

Module CurriculumFacts.

Import Curriculum Fixtures.

(** *** Successor letters *)

Lemma get_next_letter_A_to_Y (c : ascii) :
  (65 <= PyStr.ord c <= 89)%Z ->
  get_next_letter (String c "") = Ok (Some (String (PyStr.chr (PyStr.ord c + 1)) "")).
Proof.
  intros Hc. unfold get_next_letter.
  change (PyStr.nonempty (String c "")) with true. cbn [negb].
  change (PyStr.upper (String c "")) with (String (PyStr.upper_char c) "").
  rewrite PyStrFacts.upper_char_not_lower.
  - cbn [ord_str mbind result_bind]. change (PyStr.ord "Z") with 90%Z.
    destruct (Z.leb_spec (PyStr.ord c + 1) 90); [reflexivity | lia].
  - unfold PyStr.is_lower. apply andb_false_iff. left. apply Z.leb_gt. lia.
Qed.

(** C4.  [get_next_letter('Z')] is [None], [get_next_letter('')] is ['A'],
    and for every letter [L] from A to Y the result is the letter with the
    next character code, [chr(ord(L) + 1)]. *)
Theorem get_next_letter_alphabet :
  get_next_letter "Z" = Ok None
  /\ get_next_letter "" = Ok (Some "A")
  /\ forall c : ascii,
       (PyStr.ord "A" <= PyStr.ord c <= PyStr.ord "Y")%Z ->
       get_next_letter (String c "")
       = Ok (Some (String (PyStr.chr (PyStr.ord c + 1)) "")).
Proof.
  split; [reflexivity|]. split; [reflexivity|].
  intros c Hc. apply get_next_letter_A_to_Y.
  change (PyStr.ord "A") with 65%Z in Hc. change (PyStr.ord "Y") with 89%Z in Hc. exact Hc.
Qed.

Lemma get_next_letter_alphabet_witness :
  (PyStr.ord "A" <= PyStr.ord "C" <= PyStr.ord "Y")%Z
  /\ get_next_letter "C" = Ok (Some "D").
Proof.
  assert (Hc : (PyStr.ord "A" <= PyStr.ord "C" <= PyStr.ord "Y")%Z) by (vm_compute; split; discriminate).
  split; [exact Hc|].
  exact (proj2 (proj2 get_next_letter_alphabet) "C"%char Hc).
Defined.

(** *** Reloading the lesson table *)

Lemma service_b_built : _build_phoneme_map (lessons service_b) = Ok (phoneme_map service_b).
Proof. reflexivity. Qed.

(** C1, as stated, fails: with a lesson file that does not parse, a reload
    of the service that holds the B table reports success and the table is
    no longer the one loaded before. *)
Lemma reload_parse_failure_counterexample :
  snd (reload_lessons InvalidJSON service_b) = true
  /\ lessons (fst (reload_lessons InvalidJSON service_b)) <> lessons service_b.
Proof.
  split; [reflexivity|]. cbn. unfold lessons_b, _get_default_lessons. discriminate.
Qed.

(** C1, amended.  A reload whose lesson file fails to parse replaces the
    lesson table by the built-in table (the single lesson for A), rebuilds
    the phoneme map from that table and returns [True]. *)
Theorem reload_parse_failure_falls_back (cs : CurriculumService) :
  exists pm,
    _build_phoneme_map _get_default_lessons = Ok pm
    /\ reload_lessons InvalidJSON cs = (mkCurriculum _get_default_lessons pm, true).
Proof.
  unfold reload_lessons. cbn [_load_lessons].
  destruct (_build_phoneme_map _get_default_lessons) as [pm|e] eqn:Hb.
  - exists pm. split; reflexivity.
  - discriminate Hb.
Qed.

(** A missing file takes the same path. *)
Lemma reload_missing_file_falls_back (cs : CurriculumService) :
  reload_lessons FileNotFound cs = reload_lessons InvalidJSON cs.
Proof. reflexivity. Qed.

(** The [False] result is reserved for the exceptions that [_load_lessons]
    does not handle and for tables from which no phoneme map can be built;
    only in the first case is the service left as it was. *)
Lemma reload_false_iff (r : file_read) (cs : CurriculumService) :
  snd (reload_lessons r cs) = false
  <-> (exists e, _load_lessons r = Raise e)
      \/ (exists l e, _load_lessons r = Ok l /\ _build_phoneme_map l = Raise e).
Proof.
  unfold reload_lessons.
  destruct (_load_lessons r) as [l|e]; cbn.
  - destruct (_build_phoneme_map l) as [pm|e] eqn:Hb; cbn; split.
    + discriminate.
    + intros [[e He]|(l' & e & Hl & He)]; [discriminate|]. congruence.
    + intros _. right. eauto.
    + reflexivity.
  - split; [intros _; left; eauto | reflexivity].
Qed.

Lemma reload_load_raises (r : file_read) (cs : CurriculumService) (e : exn) :
  _load_lessons r = Raise e -> reload_lessons r cs = (cs, false).
Proof. unfold reload_lessons. now intros ->. Qed.

(** *** The phoneme map and the pronunciation check *)

Lemma phoneme_entry_has_letter (letter : string) (data : json) (sounds : list string) :
  phoneme_entry letter data = Ok sounds -> In (PyStr.lower letter) sounds.
Proof.
  unfold phoneme_entry. intros Hs.
  destruct (Json.get_default data "phoneme_clue" (JStr "")) as [clue|]; [|discriminate].
  cbn in Hs. destruct (Json.str_lower clue) as [cl|]; [|discriminate].
  cbn in Hs. destruct (Json.get_default data "examples" (JArr [])) as [ex|]; [|discriminate].
  cbn in Hs. destruct (Json.iter ex) as [ws|]; [|discriminate].
  cbn in Hs. destruct (mapM Json.str_lower ws) as [wl|]; [|discriminate].
  cbn in Hs. injection Hs as <-. right. now left.
Qed.

(** Every key of the items, and every key already in the accumulator whose
    entry lists the key in lower case, ends up with such an entry. *)
Lemma build_items_has_letter (items : list (string * json)) :
  forall (acc pm : gmap string (list string)) (k : string),
    build_items items acc = Ok pm ->
    is_Some (Json.assoc k items)
    \/ (exists sounds, acc !! k = Some sounds /\ In (PyStr.lower k) sounds) ->
    exists sounds, pm !! k = Some sounds /\ In (PyStr.lower k) sounds.
Proof.
  induction items as [|[letter data] rest IH]; intros acc pm k Hb Hk.
  - cbn in Hb. injection Hb as <-. destruct Hk as [[v Hv]|Hk]; [discriminate | exact Hk].
  - cbn in Hb. destruct (phoneme_entry letter data) as [sounds|] eqn:He; [|discriminate].
    cbn in Hb. apply (IH _ _ k Hb).
    destruct (String.eqb_spec k letter) as [->|Hne].
    + right. exists sounds. split; [apply lookup_insert_eq|].
      eapply phoneme_entry_has_letter; eauto.
    + destruct Hk as [Hk|(s & Hs & Hin)].
      * left. cbn in Hk. destruct (String.eqb_spec k letter); [contradiction | exact Hk].
      * right. exists s. split; [|exact Hin]. rewrite lookup_insert_ne; [exact Hs | congruence].
Qed.

Lemma consistent_has_letter (cs : CurriculumService) (letter : string) :
  consistent cs -> has_lesson cs letter ->
  exists sounds,
    phoneme_map cs !! PyStr.upper letter = Some sounds /\ In (PyStr.lower letter) sounds.
Proof.
  unfold consistent, has_lesson, get_lesson, Json.get, Json.get_default, _build_phoneme_map.
  intros Hc (lesson & Hl & Hn).
  destruct (lessons cs) as [| | | | |items]; try discriminate.
  injection Hl as Hl.
  destruct (build_items_has_letter items ∅ (phoneme_map cs) (PyStr.upper letter) Hc)
    as (sounds & Hs & Hin).
  - left. destruct (Json.assoc (PyStr.upper letter) items); [eauto|].
    cbn in Hl. congruence.
  - exists sounds. split; [exact Hs|]. now rewrite PyStrFacts.lower_upper in Hin.
Qed.

End CurriculumFacts.

(** ** The session memory *)

Module MemoryFacts.

Import Memory.

(** *** Slices *)

Lemma last_entries_suffix {A} (n : Z) (l : list A) : last_entries n l `suffix_of` l.
Proof. unfold last_entries, slice_from. apply suffix_drop. Qed.

Lemma last_entries_pos {A} (n : Z) (l : list A) :
  (0 < n)%Z -> last_entries n l = drop (length l - Z.to_nat n) l.
Proof.
  intros Hn. unfold last_entries, slice_from.
  destruct (Z.ltb_spec (- n) 0) as [_|]; [|lia].
  f_equal. lia.
Qed.

Lemma last_entries_zero {A} (l : list A) : last_entries 0 l = l.
Proof.
  unfold last_entries, slice_from. change (- 0 <? 0)%Z with false. cbv iota.
  rewrite Z.min_l by lia. reflexivity.
Qed.

Lemma length_last_entries {A} (n : Z) (l : list A) :
  (0 < n)%Z -> (Z.of_nat (length (last_entries n l)) <= n)%Z.
Proof.
  intros Hn. rewrite last_entries_pos by done. rewrite length_drop. lia.
Qed.

Lemma last_entries_short {A} (n : Z) (l : list A) :
  (Z.of_nat (length l) <= n)%Z -> (0 <= n)%Z -> last_entries n l = l.
Proof.
  intros Hl Hn. destruct (Z.eq_dec n 0%Z) as [->|Hne]; [apply last_entries_zero|].
  rewrite last_entries_pos by lia.
  replace (length l - Z.to_nat n)%nat with 0%nat by lia. apply drop_0.
Qed.

(** Trimming before an append does not change what is kept after it, as
    long as the appended entries fit into the window. *)
Lemma last_entries_app {A} (n : Z) (l k : list A) :
  (Z.of_nat (length k) <= n)%Z -> (0 < n)%Z ->
  last_entries n (last_entries n l ++ k) = last_entries n (l ++ k).
Proof.
  intros Hk Hn. rewrite !last_entries_pos by done.
  rewrite !length_app, !length_drop.
  rewrite (drop_app_le l k) by lia.
  rewrite (drop_app_le (drop _ l) k) by (rewrite length_drop; lia).
  rewrite drop_drop. do 2 f_equal. lia.
Qed.

(** *** What [_update_derived_state] leaves alone *)

Lemma update_total_interactions (st : DerivedState) (u a : string) :
  total_interactions (_update_derived_state st u a) = total_interactions st.
Proof.
  unfold _update_derived_state.
  repeat match goal with
         | |- context [if ?b then _ else _] => destruct b
         | |- context [match ?o with Some _ => _ | None => _ end] => destruct o
         end; reflexivity.
Qed.

Lemma update_current_letter (st : DerivedState) (u a : string) :
  current_letter (_update_derived_state st u a) = current_letter st.
Proof.
  unfold _update_derived_state.
  repeat match goal with
         | |- context [if ?b then _ else _] => destruct b
         | |- context [match ?o with Some _ => _ | None => _ end] => destruct o
         end; reflexivity.
Qed.

(** The name after a turn: the first valid candidate, capitalized, or the
    name as it was. *)
Lemma update_child_name (st : DerivedState) (u a : string) :
  child_name (_update_derived_state st u a)
  = let user_lower := PyStr.lower u in
    if PyStr.contains "my name is" user_lower || PyStr.contains "i'm" user_lower
       || PyStr.contains "i am" user_lower
    then
      match find valid_name
              (name_candidate "my name is" user_lower ++ name_candidate "i'm" user_lower
               ++ name_candidate "i am" user_lower)%list with
      | Some candidate => Some (PyStr.capitalize candidate)
      | None => child_name st
      end
    else child_name st.
Proof.
  unfold _update_derived_state. cbv zeta.
  repeat match goal with
         | |- context [if ?b then _ else _] => destruct b
         | |- context [match ?o with Some _ => _ | None => _ end] => destruct o
         end; reflexivity.
Qed.

(** *** One turn *)

Lemma add_turn_session (now0 now1 now2 sid u a : string) (ms : MemoryService) :
  snd (add_turn now0 now1 now2 sid u a ms)
  = let s := session_before now0 sid ms in
    mkSession
      (last_entries (max_turns ms * 2)
         (history s ++ [mkTurn "user" u now1; mkTurn "assistant" a now2]))
      (set_total_interactions
         (total_interactions (_update_derived_state (derived_state s) u a) + 1)
         (_update_derived_state (derived_state s) u a)).
Proof.
  unfold add_turn, session_before.
  destruct (get_session now0 sid ms) as [ms1 s]. cbn.
  now rewrite <- app_assoc.
Qed.

Lemma add_turn_stored (now0 now1 now2 sid u a : string) (ms : MemoryService) :
  sessions (fst (add_turn now0 now1 now2 sid u a ms)) !! sid
  = Some (snd (add_turn now0 now1 now2 sid u a ms)).
Proof.
  unfold add_turn. destruct (get_session now0 sid ms) as [ms1 s]. cbn.
  apply lookup_insert_eq.
Qed.

Lemma add_turn_max_turns (now0 now1 now2 sid u a : string) (ms : MemoryService) :
  max_turns (fst (add_turn now0 now1 now2 sid u a ms)) = max_turns ms.
Proof.
  unfold add_turn, get_session.
  destruct (sessions ms !! sid); reflexivity.
Qed.

Lemma add_turn_other (now0 now1 now2 sid u a : string) (ms : MemoryService) (sid' : string) :
  sid' <> sid ->
  sessions (fst (add_turn now0 now1 now2 sid u a ms)) !! sid' = sessions ms !! sid'.
Proof.
  intros Hne. unfold add_turn, get_session.
  destruct (sessions ms !! sid); cbn; rewrite ?lookup_insert_ne by congruence; reflexivity.
Qed.

(** C2, as stated, fails: a call with an empty user text on a new service
    appends two entries, the first of them with the empty text. *)
Lemma add_turn_empty_text_counterexample :
  history (snd (add_turn "t0" "t1" "t2" "s" "" "Hello!" (init 3)))
  = [mkTurn "user" "" "t1"; mkTurn "assistant" "Hello!" "t2"].
Proof. reflexivity. Qed.

(** C2, amended.  Every call [add_turn(session_id, user_text,
    assistant_text)] appends a user entry and an assistant entry to the
    history of the session, whether or not their texts are empty, and
    stores the slice [[-2 * max_turns:]] of the result; for [max_turns] of
    at least 1 that slice is the last [2 * max_turns] entries of the
    result, so the stored history ends with the two new entries.  The call
    increases [total_interactions] by exactly 1. *)
Theorem add_turn_appends_both (now0 now1 now2 sid u a : string) (ms : MemoryService) :
  let before := session_before now0 sid ms in
  let after := snd (add_turn now0 now1 now2 sid u a ms) in
  let appended :=
    (history before ++ [mkTurn "user" u now1; mkTurn "assistant" a now2])%list in
  history after = last_entries (max_turns ms * 2) appended
  /\ ((1 <= max_turns ms)%Z ->
      history after
      = drop (length appended - Z.to_nat (max_turns ms * 2)) appended
      /\ Z.of_nat (length (history after))
         = Z.min (max_turns ms * 2) (Z.of_nat (length appended))
      /\ exists kept,
           history after
           = (kept ++ [mkTurn "user" u now1; mkTurn "assistant" a now2])%list)
  /\ total_interactions (derived_state after)
     = (total_interactions (derived_state before) + 1)%Z
  /\ sessions (fst (add_turn now0 now1 now2 sid u a ms)) !! sid = Some after.
Proof.
  cbv zeta. rewrite add_turn_stored, add_turn_session. cbn.
  rewrite update_total_interactions.
  split; [reflexivity|]. split; [|auto].
  intros Hn. rewrite last_entries_pos by lia.
  split; [reflexivity|]. split.
  - rewrite length_drop. lia.
  - rewrite length_app. cbn [length].
    exists (drop (length (history (session_before now0 sid ms)) + 2
                  - Z.to_nat (max_turns ms * 2))
                 (history (session_before now0 sid ms))).
    rewrite drop_app_le by lia. reflexivity.
Qed.

Lemma add_turn_appends_both_witness :
  (1 <= max_turns (init 3))%Z
  /\ exists kept,
       history (snd (add_turn "t0" "t1" "t2" "s" "" "Hello!" (init 3)))
       = (kept ++ [mkTurn "user" "" "t1"; mkTurn "assistant" "Hello!" "t2"])%list.
Proof.
  assert (Hn : (1 <= max_turns (init 3))%Z) by (cbn; lia).
  split; [exact Hn|].
  exact (proj2 (proj2
    (proj1 (proj2 (add_turn_appends_both "t0" "t1" "t2" "s" "" "Hello!" (init 3))) Hn))).
Defined.

(** While the window is not full nothing is dropped: the history grows by
    the two entries. *)
Lemma add_turn_grows_by_two (now0 now1 now2 sid u a : string) (ms : MemoryService) :
  (Z.of_nat (length (history (session_before now0 sid ms))) + 2 <= max_turns ms * 2)%Z ->
  history (snd (add_turn now0 now1 now2 sid u a ms))
  = (history (session_before now0 sid ms)
     ++ [mkTurn "user" u now1; mkTurn "assistant" a now2])%list.
Proof.
  intros Hlen. rewrite add_turn_session. cbn.
  apply last_entries_short; [|lia].
  rewrite length_app. cbn. lia.
Qed.

(** *** Names *)

Lemma lily_candidate :
  let user_lower := PyStr.lower "Hi, my name is Lily" in
  PyStr.contains "my name is" user_lower = true
  /\ find valid_name
       (name_candidate "my name is" user_lower ++ name_candidate "i'm" user_lower
        ++ name_candidate "i am" user_lower)%list = Some "lily".
Proof. split; vm_compute; reflexivity. Qed.

Lemma seven_candidate :
  let user_lower := PyStr.lower "i am 7" in
  (name_candidate "my name is" user_lower ++ name_candidate "i'm" user_lower
   ++ name_candidate "i am" user_lower)%list = ["7"]
  /\ PyStr.isalpha "7" = false.
Proof. split; vm_compute; reflexivity. Qed.

(** C9.  A turn whose user text is ["Hi, my name is Lily"] sets the name of
    the child to ["Lily"].  A turn whose user text is ["i am 7"] does not
    set a name: the only candidate is the token ["7"], which is not
    alphabetic, so the name stays what it was, and a session that starts
    with this turn has none. *)
Theorem name_extraction_examples
    (now0 now1 now2 sid assistant_response : string) (ms : MemoryService) (n : Z) :
  child_name (derived_state
    (snd (add_turn now0 now1 now2 sid "Hi, my name is Lily" assistant_response ms)))
  = Some "Lily"
  /\ child_name (derived_state
       (snd (add_turn now0 now1 now2 sid "i am 7" assistant_response ms)))
     = child_name (derived_state (session_before now0 sid ms))
  /\ child_name (derived_state
       (snd (add_turn now0 now1 now2 sid "i am 7" assistant_response (init n))))
     = None
  /\ name_candidate "i am" (PyStr.lower "i am 7") = ["7"]
  /\ PyStr.isalpha "7" = false.
Proof.
  rewrite !add_turn_session. cbn [derived_state child_name set_total_interactions].
  rewrite !update_child_name.
  repeat split; vm_compute; reflexivity.
Qed.

(** *** The window over a run of turns *)

Lemma session_before_history (now sid : string) (ms : MemoryService) :
  history (session_before now sid ms) = history_of ms sid.
Proof.
  unfold session_before, get_session, history_of.
  destruct (sessions ms !! sid); reflexivity.
Qed.

Lemma do_call_history (ms : MemoryService) (c : turn_call) (sid : string) :
  history_of (do_call ms c) sid
  = if String.eqb (call_sid c) sid
    then last_entries (max_turns ms * 2)
           (history_of ms sid ++ [mkTurn "user" (call_user c) (call_now1 c);
                                  mkTurn "assistant" (call_assistant c) (call_now2 c)])
    else history_of ms sid.
Proof.
  unfold do_call. destruct (String.eqb_spec (call_sid c) sid) as [<-|Hne].
  - unfold history_of at 1. rewrite add_turn_stored, add_turn_session. cbn.
    now rewrite session_before_history.
  - unfold history_of. rewrite add_turn_other by congruence. reflexivity.
Qed.

Lemma run_turns_max_turns (calls : list turn_call) (ms : MemoryService) :
  max_turns (run_turns calls ms) = max_turns ms.
Proof.
  revert ms. induction calls as [|c calls IH]; intros ms; [reflexivity|].
  cbn. rewrite IH. apply add_turn_max_turns.
Qed.

(** With room for at least one turn, the history of a session is the last
    [2 * max_turns] of all the entries that were appended for it. *)
Lemma window_is_recent_suffix (n : Z) (calls : list turn_call) (sid : string) :
  (1 <= n)%Z ->
  history_of (run_turns calls (init n)) sid = last_entries (n * 2) (entries_of sid calls).
Proof.
  intros Hn. induction calls as [|c calls IH] using rev_ind.
  - cbn. unfold history_of. cbn. rewrite lookup_empty.
    symmetry. apply last_entries_short; cbn; lia.
  - unfold run_turns. rewrite fold_left_app. cbn [fold_left].
    fold (run_turns calls (init n)).
    rewrite do_call_history, run_turns_max_turns. cbn [max_turns init].
    unfold entries_of. rewrite flat_map_app. cbn [flat_map]. rewrite app_nil_r.
    fold (entries_of sid calls). rewrite IH.
    destruct (String.eqb (call_sid c) sid).
    + apply last_entries_app; cbn; lia.
    + now rewrite app_nil_r.
Qed.

Lemma window_bounded (n : Z) (calls : list turn_call) (sid : string) :
  (1 <= n)%Z ->
  (Z.of_nat (length (history_of (run_turns calls (init n)) sid)) <= n * 2)%Z
  /\ history_of (run_turns calls (init n)) sid `suffix_of` entries_of sid calls.
Proof.
  intros Hn. rewrite window_is_recent_suffix by done. split.
  - apply length_last_entries. lia.
  - apply last_entries_suffix.
Qed.

(** Without room for a turn nothing is ever dropped. *)
Lemma window_zero_keeps_all (calls : list turn_call) (sid : string) :
  history_of (run_turns calls (init 0)) sid = entries_of sid calls.
Proof.
  induction calls as [|c calls IH] using rev_ind.
  - unfold history_of. cbn. now rewrite lookup_empty.
  - unfold run_turns. rewrite fold_left_app. cbn [fold_left].
    fold (run_turns calls (init 0)).
    rewrite do_call_history, run_turns_max_turns. cbn [max_turns init].
    unfold entries_of. rewrite flat_map_app. cbn [flat_map]. rewrite app_nil_r.
    fold (entries_of sid calls). rewrite IH.
    destruct (String.eqb (call_sid c) sid).
    + change (0 * 2)%Z with 0%Z. apply last_entries_zero.
    + now rewrite app_nil_r.
Qed.

(** C3 at [MemoryService(max_turns=0)]: after one turn the history of the
    session holds two entries, more than [2 * max_turns = 0]; the slice
    [history[-0:]] is the whole list. *)
Theorem window_zero_turns_exceeds_bound :
  let ms := run_turns [mkCall "t0" "t1" "t2" "s" "hi" "Hello!"] (init 0) in
  history_of ms "s" = [mkTurn "user" "hi" "t1"; mkTurn "assistant" "Hello!" "t2"]
  /\ (max_turns ms * 2 < Z.of_nat (length (history_of ms "s")))%Z.
Proof.
  cbv zeta. rewrite window_zero_keeps_all, run_turns_max_turns.
  split; [reflexivity | cbn; lia].
Qed.

(** *** More on the window *)

Lemma length_entries_of (sid : string) (calls : list turn_call) :
  length (entries_of sid calls) = (2 * calls_for sid calls)%nat.
Proof.
  unfold entries_of, calls_for. induction calls as [|c calls IH]; [reflexivity|].
  cbn [flat_map]. rewrite length_app, IH, filter_cons.
  destruct (String.eqb_spec (call_sid c) sid) as [Heq|Hne].
  - rewrite decide_True by exact Heq. cbn. lia.
  - rewrite decide_False by exact Hne. cbn. lia.
Qed.

(** X1.  With room for at least one turn, after any run of [add_turn]
    calls the history of a session is exactly the most recent
    [2 * max_turns] of the entries appended for it: it never holds more than
    [2 * max_turns] entries and the oldest ones are dropped first. *)
Theorem window_keeps_most_recent (n : Z) (calls : list turn_call) (sid : string) :
  (1 <= n)%Z ->
  let h := history_of (run_turns calls (init n)) sid in
  h = last_entries (n * 2) (entries_of sid calls)
  /\ Z.of_nat (length h) = Z.min (n * 2) (Z.of_nat (length (entries_of sid calls)))
  /\ h `suffix_of` entries_of sid calls.
Proof.
  intros Hn. cbv zeta. rewrite window_is_recent_suffix by exact Hn.
  split; [reflexivity|]. split; [|apply last_entries_suffix].
  rewrite last_entries_pos by lia. rewrite length_drop. lia.
Qed.

Lemma window_keeps_most_recent_witness :
  (1 <= 3)%Z
  /\ history_of (run_turns Fixtures.four_turns (init 3)) "s"
     = [ mkTurn "user" "two" "t4"; mkTurn "assistant" "Try again" "t5";
         mkTurn "user" "three" "t7"; mkTurn "assistant" "Almost" "t8";
         mkTurn "user" "four" "t10"; mkTurn "assistant" "Perfect" "t11" ].
Proof.
  assert (Hn : (1 <= 3)%Z) by lia.
  split; [exact Hn|].
  exact (proj1 (window_keeps_most_recent 3 Fixtures.four_turns "s" Hn)).
Defined.

(** *** Whole turns *)

Lemma list_pair_ind {A} (P : list A -> Prop) :
  P [] -> (forall x, P [x]) -> (forall x y l, P l -> P (x :: y :: l)) -> forall l, P l.
Proof.
  intros H0 H1 H2 l.
  assert (Hboth : P l /\ forall x, P (x :: l)).
  { induction l as [|y l [IH1 IH2]]; [auto|]. split; [apply IH2 | intros x; now apply H2]. }
  apply Hboth.
Qed.

Lemma whole_turns_app (h k : list ConversationTurn) :
  whole_turns h -> whole_turns k -> whole_turns (h ++ k).
Proof.
  induction h as [|x|x y h IH] using list_pair_ind; cbn; intros Hh Hk.
  - exact Hk.
  - contradiction.
  - destruct Hh as (H1 & H2 & H3). auto.
Qed.

Lemma whole_turns_even (h : list ConversationTurn) :
  whole_turns h -> exists m, length h = (2 * m)%nat.
Proof.
  induction h as [|x|x y h IH] using list_pair_ind; cbn; intros Hh.
  - now exists 0%nat.
  - contradiction.
  - destruct Hh as (_ & _ & H3). destruct (IH H3) as [m Hm]. exists (S m). lia.
Qed.

Lemma whole_turns_drop (k : nat) (h : list ConversationTurn) :
  whole_turns h -> whole_turns (drop (2 * k) h).
Proof.
  revert h. induction k as [|k IH]; intros h Hh; [now rewrite drop_0|].
  replace (2 * S k)%nat with (S (S (2 * k))) by lia.
  destruct h as [|x [|y h]]; cbn in *; try exact I; try contradiction.
  apply IH. apply Hh.
Qed.

Lemma whole_turns_last_entries (n : Z) (h : list ConversationTurn) :
  whole_turns h -> whole_turns (last_entries (n * 2) h).
Proof.
  intros Hh. destruct (whole_turns_even h Hh) as [m Hm].
  unfold last_entries, slice_from. rewrite Hm.
  match goal with |- whole_turns (drop ?d h) =>
    assert (Hd : exists k, d = (2 * k)%nat)
  end.
  { destruct (Z.ltb_spec (- (n * 2)) 0).
    - exists (Z.to_nat (Z.max 0 (Z.of_nat m - n))). lia.
    - exists (Z.to_nat (Z.min (- n) (Z.of_nat m))). lia. }
  destruct Hd as [k ->]. now apply whole_turns_drop.
Qed.

(** X2.  Whatever [max_turns] is, after any run of [add_turn] calls the
    history of every session consists of whole turns, a user entry followed
    by an assistant entry; in particular its length is even. *)
Theorem history_has_whole_turns (n : Z) (calls : list turn_call) (sid : string) :
  whole_turns (history_of (run_turns calls (init n)) sid)
  /\ Nat.Even (length (history_of (run_turns calls (init n)) sid)).
Proof.
  assert (Hw : whole_turns (history_of (run_turns calls (init n)) sid)).
  { induction calls as [|c calls IH] using rev_ind.
    - unfold history_of. cbn. now rewrite lookup_empty.
    - unfold run_turns. rewrite fold_left_app. cbn [fold_left].
      fold (run_turns calls (init n)).
      rewrite do_call_history, run_turns_max_turns. cbn [max_turns init].
      destruct (String.eqb (call_sid c) sid); [|exact IH].
      apply whole_turns_last_entries, whole_turns_app; [exact IH|].
      cbn. auto. }
  split; [exact Hw|]. destruct (whole_turns_even _ Hw) as [m Hm]. now exists m.
Qed.

(** *** Counting interactions *)

Lemma session_before_interactions (now sid : string) (ms : MemoryService) :
  total_interactions (derived_state (session_before now sid ms)) = interactions_of ms sid.
Proof.
  unfold session_before, get_session, interactions_of.
  destruct (sessions ms !! sid); reflexivity.
Qed.

Lemma do_call_interactions (ms : MemoryService) (c : turn_call) (sid : string) :
  interactions_of (do_call ms c) sid
  = if String.eqb (call_sid c) sid
    then (interactions_of ms sid + 1)%Z else interactions_of ms sid.
Proof.
  unfold do_call. destruct (String.eqb_spec (call_sid c) sid) as [<-|Hne].
  - unfold interactions_of at 1. rewrite add_turn_stored, add_turn_session. cbn.
    now rewrite update_total_interactions, session_before_interactions.
  - unfold interactions_of. rewrite add_turn_other by congruence. reflexivity.
Qed.

Lemma run_turns_interactions (n : Z) (calls : list turn_call) (sid : string) :
  interactions_of (run_turns calls (init n)) sid = Z.of_nat (calls_for sid calls).
Proof.
  induction calls as [|c calls IH] using rev_ind.
  - unfold interactions_of. cbn. now rewrite lookup_empty.
  - unfold run_turns. rewrite fold_left_app. cbn [fold_left].
    fold (run_turns calls (init n)).
    rewrite do_call_interactions, IH. unfold calls_for.
    rewrite filter_app, length_app, filter_cons, filter_nil.
    destruct (String.eqb_spec (call_sid c) sid) as [Heq|Hne].
    + rewrite decide_True by exact Heq. cbn. lia.
    + rewrite decide_False by exact Hne. cbn. lia.
Qed.

(** X3.  Whatever [max_turns] is, after any run of [add_turn] calls the
    [total_interactions] of a session is the number of calls made for that
    session: trimming the window does not touch the counter, and calls for
    other sessions do not count. *)
Theorem total_interactions_counts_calls (n : Z) (calls : list turn_call) (now sid : string) :
  total_interactions (snd (get_derived_state now sid (run_turns calls (init n))))
  = Z.of_nat (calls_for sid calls).
Proof.
  rewrite <- run_turns_interactions with (n := n).
  unfold get_derived_state, get_session, interactions_of.
  destruct (sessions (run_turns calls (init n)) !! sid); reflexivity.
Qed.

(** X4.  With room for at least one turn, the statistics of a session
    after any run of [add_turn] calls report the number of calls as
    [total_interactions] and the smaller of that number and [max_turns] as
    [conversation_turns]. *)
Theorem stats_after_turns `{SessionClock} (n : Z) (calls : list turn_call) (now sid : string) :
  (1 <= n)%Z ->
  let stats := snd (get_session_stats now sid (run_turns calls (init n))) in
  stats_total_interactions stats = Z.of_nat (calls_for sid calls)
  /\ stats_conversation_turns stats = Z.min (Z.of_nat (calls_for sid calls)) n
  /\ stats_session_id stats = sid.
Proof.
  intros Hn. cbv zeta.
  pose proof (run_turns_interactions n calls sid) as Hi.
  pose proof (window_is_recent_suffix n calls sid Hn) as Hh.
  unfold get_session_stats, get_session.
  unfold interactions_of in Hi. unfold history_of in Hh.
  destruct (sessions (run_turns calls (init n)) !! sid) as [s|]; cbn in *.
  - split; [exact Hi|]. split; [|reflexivity].
    rewrite Hh, last_entries_pos, length_drop, length_entries_of by lia.
    symmetry. apply Z.div_unique with (r := 0%Z); lia.
  - split; [exact Hi|]. split; [|reflexivity].
    rewrite <- Hi. change (Z.of_nat 0 `div` 2)%Z with 0%Z. lia.
Qed.

Lemma stats_after_turns_witness :
  (1 <= 3)%Z
  /\ stats_total_interactions
       (snd (@get_session_stats Fixtures.frozen_clock "t12" "s"
               (run_turns Fixtures.four_turns (init 3)))) = 4%Z
  /\ stats_conversation_turns
       (snd (@get_session_stats Fixtures.frozen_clock "t12" "s"
               (run_turns Fixtures.four_turns (init 3)))) = 3%Z.
Proof.
  assert (Hn : (1 <= 3)%Z) by lia.
  split; [exact Hn|].
  pose proof (@stats_after_turns Fixtures.frozen_clock 3 Fixtures.four_turns "t12" "s" Hn)
    as (H1 & H2 & _).
  split; [exact H1 | exact H2].
Defined.

(** *** Sessions: creation, reads, overwrites, removal *)

(** X5.  The first read of a session that does not exist creates it with
    letter ['A'], no name, no interactions and the time of the read as
    start; the other sessions are untouched, and every later read returns
    the same state without changing the service. *)
Theorem first_read_creates (now sid : string) (ms : MemoryService) :
  sessions ms !! sid = None ->
  let ms' := fst (get_derived_state now sid ms) in
  snd (get_derived_state now sid ms) = mkState "A" None "easy" None now 0
  /\ sessions ms' !! sid = Some (new_session now)
  /\ delete sid (sessions ms') = sessions ms
  /\ forall later, get_derived_state later sid ms'
                   = (ms', mkState "A" None "easy" None now 0).
Proof.
  intros Hs. unfold get_derived_state, get_session. rewrite Hs. cbn.
  rewrite lookup_insert_eq, delete_insert_eq, (delete_id _ _ Hs).
  do 3 (split; [reflexivity|]). intros later. reflexivity.
Qed.

Lemma first_read_creates_witness :
  sessions (init 3) !! "s" = None
  /\ snd (get_derived_state "t0" "s" (init 3)) = mkState "A" None "easy" None "t0" 0.
Proof.
  assert (Hs : sessions (init 3) !! "s" = None) by reflexivity.
  split; [exact Hs|].
  exact (proj1 (first_read_creates "t0" "s" (init 3) Hs)).
Defined.

(** X6.  [get_conversation_history] with a limit of at least 1 returns the
    most recent entries of the window, as many as the limit or all of them
    if there are fewer; a limit of 0 is treated like no limit and returns
    the whole window.  The call changes the service only as the read of
    the session does. *)
Theorem history_limit (now sid : string) (n : Z) (ms : MemoryService) :
  (1 <= n)%Z ->
  let h := history (session_before now sid ms) in
  let r := snd (get_conversation_history now sid (Some n) ms) in
  r `suffix_of` h
  /\ Z.of_nat (length r) = Z.min n (Z.of_nat (length h))
  /\ snd (get_conversation_history now sid (Some 0%Z) ms) = h
  /\ snd (get_conversation_history now sid None ms) = h
  /\ fst (get_conversation_history now sid (Some n) ms) = fst (get_session now sid ms).
Proof.
  intros Hn. unfold get_conversation_history, session_before.
  destruct (get_session now sid ms) as [ms1 s]. cbn.
  destruct (Z.eqb_spec n 0) as [?|_]; [lia|]. cbn.
  repeat split.
  - apply last_entries_suffix.
  - rewrite last_entries_pos, length_drop by lia. lia.
Qed.

Lemma history_limit_witness :
  (1 <= 2)%Z
  /\ snd (get_conversation_history "t12" "s" (Some 2%Z)
            (run_turns Fixtures.four_turns (init 3)))
     `suffix_of` history (session_before "t12" "s" (run_turns Fixtures.four_turns (init 3))).
Proof.
  assert (Hn : (1 <= 2)%Z) by lia.
  split; [exact Hn|].
  exact (proj1 (history_limit "t12" "s" 2 (run_turns Fixtures.four_turns (init 3)) Hn)).
Defined.

(** X7.  [progress_letter] always returns [True] and sets the current
    letter of the session to [to_letter], whatever [from_letter] is and
    whatever the stored letter was; the history, the rest of the derived
    state and the other sessions stay as they were. *)
Theorem progress_letter_overwrites
    (now sid from_letter to_letter : string) (ms : MemoryService) :
  let before := session_before now sid ms in
  let ms' := fst (progress_letter now sid from_letter to_letter ms) in
  snd (progress_letter now sid from_letter to_letter ms) = true
  /\ sessions ms' !! sid
     = Some (mkSession (history before)
               (mkState to_letter (child_name (derived_state before))
                  (difficulty (derived_state before)) (last_mistake (derived_state before))
                  (session_start (derived_state before))
                  (total_interactions (derived_state before))))
  /\ delete sid (sessions ms') = delete sid (sessions ms)
  /\ max_turns ms' = max_turns ms
  /\ forall other, progress_letter now sid other to_letter ms
                   = progress_letter now sid from_letter to_letter ms.
Proof.
  unfold progress_letter, session_before, get_session.
  destruct (sessions ms !! sid) as [s|] eqn:Hs; cbn.
  - rewrite lookup_insert_eq, delete_insert_eq. auto.
  - rewrite lookup_insert_eq, !delete_insert_eq. auto.
Qed.

(** X8.  [clear_session] returns [True] exactly when the session exists.
    Afterwards the session is gone and the others are as before, so the
    next read starts over at ['A'] with no interactions and an empty
    history, and the next turn is counted as the first. *)
Theorem clear_session_forgets (now now1 now2 sid u a : string) (ms : MemoryService) :
  let ms' := fst (clear_session sid ms) in
  snd (clear_session sid ms) = bool_decide (is_Some (sessions ms !! sid))
  /\ sessions ms' = delete sid (sessions ms)
  /\ max_turns ms' = max_turns ms
  /\ snd (get_derived_state now sid ms') = mkState "A" None "easy" None now 0
  /\ snd (get_conversation_history now sid None ms') = []
  /\ total_interactions (derived_state (snd (add_turn now now1 now2 sid u a ms'))) = 1%Z.
Proof.
  cbv zeta.
  assert (Hgone : sessions (fst (clear_session sid ms)) !! sid = None).
  { unfold clear_session. destruct (sessions ms !! sid) eqn:Hs; cbn;
      [apply lookup_delete_eq | exact Hs]. }
  split; [|split; [|split; [|split; [|split]]]].
  - unfold clear_session. destruct (sessions ms !! sid) eqn:Hs; reflexivity.
  - unfold clear_session. destruct (sessions ms !! sid) eqn:Hs; cbn; [reflexivity|].
    symmetry. now apply delete_id.
  - unfold clear_session. destruct (sessions ms !! sid); reflexivity.
  - unfold get_derived_state, get_session. now rewrite Hgone.
  - unfold get_conversation_history, get_session. now rewrite Hgone.
  - rewrite add_turn_session. cbn. rewrite update_total_interactions.
    unfold session_before, get_session. now rewrite Hgone.
Qed.

(** *** The stored name *)

Lemma valid_name_proper (candidate : string) :
  valid_name candidate = true -> proper_name (PyStr.capitalize candidate).
Proof.
  unfold valid_name, proper_name. intros Hv.
  apply andb_true_iff in Hv as [Hv Hlen]. apply andb_true_iff in Hv as [_ Ha].
  apply Z.ltb_lt in Hlen.
  rewrite PyStrFacts.isalpha_capitalize, PyStrFacts.length_capitalize,
          PyStrFacts.capitalize_idem by exact Ha.
  repeat split. lia.
Qed.

Lemma update_child_name_cases (st : DerivedState) (u a : string) :
  child_name (_update_derived_state st u a) = child_name st
  \/ exists name, child_name (_update_derived_state st u a) = Some name /\ proper_name name.
Proof.
  rewrite update_child_name. cbv zeta.
  destruct (_ || _); [|now left].
  destruct (find valid_name _) as [candidate|] eqn:Hf; [|now left].
  right. exists (PyStr.capitalize candidate). split; [reflexivity|].
  apply valid_name_proper. now apply find_some in Hf as [_ Hv].
Qed.

Lemma do_call_name (ms : MemoryService) (c : turn_call) (sid : string) :
  name_of (do_call ms c) sid = name_of ms sid
  \/ exists name, name_of (do_call ms c) sid = Some name /\ proper_name name.
Proof.
  unfold do_call. destruct (String.eqb_spec (call_sid c) sid) as [<-|Hne].
  - unfold name_of at 1 3. rewrite add_turn_stored, add_turn_session. cbn.
    destruct (update_child_name_cases
                (derived_state (session_before (call_now0 c) (call_sid c) ms))
                (call_user c) (call_assistant c)) as [Heq|Hnew].
    + left. rewrite Heq. unfold name_of, session_before, get_session.
      destruct (sessions ms !! call_sid c); reflexivity.
    + now right.
  - left. unfold name_of. now rewrite add_turn_other by congruence.
Qed.

(** X9.  Whatever is said in a run of turns, the name stored for a session
    is either absent or consists of letters only, at least two of them, the
    first in upper case and the rest in lower case. *)
Theorem child_name_is_proper (n : Z) (calls : list turn_call) (now sid : string) :
  match child_name (snd (get_derived_state now sid (run_turns calls (init n)))) with
  | Some name => proper_name name
  | None => True
  end.
Proof.
  assert (Hn : match name_of (run_turns calls (init n)) sid with
               | Some name => proper_name name
               | None => True
               end).
  { induction calls as [|c calls IH] using rev_ind.
    - unfold name_of. cbn. now rewrite lookup_empty.
    - unfold run_turns. rewrite fold_left_app. cbn [fold_left].
      fold (run_turns calls (init n)).
      destruct (do_call_name (run_turns calls (init n)) c sid) as [-> | (name & -> & Hp)];
        [exact IH | exact Hp]. }
  unfold get_derived_state, get_session, name_of in *.
  destruct (sessions (run_turns calls (init n)) !! sid); [exact Hn | exact I].
Qed.

End MemoryFacts.

(** ** The safety filter *)

Module SafetyFacts.

Import Safety Fixtures.

Section Libraries.
Context `{ProfanityFilter} `{Regex}.

Lemma moderate_safe_iff (x : string) :
  is_safe (moderate_content x) = true <-> violations (moderate_content x) = [].
Proof.
  unfold moderate_content, is_safe, violations.
  destruct (contains_profanity x), (_detect_pii x), (_detect_unsafe_topics x); cbn;
    rewrite ?length_app; cbn; split; intros Hs; try reflexivity; try discriminate;
    try (apply Z.eqb_eq in Hs; lia);
    try (apply (f_equal (@length string)) in Hs; rewrite ?length_app in Hs; cbn in Hs; lia).
Qed.

(** A safe text comes back as it was given. *)
Lemma moderate_safe_unchanged (x : string) :
  is_safe (moderate_content x) = true -> cleaned_text (moderate_content x) = x.
Proof.
  unfold moderate_content, is_safe, cleaned_text.
  destruct (contains_profanity x), (_detect_pii x), (_detect_unsafe_topics x); cbn;
    rewrite ?length_app; cbn; intros Hs; try reflexivity;
    apply Z.eqb_eq in Hs; lia.
Qed.

(** C5.  For every text [x], [moderate(x).is_safe] is true exactly when the
    returned list of violations is empty; and when [x] is safe, moderating
    the returned cleaned text again is safe too. *)
Theorem moderate_safe_iff_and_idempotent (x : string) :
  (is_safe (moderate_content x) = true <-> violations (moderate_content x) = [])
  /\ (is_safe (moderate_content x) = true ->
      is_safe (moderate_content (cleaned_text (moderate_content x))) = true).
Proof.
  split; [apply moderate_safe_iff|].
  intros Hs. now rewrite (moderate_safe_unchanged x Hs).
Qed.

End Libraries.

Lemma moderate_safe_iff_and_idempotent_witness :
  let x := "can we practice the letter a" in
  is_safe (@moderate_content one_word_filter no_pii_regex x) = true
  /\ is_safe (@moderate_content one_word_filter no_pii_regex
                (cleaned_text (@moderate_content one_word_filter no_pii_regex x))) = true.
Proof.
  cbv zeta.
  assert (Hs : is_safe (@moderate_content one_word_filter no_pii_regex
                          "can we practice the letter a") = true) by (vm_compute; reflexivity).
  split; [exact Hs|].
  exact (proj2 (@moderate_safe_iff_and_idempotent one_word_filter no_pii_regex
                  "can we practice the letter a") Hs).
Defined.

End SafetyFacts.

(** ** The pronunciation scorer *)

Module PhonemeFacts.

Import Phoneme.

Lemma mem_spec (x : string) (l : list string) : mem x l = true <-> x ∈ l.
Proof.
  unfold mem, PyStr.mem. rewrite existsb_exists. split.
  - intros (y & Hin & Heq). apply String.eqb_eq in Heq as ->. now apply list_elem_of_In.
  - intros Hin. exists x. split; [now apply list_elem_of_In | apply String.eqb_refl].
Qed.

Lemma count_common_size (d e : list string) :
  count_common d e
  = Z.of_nat (size ((list_to_set d : gset string) ∩ list_to_set e)).
Proof.
  unfold count_common. f_equal.
  rewrite <- (size_list_to_set (C := gset string)) by apply NoDup_remove_dups.
  f_equal. apply set_eq. intros x.
  rewrite elem_of_list_to_set, elem_of_remove_dups, list_elem_of_filter, mem_spec.
  rewrite elem_of_intersection, !elem_of_list_to_set. tauto.
Qed.

Lemma set_eqb_spec (a b : list string) :
  set_eqb a b = true <-> (list_to_set a : gset string) = list_to_set b.
Proof.
  unfold set_eqb. rewrite andb_true_iff, !forallb_forall. split.
  - intros [Hab Hba]. apply set_eq. intros x. rewrite !elem_of_list_to_set. split; intros Hx.
    + apply mem_spec, Hab. now apply list_elem_of_In.
    + apply mem_spec, Hba. now apply list_elem_of_In.
  - intros Heq. split; intros x Hx; apply mem_spec; apply list_elem_of_In in Hx.
    + apply (elem_of_list_to_set (C := gset string)). rewrite <- Heq.
      now apply elem_of_list_to_set.
    + apply (elem_of_list_to_set (C := gset string)). rewrite Heq.
      now apply elem_of_list_to_set.
Qed.

Lemma list_to_set_nonempty (x : string) (l : list string) :
  (list_to_set (x :: l) : gset string) <> ∅.
Proof. cbn. set_solver. Qed.

(** Rounding to two decimals keeps the scores that one or two expected
    phonemes can produce. *)
Lemma score_values (m n : nat) (bonus : bool) :
  (1 <= n <= 2)%nat -> (m <= n)%nat -> (bonus = true -> m = n) ->
  let base := (inject_Z (Z.of_nat m) / inject_Z (Z.of_nat n))%Q in
  let acc := if bonus then Qmin 1 (base + (2 # 10))%Q else base in
  (round2 acc == acc)%Q /\ (0 <= round2 acc <= 1)%Q.
Proof.
  intros Hn Hm Hb.
  assert (Hcases : (n = 1 \/ n = 2)%nat) by lia.
  destruct Hcases as [-> | ->]; destruct bonus;
    try (specialize (Hb eq_refl); subst m);
    try (assert (Hm' : (m = 0 \/ m = 1 \/ m = 2)%nat) by lia;
         destruct Hm' as [-> | [-> | ->]]; try lia);
    cbv zeta; (split; [vm_compute; reflexivity | split; vm_compute; discriminate]).
Qed.

(** No letter has an expected phoneme twice, and none has more than two. *)
Lemma letter_phonemes_shape :
  Forall (fun kv => NoDup (snd kv) /\ (1 <= length (snd kv) <= 2)%nat) letter_phonemes.
Proof.
  unfold letter_phonemes.
  repeat (constructor;
          [split; [apply (bool_decide_unpack _); vm_compute; exact I | cbn; lia]|]).
  constructor.
Qed.

Lemma table_get_In {V} (k : string) (d : list (string * V)) (v : V) :
  table_get k d = Some v -> In (k, v) d.
Proof.
  induction d as [|[k' v'] d IH]; cbn; [discriminate|].
  destruct (String.eqb_spec k k') as [->|Hne].
  - intros [= ->]. now left.
  - intros Hg. right. now apply IH.
Qed.

Lemma calculate_accuracy_spec (detected expected : list string) :
  NoDup expected -> (length expected <= 2)%nat ->
  (_calculate_accuracy detected expected == accuracy_spec detected expected)%Q
  /\ (0 <= _calculate_accuracy detected expected <= 1)%Q.
Proof.
  intros Hnd Hlen. unfold _calculate_accuracy, accuracy_spec. cbv zeta.
  destruct expected as [|e0 erest].
  { rewrite decide_True by (left; reflexivity).
    split; [reflexivity | split; vm_compute; discriminate]. }
  destruct detected as [|d0 drest].
  { rewrite decide_True by (right; reflexivity).
    split; [reflexivity | split; vm_compute; discriminate]. }
  rewrite decide_False
    by (intros [He|Hd]; [eapply list_to_set_nonempty, He | eapply list_to_set_nonempty, Hd]).
  set (d := d0 :: drest) in *. set (e := e0 :: erest) in *.
  rewrite count_common_size.
  rewrite <- (size_list_to_set (C := gset string) e) by exact Hnd.
  assert (Hle : (size ((list_to_set d : gset string) ∩ list_to_set e)
                 <= size (list_to_set e : gset string))%nat).
  { apply subseteq_size. intros x Hx. now apply elem_of_intersection in Hx as [_ Hx]. }
  assert (Hsz : (1 <= size (list_to_set e : gset string) <= 2)%nat).
  { rewrite size_list_to_set by exact Hnd. subst e. cbn in *. lia. }
  destruct (set_eqb d e) eqn:Hb.
  - apply set_eqb_spec in Hb. rewrite decide_True by exact Hb.
    assert (Hm : size ((list_to_set d : gset string) ∩ list_to_set e)
                 = size (list_to_set e : gset string)).
    { rewrite Hb. f_equal. apply set_eq. intros x. rewrite elem_of_intersection. tauto. }
    pose proof (score_values _ _ true Hsz Hle (fun _ => Hm)) as [H1 H2].
    split; [exact H1 | exact H2].
  - rewrite decide_False.
    + pose proof (score_values _ _ false Hsz Hle (fun Hf => False_ind _ (Bool.diff_false_true Hf)))
        as [H1 H2].
      split; [exact H1 | exact H2].
    + intros Heq. apply set_eqb_spec in Heq. congruence.
Qed.

(** C6.  For every transcript and every target letter, the accuracy that
    the scorer reports is the share of the expected phonemes that were
    detected, with the bonus of 0.2 capped at 1 when the detected and the
    expected set are equal, and 0 when the expected set is empty (a target
    that is not a letter A-Z) or the detected set is empty; it lies between
    0 and 1. *)
Theorem analyze_accuracy_formula (transcript target_letter : string) (phonics_mode : bool) :
  let r := analyze_pronunciation transcript target_letter phonics_mode in
  (accuracy_score r == accuracy_spec (detected_phonemes r) (expected_phonemes r))%Q
  /\ (0 <= accuracy_score r <= 1)%Q.
Proof.
  cbv zeta. unfold analyze_pronunciation.
  destruct (table_get (PyStr.upper target_letter) letter_phonemes) as [expected|] eqn:Ht.
  - destruct (_detect_phonemes _ _) as [detected|err].
    + cbn [accuracy_score detected_phonemes expected_phonemes].
      apply table_get_In in Ht.
      pose proof (proj1 (Forall_forall _ _) letter_phonemes_shape _
                    (proj2 (list_elem_of_In _ _) Ht)) as [Hnd Hlen].
      apply calculate_accuracy_spec; [exact Hnd | cbn in Hlen; lia].
    + split; [reflexivity | split; vm_compute; discriminate].
  - split; [reflexivity | split; vm_compute; discriminate].
Qed.

End PhonemeFacts.

(** ** The orchestrator *)

Module AgentFacts.

Import Curriculum Memory Agent Fixtures.

(** *** Reads and writes of the current letter *)

Lemma get_session_spec (now sid0 : string) (ms : MemoryService) :
  let ms1 := fst (get_session now sid0 ms) in
  let s := snd (get_session now sid0 ms) in
  sessions ms1 !! sid0 = Some s
  /\ current_letter (derived_state s) = letter_at ms sid0
  /\ (forall sid, letter_at ms1 sid = letter_at ms sid)
  /\ (is_Some (sessions ms !! sid0) -> ms1 = ms).
Proof.
  unfold get_session, letter_at.
  destruct (sessions ms !! sid0) as [s|] eqn:Hs; cbn.
  - rewrite Hs. auto.
  - rewrite lookup_insert_eq. repeat split; [| intros [x Hx]; discriminate].
    intros sid. destruct (decide (sid = sid0)) as [->|Hne].
    + now rewrite lookup_insert_eq, Hs.
    + now rewrite lookup_insert_ne by congruence.
Qed.

Lemma get_derived_state_letter (now sid0 : string) (ms : MemoryService) :
  current_letter (snd (get_derived_state now sid0 ms)) = letter_at ms sid0
  /\ (forall sid, letter_at (fst (get_derived_state now sid0 ms)) sid = letter_at ms sid)
  /\ (is_Some (sessions ms !! sid0) -> fst (get_derived_state now sid0 ms) = ms).
Proof.
  unfold get_derived_state.
  pose proof (get_session_spec now sid0 ms) as (_ & H2 & H3 & H4).
  destruct (get_session now sid0 ms) as [ms1 s]. cbn in *. auto.
Qed.

Lemma get_conversation_history_letter (now sid0 : string) (limit : option Z)
    (ms : MemoryService) (sid : string) :
  letter_at (fst (get_conversation_history now sid0 limit ms)) sid = letter_at ms sid.
Proof.
  unfold get_conversation_history.
  pose proof (get_session_spec now sid0 ms) as (_ & _ & H3 & _).
  destruct (get_session now sid0 ms) as [ms1 s]. cbn in *.
  destruct limit as [n|]; [destruct (n =? 0)%Z|]; cbn; apply H3.
Qed.

Lemma progress_letter_letter (now sid0 from_letter to_letter : string)
    (ms : MemoryService) (sid : string) :
  letter_at (fst (progress_letter now sid0 from_letter to_letter ms)) sid
  = if decide (sid = sid0) then to_letter else letter_at ms sid.
Proof.
  unfold progress_letter.
  pose proof (get_session_spec now sid0 ms) as (_ & _ & H3 & _).
  destruct (get_session now sid0 ms) as [ms1 s]. cbn in *.
  unfold letter_at at 1. cbn.
  destruct (decide (sid = sid0)) as [->|Hne].
  - now rewrite lookup_insert_eq.
  - rewrite lookup_insert_ne by congruence. apply H3.
Qed.

Lemma add_turn_letter (now0 now1 now2 sid0 u a : string) (ms : MemoryService) (sid : string) :
  letter_at (fst (add_turn now0 now1 now2 sid0 u a ms)) sid = letter_at ms sid.
Proof.
  destruct (decide (sid = sid0)) as [->|Hne].
  - unfold letter_at at 1.
    rewrite MemoryFacts.add_turn_stored, MemoryFacts.add_turn_session. cbn.
    rewrite MemoryFacts.update_current_letter.
    unfold session_before.
    now pose proof (get_session_spec now0 sid0 ms) as (_ & H2 & _).
  - unfold letter_at. now rewrite MemoryFacts.add_turn_other.
Qed.

(** *** Successors *)

Lemma get_next_letter_of_letter (a : string) (next : option string) :
  is_letter a -> get_next_letter a = Ok next ->
  match next with
  | Some b => successor_of a b /\ PyStr.nonempty b = true
  | None => a = "Z"
  end.
Proof.
  intros (c & -> & Hc) Hn.
  destruct (Z.eq_dec (PyStr.ord c) 90%Z) as [Hz|Hz].
  - assert (c = "Z"%char) as ->.
    { rewrite <- (PyStrFacts.chr_ord c), Hz. reflexivity. }
    cbn in Hn. injection Hn as <-. reflexivity.
  - rewrite CurriculumFacts.get_next_letter_A_to_Y in Hn by lia.
    injection Hn as <-. split; [|reflexivity].
    exists c. repeat split; lia.
Qed.

Lemma successor_is_letter (a b : string) : successor_of a b -> is_letter a /\ is_letter b.
Proof.
  intros (c & -> & Hc & ->). split.
  - exists c. split; [reflexivity | lia].
  - eexists. split; [reflexivity|]. rewrite PyStrFacts.ord_chr by lia. lia.
Qed.

Lemma successor_position (a b : string) :
  successor_of a b -> alphabet_position b = (alphabet_position a + 1)%Z.
Proof.
  intros (c & -> & Hc & ->). unfold alphabet_position.
  rewrite PyStrFacts.ord_chr by lia. lia.
Qed.

Lemma letter_position (a : string) : is_letter a -> (0 <= alphabet_position a <= 25)%Z.
Proof.
  intros (c & -> & Hc). unfold alphabet_position. change (PyStr.ord "A") with 65%Z. lia.
Qed.

(** *** What a call does to the memory *)

Section Calls.
Context `{Formatter}.

Lemma bind_with_memory {A B} (f : MemoryService -> MemoryService * A) (k : A -> M B)
    (w : World) :
  (with_memory f ≫= k) w
  = k (snd (f (memory w))) (mkWorld (curriculum w) (fst (f (memory w)))).
Proof.
  unfold mbind, M_bind, with_memory. now destruct (f (memory w)).
Qed.

Lemma bind_read_curriculum {A B} (f : CurriculumService -> result A) (k : A -> M B)
    (w : World) :
  (read_curriculum f ≫= k) w
  = match f (curriculum w) with Ok a => k a w | Raise e => (w, Raise e) end.
Proof. reflexivity. Qed.

Lemma bind_lift {A B} (r : result A) (k : A -> M B) (w : World) :
  (lift r ≫= k) w = match r with Ok a => k a w | Raise e => (w, Raise e) end.
Proof. reflexivity. Qed.

Lemma pure_ret {A} (a : A) : pure_call (mret a).
Proof. now intros w. Qed.

Lemma pure_lift {A} (r : result A) : pure_call (lift r).
Proof. now intros w. Qed.

Lemma pure_read {A} (f : CurriculumService -> result A) : pure_call (read_curriculum f).
Proof. now intros w. Qed.

Lemma pure_bind {A B} (m : M A) (k : A -> M B) :
  pure_call m -> (forall a, pure_call (k a)) -> pure_call (m ≫= k).
Proof.
  intros Hm Hk w. unfold mbind, M_bind. specialize (Hm w).
  destruct (m w) as [w' [a|e]]; cbn in Hm; subst w'; [apply Hk | reflexivity].
Qed.

Ltac pure_calls :=
  repeat first
    [ apply pure_ret | apply pure_lift | apply pure_read
    | apply pure_bind; [|intros ?]
    | match goal with
      | |- pure_call (if ?b then _ else _) => destruct b
      | |- pure_call (match ?o with Some _ => _ | None => _ end) => destruct o
      | |- pure_call (let '(_, _) := ?p in _) => destruct p
      end ].

Lemma generate_response_effect (now sid0 user_input : string) (w : World) :
  fst (generate_response now sid0 user_input w) = after_read now sid0 w
  \/ exists l,
       get_next_letter (letter_of w sid0) = Ok (Some l)
       /\ fst (generate_response now sid0 user_input w) = after_progress now sid0 l w.
Proof.
  unfold generate_response, after_progress, after_read, letter_of.
  pose proof (get_derived_state_letter now sid0 (memory w)) as (Hcur & _).
  rewrite bind_with_memory. rewrite Hcur.
  set (cur := letter_at (memory w) sid0).
  set (m1 := fst (get_derived_state now sid0 (memory w))).
  rewrite bind_read_curriculum. cbn [curriculum memory].
  destruct (check_pronunciation (curriculum w) user_input cur) as [[ok fb]|e];
    [|left; reflexivity].
  destruct ok; [|left; reflexivity].
  rewrite bind_lift.
  destruct (get_next_letter cur) as [next|e] eqn:Hn; [|left; reflexivity].
  unfold truthy_letter.
  destruct next as [l|]; [|left; reflexivity].
  destruct (PyStr.nonempty l); [|left; reflexivity].
  right. exists l. split; [reflexivity|].
  rewrite bind_with_memory. cbn [curriculum memory].
  match goal with |- fst (?m ?w') = _ => refine ((_ : pure_call m) w') end.
  pure_calls.
Qed.

Lemma handle_special_commands_effect (now sid0 user_input : string) (w : World) :
  fst (handle_special_commands now sid0 user_input w) = w
  \/ fst (handle_special_commands now sid0 user_input w) = after_read now sid0 w
  \/ fst (handle_special_commands now sid0 user_input w)
     = mkWorld (curriculum w)
         (fst (get_conversation_history now sid0 (Some 2%Z) (memory w)))
  \/ exists l,
       get_next_letter (letter_of w sid0) = Ok (Some l)
       /\ fst (handle_special_commands now sid0 user_input w) = after_progress now sid0 l w.
Proof.
  unfold handle_special_commands, after_progress, after_read, letter_of.
  pose proof (get_derived_state_letter now sid0 (memory w)) as (Hcur & _).
  destruct (PyStr.mem _ ["help"; "what do i do"; "i don't know"]).
  { right. left. rewrite bind_with_memory.
    match goal with |- fst (?m ?w') = _ => refine ((_ : pure_call m) w') end.
    pure_calls. }
  destruct (PyStr.mem _ ["repeat"; "say that again"; "what"]).
  { right. right. left. rewrite bind_with_memory.
    match goal with |- fst (?m ?w') = _ => refine ((_ : pure_call m) w') end.
    pure_calls. }
  destruct (PyStr.contains "next letter" _ || PyStr.contains "skip" _); [|left; reflexivity].
  rewrite bind_with_memory. rewrite Hcur.
  set (cur := letter_at (memory w) sid0).
  rewrite bind_lift.
  destruct (get_next_letter cur) as [next|e] eqn:Hn; [|right; left; reflexivity].
  unfold truthy_letter.
  destruct next as [l|]; [|right; left; reflexivity].
  destruct (PyStr.nonempty l); [|right; left; reflexivity].
  right. right. right. exists l. split; [reflexivity|].
  rewrite bind_with_memory. cbn [curriculum memory].
  match goal with |- fst (?m ?w') = _ => refine ((_ : pure_call m) w') end.
  pure_calls.
Qed.

Lemma after_read_letter (now sid0 : string) (w : World) (sid : string) :
  letter_of (after_read now sid0 w) sid = letter_of w sid.
Proof.
  unfold letter_of, after_read. cbn.
  now pose proof (get_derived_state_letter now sid0 (memory w)) as (_ & H2 & _).
Qed.

Lemma after_progress_letter (now sid0 l : string) (w : World) (sid : string) :
  letter_of (after_progress now sid0 l w) sid
  = if decide (sid = sid0) then l else letter_of w sid.
Proof.
  unfold after_progress, letter_of at 1. cbn [memory].
  rewrite progress_letter_letter.
  destruct (decide (sid = sid0)); [reflexivity|]. apply after_read_letter.
Qed.

(** One call holds every letter or advances the letter of its session to
    the successor. *)
Lemma step_held_or_advanced (o : op) (w : World) (sid : string) :
  (forall sid', is_letter (letter_of w sid')) ->
  held_or_advanced (letter_of w sid) (letter_of (step o w) sid).
Proof.
  intros Hinv. unfold held_or_advanced.
  assert (Hprog : forall now sid0 l,
             get_next_letter (letter_of w sid0) = Ok (Some l) ->
             letter_of (after_progress now sid0 l w) sid = letter_of w sid
             \/ successor_of (letter_of w sid) (letter_of (after_progress now sid0 l w) sid)).
  { intros now sid0 l Hn. rewrite after_progress_letter.
    destruct (decide (sid = sid0)) as [->|Hne]; [|now left].
    right. now apply (get_next_letter_of_letter _ (Some l) (Hinv sid0)). }
  destruct o as [now sid0 u | now sid0 u | u | now0 now1 now2 sid0 u a | r]; cbn [step].
  - destruct (generate_response_effect now sid0 u w) as [-> | (l & Hn & ->)].
    + left. apply after_read_letter.
    + now apply Hprog.
  - destruct (handle_special_commands_effect now sid0 u w)
      as [-> | [-> | [-> | (l & Hn & ->)]]].
    + now left.
    + left. apply after_read_letter.
    + left. unfold letter_of. cbn. apply get_conversation_history_letter.
    + now apply Hprog.
  - now left.
  - left. unfold letter_of. cbn. apply add_turn_letter.
  - now left.
Qed.

Lemma held_or_advanced_letter (a b : string) :
  is_letter a -> held_or_advanced a b -> is_letter b.
Proof.
  intros Ha [-> | Hs]; [exact Ha|]. now apply successor_is_letter in Hs.
Qed.

Lemma held_or_advanced_position (a b : string) :
  is_letter a -> held_or_advanced a b ->
  (0 <= alphabet_position a <= alphabet_position b)%Z /\ (alphabet_position b <= 25)%Z.
Proof.
  intros Ha Hb.
  pose proof (letter_position a Ha).
  pose proof (letter_position b (held_or_advanced_letter a b Ha Hb)).
  destruct Hb as [-> | Hs]; [lia|]. apply successor_position in Hs. lia.
Qed.

(** Every session of a reachable state is at a letter A-Z. *)
Lemma run_letters (cs : CurriculumService) (n : Z) (ops : list op) (sid : string) :
  is_letter (letter_of (run ops (mkWorld cs (Memory.init n))) sid).
Proof.
  revert sid. induction ops as [|o ops IH] using rev_ind; intros sid.
  - unfold letter_of, letter_at. cbn. rewrite lookup_empty.
    exists "A"%char. split; [reflexivity | change (PyStr.ord "A") with 65%Z; lia].
  - unfold run. rewrite fold_left_app. cbn [fold_left].
    fold (run ops (mkWorld cs (Memory.init n))).
    eapply held_or_advanced_letter; [apply IH|]. now apply step_held_or_advanced.
Qed.

Lemma run_position_monotone (w : World) (more : list op) (sid : string) :
  (forall sid', is_letter (letter_of w sid')) ->
  (forall sid', is_letter (letter_of (run more w) sid'))
  /\ (alphabet_position (letter_of w sid) <= alphabet_position (letter_of (run more w) sid))%Z.
Proof.
  revert w. induction more as [|o more IH]; intros w Hinv.
  - cbn. split; [exact Hinv | lia].
  - cbn [run fold_left]. fold (run more (step o w)).
    assert (Hinv' : forall sid', is_letter (letter_of (step o w) sid')).
    { intros sid'. eapply held_or_advanced_letter; [apply Hinv|].
      now apply step_held_or_advanced. }
    destruct (IH (step o w) Hinv') as [H1 H2]. split; [exact H1|].
    pose proof (held_or_advanced_position _ _ (Hinv sid) (step_held_or_advanced o w sid Hinv)).
    lia.
Qed.

(** C8.  Along every run of the engine from a new memory service, no call
    moves the current letter of a session backward: a call holds the letter
    or replaces it by its successor in A-Z, so the place of the letter in
    the alphabet never decreases, over one call or over any further run. *)
Theorem letter_never_moves_backward
    (cs : CurriculumService) (n : Z) (ops : list op) (o : op) (more : list op) (sid : string) :
  let w := run ops (mkWorld cs (Memory.init n)) in
  (letter_of (step o w) sid = letter_of w sid
   \/ successor_of (letter_of w sid) (letter_of (step o w) sid))
  /\ (0 <= alphabet_position (letter_of w sid) <= alphabet_position (letter_of (step o w) sid))%Z
  /\ (alphabet_position (letter_of w sid)
      <= alphabet_position (letter_of (run more w) sid) <= 25)%Z.
Proof.
  cbv zeta. set (w := run ops (mkWorld cs (Memory.init n))).
  assert (Hinv : forall sid', is_letter (letter_of w sid')) by (intros; apply run_letters).
  pose proof (step_held_or_advanced o w sid Hinv) as Hstep.
  split; [exact Hstep|]. split.
  - now apply held_or_advanced_position.
  - destruct (run_position_monotone w more sid Hinv) as [Hl Hm].
    pose proof (letter_position _ (Hl sid)). lia.
Qed.

(** *** The pronunciation check of the orchestrator *)

Lemma check_pronunciation_letter_substring (cs : CurriculumService) (user_input target : string) :
  consistent cs -> has_lesson cs target ->
  PyStr.contains (PyStr.lower target) (PyStr.lower user_input) = true ->
  check_pronunciation cs user_input target
  = Ok (true, "Great job! You said the " +:+ target +:+ " sound correctly!").
Proof.
  intros Hc Hl Hsub. unfold check_pronunciation.
  destruct (CurriculumFacts.consistent_has_letter cs target Hc Hl) as (sounds & -> & Hin).
  change (default [] (Some sounds)) with sounds.
  assert (He : existsb (fun sound => PyStr.contains sound (PyStr.lower user_input)) sounds = true).
  { apply existsb_exists. eauto. }
  now rewrite He.
Qed.

Lemma build_items_objects (items : list (string * json)) :
  forall (acc pm : gmap string (list string)) (k : string) (v : json),
    build_items items acc = Ok pm -> Json.assoc k items = Some v ->
    exists fields, v = JObj fields.
Proof.
  induction items as [|[letter data] rest IH]; intros acc pm k v Hb Hk; [discriminate|].
  cbn in Hb, Hk.
  destruct (phoneme_entry letter data) as [sounds|] eqn:He; [|discriminate].
  destruct (String.eqb k letter).
  - injection Hk as <-. unfold phoneme_entry in He.
    destruct data; try discriminate. eauto.
  - cbn in Hb. eauto.
Qed.

(** In a consistent service a lesson lookup does not raise, and what it
    returns is [None] or a [dict]. *)
Lemma consistent_get_lesson (cs : CurriculumService) (letter : string) :
  consistent cs ->
  exists lesson,
    get_lesson cs letter = Ok lesson
    /\ (lesson = JNull \/ exists fields, lesson = JObj fields).
Proof.
  unfold consistent, get_lesson, Json.get, Json.get_default, _build_phoneme_map.
  intros Hc. destruct (lessons cs) as [| | | | |items]; try discriminate.
  eexists. split; [reflexivity|].
  destruct (Json.assoc (PyStr.upper letter) items) as [v|] eqn:Hv; [right | now left].
  cbn. eapply build_items_objects; eauto.
Qed.

Lemma get_derived_state_existing (now sid : string) (ms : MemoryService) (s : Session) :
  sessions ms !! sid = Some s -> get_derived_state now sid ms = (ms, derived_state s).
Proof. unfold get_derived_state, get_session. now intros ->. Qed.

Lemma world_eta (w : World) : mkWorld (curriculum w) (memory w) = w.
Proof. now destruct w. Qed.

(** C7.  For a session whose current letter is ['Z'], a call of
    [generate_response] whose input the pronunciation check judges correct
    returns metadata with [curriculum_complete] set to [True], leaves the
    services as they were (no call of [progress_letter], no new letter in
    the metadata), and the current letter is still ['Z']. *)
Theorem completion_at_Z (now sid user_input : string) (w : World) (s : Session)
    (feedback : string) :
  sessions (memory w) !! sid = Some s ->
  current_letter (derived_state s) = "Z" ->
  check_pronunciation (curriculum w) user_input "Z" = Ok (true, feedback) ->
  exists response metadata,
    generate_response now sid user_input w = (w, Ok (response, metadata))
    /\ metadata !! "curriculum_complete" = Some (MBool true)
    /\ metadata !! "progress_made" = Some (MBool false)
    /\ metadata !! "new_letter" = None
    /\ letter_of (fst (generate_response now sid user_input w)) sid = "Z".
Proof.
  intros Hs Hz Hcheck.
  assert (Hrun : generate_response now sid user_input w
                 = (w, Ok (feedback +:+ " Wow! You've learned the whole alphabet! You're amazing!",
                           <["curriculum_complete" := MBool true]>
                             (<["progress_made" := MBool false]>
                                (<["needs_practice" := MBool (negb true)]>
                                   (<["is_correct" := MBool true]>
                                      ({[ "current_letter" := MStr "Z" ]} : gmap string mval))))))).
  { unfold generate_response. rewrite bind_with_memory.
    rewrite (get_derived_state_existing now sid (memory w) s Hs). cbn [fst snd].
    rewrite world_eta, Hz, bind_read_curriculum, Hcheck. reflexivity. }
  rewrite Hrun. do 2 eexists. split; [reflexivity|].
  repeat split; try (vm_compute; reflexivity).
  unfold letter_of, letter_at. cbn [fst]. now rewrite Hs.
Qed.

(** C10.  In a service whose phoneme map is the one built from its lesson
    table, for every target letter that has a lesson the pronunciation
    check judges an input correct whenever the target letter in lower case
    occurs in the input in lower case.  So for a session at ['A'], with a
    lesson for A, any input that contains the character ['a'] is marked
    correct and moves the session to ['B']. *)
Theorem letter_substring_is_correct :
  (forall (cs : CurriculumService) (user_input target : string),
      consistent cs -> has_lesson cs target ->
      PyStr.contains (PyStr.lower target) (PyStr.lower user_input) = true ->
      exists feedback, check_pronunciation cs user_input target = Ok (true, feedback))
  /\ (forall (w : World) (now sid user_input : string),
        consistent (curriculum w) ->
        has_lesson (curriculum w) "A" ->
        letter_of w sid = "A" ->
        PyStr.contains "a" user_input = true ->
        exists response metadata,
          snd (generate_response now sid user_input w) = Ok (response, metadata)
          /\ metadata !! "is_correct" = Some (MBool true)
          /\ metadata !! "progress_made" = Some (MBool true)
          /\ metadata !! "new_letter" = Some (MStr "B")
          /\ letter_of (fst (generate_response now sid user_input w)) sid = "B").
Proof.
  split.
  { intros cs user_input target Hc Hl Hsub. eexists.
    now apply check_pronunciation_letter_substring. }
  intros w now sid user_input Hc Hl Ha Hsub.
  assert (Hcheck : check_pronunciation (curriculum w) user_input "A"
                   = Ok (true, "Great job! You said the A sound correctly!")).
  { apply check_pronunciation_letter_substring; [exact Hc | exact Hl |].
    now apply (PyStrFacts.contains_lower "a" user_input). }
  pose proof (get_derived_state_letter now sid (memory w)) as (Hcur & _).
  fold (letter_of w sid) in Hcur. rewrite Ha in Hcur.
  destruct (consistent_get_lesson (curriculum w) "B" Hc) as (lesson & Hlesson & Hshape).
  unfold generate_response. rewrite bind_with_memory, Hcur.
  rewrite bind_read_curriculum. cbn [curriculum memory]. rewrite Hcheck.
  rewrite bind_lift. change (get_next_letter "A") with (Ok (Some "B") : result (option string)).
  cbn [truthy_letter]. change (PyStr.nonempty "B") with true. cbv iota.
  rewrite bind_with_memory. cbn [curriculum memory].
  rewrite bind_read_curriculum. cbn [curriculum memory]. rewrite Hlesson.
  assert (Hletter : letter_at (fst (progress_letter now sid "A" "B"
                                      (fst (get_derived_state now sid (memory w))))) sid = "B").
  { rewrite progress_letter_letter. now rewrite decide_True. }
  destruct Hshape as [-> | [fields ->]].
  - cbn [Json.truthy]. do 2 eexists. split; [reflexivity|].
    repeat split; try (vm_compute; reflexivity). exact Hletter.
  - destruct (Json.truthy (JObj fields)).
    + rewrite bind_lift. cbn [Json.get_default]. do 2 eexists. split; [reflexivity|].
      repeat split; try (vm_compute; reflexivity). exact Hletter.
    + do 2 eexists. split; [reflexivity|].
      repeat split; try (vm_compute; reflexivity). exact Hletter.
Qed.

End Calls.

Lemma completion_at_Z_witness :
  exists response metadata,
    @generate_response Fixtures.plain_formatter "t1" "s" "zebra" world_at_z
    = (world_at_z, Ok (response, metadata))
    /\ metadata !! "curriculum_complete" = Some (MBool true)
    /\ metadata !! "progress_made" = Some (MBool false)
    /\ metadata !! "new_letter" = None
    /\ letter_of (fst (@generate_response Fixtures.plain_formatter
                         "t1" "s" "zebra" world_at_z)) "s" = "Z".
Proof.
  apply (@completion_at_Z Fixtures.plain_formatter "t1" "s" "zebra" world_at_z
           (mkSession [] (mkState "Z" None "easy" None "t0" 25))
           "Great job! You said the Z sound correctly!").
  - vm_compute. reflexivity.
  - reflexivity.
  - vm_compute. reflexivity.
Defined.

Lemma letter_substring_is_correct_witness :
  exists response metadata,
    snd (@generate_response Fixtures.plain_formatter "t1" "s" "banana" new_world)
    = Ok (response, metadata)
    /\ metadata !! "is_correct" = Some (MBool true)
    /\ metadata !! "progress_made" = Some (MBool true)
    /\ metadata !! "new_letter" = Some (MStr "B")
    /\ letter_of (fst (@generate_response Fixtures.plain_formatter
                         "t1" "s" "banana" new_world)) "s" = "B".
Proof.
  apply (proj2 (@letter_substring_is_correct Fixtures.plain_formatter)).
  - vm_compute. reflexivity.
  - exists (default JNull (Json.assoc "A" [("A", JObj [
        ("phoneme", JStr "/æ/");
        ("phoneme_clue", JStr "ah");
        ("examples", JArr [JStr "Apple"; JStr "Ant"; JStr "Alligator"]);
        ("activity", JStr "Can you find something in the room that starts with the letter A?");
        ("prompt", JStr "This is the letter A. It makes the 'ah' sound, like in apple. Can you say 'ah'?")
      ])])).
    split; [reflexivity | cbn; discriminate].
  - vm_compute. reflexivity.
  - vm_compute. reflexivity.
Defined.

End AgentFacts.

(** ** More on the curriculum store *)

Module CurriculumMoreFacts.

Import Curriculum Memory Agent Fixtures.

(** *** Reloads *)

(** X10.  A reload that returns [True] leaves the service with the phoneme
    map built from the table it now holds. *)
Theorem reload_success_consistent (r : file_read) (cs : CurriculumService) :
  snd (reload_lessons r cs) = true ->
  consistent (fst (reload_lessons r cs))
  /\ _load_lessons r = Ok (lessons (fst (reload_lessons r cs))).
Proof.
  unfold reload_lessons, consistent.
  destruct (_load_lessons r) as [l|e]; [|discriminate].
  destruct (_build_phoneme_map l) as [pm|e] eqn:Hb; [|discriminate].
  intros _. cbn. auto.
Qed.

Lemma reload_success_consistent_witness :
  snd (reload_lessons (Decoded lessons_b) default_service) = true
  /\ consistent (fst (reload_lessons (Decoded lessons_b) default_service)).
Proof.
  assert (Hr : snd (reload_lessons (Decoded lessons_b) default_service) = true)
    by (vm_compute; reflexivity).
  split; [exact Hr|].
  exact (proj1 (reload_success_consistent (Decoded lessons_b) default_service Hr)).
Defined.

(** X11.  A reload whose file decodes to a table from which no phoneme map
    can be built returns [False], but the lesson table has already been
    replaced: the service then holds the new table next to the phoneme map
    of the old one. *)
Theorem reload_half_update (r : file_read) (cs : CurriculumService) (l : json) (e : exn) :
  _load_lessons r = Ok l -> _build_phoneme_map l = Raise e ->
  reload_lessons r cs = (mkCurriculum l (phoneme_map cs), false)
  /\ ~ consistent (mkCurriculum l (phoneme_map cs)).
Proof.
  intros Hl Hb. unfold reload_lessons, consistent. rewrite Hl, Hb.
  split; [reflexivity|]. cbn. rewrite Hb. discriminate.
Qed.

Lemma reload_half_update_witness :
  _load_lessons (Decoded lessons_with_null) = Ok lessons_with_null
  /\ _build_phoneme_map lessons_with_null = Raise AttributeError
  /\ reload_lessons (Decoded lessons_with_null) default_service
     = (mkCurriculum lessons_with_null (phoneme_map default_service), false).
Proof.
  assert (Hl : _load_lessons (Decoded lessons_with_null) = Ok lessons_with_null)
    by reflexivity.
  assert (Hb : _build_phoneme_map lessons_with_null = Raise AttributeError)
    by reflexivity.
  split; [exact Hl|]. split; [exact Hb|].
  exact (proj1 (reload_half_update (Decoded lessons_with_null) default_service
                  lessons_with_null AttributeError Hl Hb)).
Defined.

(** *** Successor letters *)

Lemma nonempty_smap (f : ascii -> ascii) (s : string) :
  PyStr.nonempty (PyStr.smap f s) = PyStr.nonempty s.
Proof. now destruct s. Qed.

Lemma ord_str_ok (s : string) :
  is_ok (ord_str s) = (String.length s =? 1)%nat.
Proof. destruct s as [|c [|d s]]; reflexivity. Qed.

(** X12.  [get_next_letter] raises exactly on inputs of more than one
    character, and it does not distinguish upper from lower case: the
    result for a string is the result for its upper-case and for its
    lower-case form. *)
Theorem get_next_letter_domain (s : string) :
  is_ok (get_next_letter s) = (String.length s <=? 1)%nat
  /\ get_next_letter (PyStr.lower s) = get_next_letter s
  /\ get_next_letter (PyStr.upper s) = get_next_letter s.
Proof.
  split; [|split].
  - unfold get_next_letter.
    destruct s as [|c s]; [reflexivity|].
    change (PyStr.nonempty (String c s)) with true. cbn [negb].
    pose proof (ord_str_ok (PyStr.upper (String c s))) as Ho.
    unfold PyStr.upper in Ho. rewrite PyStrFacts.length_smap in Ho.
    fold (PyStr.upper (String c s)) in Ho.
    destruct (ord_str (PyStr.upper (String c s))) as [o|e]; cbn in *.
    + destruct (_ <=? _)%Z; cbn; rewrite Ho; now destruct s.
    + rewrite Ho. now destruct s.
  - unfold get_next_letter, PyStr.lower. rewrite nonempty_smap.
    fold (PyStr.lower s). now rewrite PyStrFacts.upper_lower.
  - unfold get_next_letter, PyStr.upper at 1. rewrite nonempty_smap.
    now rewrite PyStrFacts.upper_idem.
Qed.

(** X13.  For a single upper-case letter, [is_curriculum_complete] is
    true exactly when [get_next_letter] has no successor to give. *)
Theorem complete_iff_no_next (l : string) :
  is_letter l ->
  exists next,
    get_next_letter l = Ok next
    /\ is_curriculum_complete (Some l) = match next with None => true | Some _ => false end.
Proof.
  intros (c & -> & Hc).
  destruct (Z.eq_dec (PyStr.ord c) 90%Z) as [Hz|Hz].
  - assert (c = "Z"%char) as ->.
    { rewrite <- (PyStrFacts.chr_ord c), Hz. reflexivity. }
    exists None. split; reflexivity.
  - eexists. split; [apply CurriculumFacts.get_next_letter_A_to_Y; lia|].
    cbn. destruct (Ascii.eqb_spec c "Z"%char) as [->|Hne]; [|reflexivity].
    exfalso. apply Hz. reflexivity.
Qed.

Lemma complete_iff_no_next_witness :
  is_letter "Z"
  /\ exists next,
       get_next_letter "Z" = Ok next
       /\ is_curriculum_complete (Some "Z")
          = match next with None => true | Some _ => false end.
Proof.
  assert (Hl : is_letter "Z").
  { exists "Z"%char. split; [reflexivity | vm_compute; split; discriminate]. }
  split; [exact Hl|].
  exact (complete_iff_no_next "Z" Hl).
Defined.

(** *** The phoneme map, entry by entry *)

Lemma assoc_None_notin (k : string) (items : list (string * json)) :
  Json.assoc k items = None -> ~ In k (map fst items).
Proof.
  induction items as [|[k' v] items IH]; cbn; [tauto|].
  destruct (String.eqb_spec k k') as [->|Hne]; [discriminate|].
  intros Ha [Heq|Hin]; [congruence | now apply IH].
Qed.

Lemma build_items_keeps (items : list (string * json)) :
  forall (acc pm : gmap string (list string)) (k : string),
    build_items items acc = Ok pm -> ~ In k (map fst items) -> pm !! k = acc !! k.
Proof.
  induction items as [|[letter data] rest IH]; intros acc pm k Hb Hk.
  - cbn in Hb. now injection Hb as <-.
  - cbn in Hb, Hk. destruct (phoneme_entry letter data) as [sounds|]; [|discriminate].
    cbn in Hb. rewrite (IH _ _ k Hb) by tauto.
    apply lookup_insert_ne. tauto.
Qed.

Lemma build_items_entry (items : list (string * json)) :
  forall (acc pm : gmap string (list string)) (k : string) (data : json),
    build_items items acc = Ok pm -> NoDup (map fst items) ->
    Json.assoc k items = Some data ->
    exists sounds, phoneme_entry k data = Ok sounds /\ pm !! k = Some sounds.
Proof.
  induction items as [|[letter d] rest IH]; intros acc pm k data Hb Hnd Hk; [discriminate|].
  cbn in Hb, Hk, Hnd. apply NoDup_cons in Hnd as [Hnotin Hnd].
  destruct (phoneme_entry letter d) as [sounds|] eqn:He; [|discriminate].
  cbn in Hb. destruct (String.eqb_spec k letter) as [->|Hne].
  - injection Hk as <-. exists sounds. split; [exact He|].
    rewrite (build_items_keeps rest _ pm letter Hb).
    + apply lookup_insert_eq.
    + intros Hin. apply Hnotin. now apply list_elem_of_In.
  - eapply IH; eauto.
Qed.

Lemma mapM_str_lower_In (words : list json) (lowered : list string) (w : string) :
  mapM Json.str_lower words = Ok lowered -> In (JStr w) words -> In (PyStr.lower w) lowered.
Proof.
  revert lowered. induction words as [|x words IH]; intros lowered Hm Hin; [contradiction|].
  cbn in Hm. destruct (Json.str_lower x) as [y|] eqn:Hx; [|discriminate].
  cbn in Hm. destruct (mapM Json.str_lower words) as [ys|]; [|discriminate].
  cbn in Hm. injection Hm as <-.
  destruct Hin as [-> | Hin].
  - cbn in Hx. injection Hx as <-. now left.
  - right. now apply IH.
Qed.

Lemma contains_empty (s : string) : PyStr.contains "" s = true.
Proof. now destruct s. Qed.

(** The entry of the phoneme map for a letter that has a lesson. *)
Lemma lesson_entry (cs : CurriculumService) (target : string) (fields : list (string * json)) :
  consistent cs -> unique_keys (lessons cs) ->
  get_lesson cs target = Ok (JObj fields) ->
  exists sounds,
    phoneme_entry (PyStr.upper target) (JObj fields) = Ok sounds
    /\ phoneme_map cs !! PyStr.upper target = Some sounds.
Proof.
  unfold consistent, unique_keys, get_lesson, Json.get, Json.get_default, _build_phoneme_map.
  intros Hc Hu Hl. destruct (lessons cs) as [| | | | |items]; try discriminate.
  injection Hl as Hl.
  destruct (Json.assoc (PyStr.upper target) items) as [v|] eqn:Ha; [|discriminate].
  cbn in Hl. subst v. eapply build_items_entry; eauto.
Qed.

Section Checks.
Context `{Formatter}.

Lemma check_accepts_sound (cs : CurriculumService) (user_input target : string)
    (sounds : list string) (sound : string) :
  phoneme_map cs !! PyStr.upper target = Some sounds ->
  In sound sounds -> PyStr.contains sound (PyStr.lower user_input) = true ->
  check_pronunciation cs user_input target
  = Ok (true, "Great job! You said the " +:+ target +:+ " sound correctly!").
Proof.
  intros Hm Hin Hsub. unfold check_pronunciation. rewrite Hm.
  change (default [] (Some sounds)) with sounds.
  assert (He : existsb (fun s => PyStr.contains s (PyStr.lower user_input)) sounds = true).
  { apply existsb_exists. eauto. }
  now rewrite He.
Qed.

(** X14.  In a service built from its lesson table, a lesson that has no
    [phoneme_clue] (or an empty one) makes every input correct for its
    letter, the empty input included: the empty clue is among the target
    sounds and is a substring of everything. *)
Theorem missing_clue_accepts_everything (cs : CurriculumService) (target : string)
    (fields : list (string * json)) (user_input : string) :
  consistent cs -> unique_keys (lessons cs) ->
  get_lesson cs target = Ok (JObj fields) ->
  Json.assoc "phoneme_clue" fields = None \/ Json.assoc "phoneme_clue" fields = Some (JStr "") ->
  check_pronunciation cs user_input target
  = Ok (true, "Great job! You said the " +:+ target +:+ " sound correctly!").
Proof.
  intros Hc Hu Hl Hclue.
  destruct (lesson_entry cs target fields Hc Hu Hl) as (sounds & He & Hm).
  apply (check_accepts_sound cs user_input target sounds "" Hm); [|apply contains_empty].
  unfold phoneme_entry in He. cbn [Json.get_default] in He.
  assert (Hd : default (JStr "") (Json.assoc "phoneme_clue" fields) = JStr "")
    by (destruct Hclue as [-> | ->]; reflexivity).
  rewrite Hd in He. cbn in He.
  destruct (Json.iter _) as [ws|]; [|discriminate]. cbn in He.
  destruct (mapM Json.str_lower ws) as [wl|]; [|discriminate]. cbn in He.
  injection He as <-. now left.
Qed.

(** X15.  In a service built from its lesson table, an input that contains
    the clue of the target's lesson or one of its example words, in any
    mix of upper and lower case, is judged correct. *)
Theorem lesson_sounds_accepted (cs : CurriculumService) (target : string)
    (fields : list (string * json)) (w user_input : string) :
  consistent cs -> unique_keys (lessons cs) ->
  get_lesson cs target = Ok (JObj fields) ->
  Json.assoc "phoneme_clue" fields = Some (JStr w)
  \/ (exists words, Json.assoc "examples" fields = Some (JArr words) /\ In (JStr w) words) ->
  PyStr.contains (PyStr.lower w) (PyStr.lower user_input) = true ->
  check_pronunciation cs user_input target
  = Ok (true, "Great job! You said the " +:+ target +:+ " sound correctly!").
Proof.
  intros Hc Hu Hl Hw Hsub.
  destruct (lesson_entry cs target fields Hc Hu Hl) as (sounds & He & Hm).
  apply (check_accepts_sound cs user_input target sounds (PyStr.lower w) Hm); [|exact Hsub].
  unfold phoneme_entry in He. cbn [Json.get_default] in He. cbn [mbind result_bind] in He.
  destruct (Json.str_lower (default (JStr "") (Json.assoc "phoneme_clue" fields)))
    as [cl|] eqn:Hcl; [|discriminate].
  cbn [mbind result_bind] in He.
  destruct (Json.iter (default (JArr []) (Json.assoc "examples" fields)))
    as [ws|] eqn:Hws; [|discriminate].
  cbn [mbind result_bind] in He.
  destruct (mapM Json.str_lower ws) as [wl|] eqn:Hwl; [|discriminate].
  cbn in He. injection He as <-.
  destruct Hw as [Hclue | (words & Hex & Hin)].
  - rewrite Hclue in Hcl. cbn in Hcl. injection Hcl as <-. now left.
  - rewrite Hex in Hws. cbn in Hws. injection Hws as <-.
    right. right. eapply mapM_str_lower_In; eauto.
Qed.

End Checks.

Lemma missing_clue_accepts_everything_witness :
  consistent service_c /\ unique_keys (lessons service_c)
  /\ @check_pronunciation plain_formatter service_c "" "C"
     = Ok (true, "Great job! You said the C sound correctly!").
Proof.
  assert (Hc : consistent service_c) by reflexivity.
  assert (Hu : unique_keys (lessons service_c)).
  { cbn. apply NoDup_cons. split; [apply not_elem_of_nil | apply NoDup_nil_2]. }
  split; [exact Hc|]. split; [exact Hu|].
  apply (@missing_clue_accepts_everything plain_formatter service_c "C"
           [("examples", JArr [JStr "Cat"])] "" Hc Hu); [reflexivity | now left].
Defined.

Lemma lesson_sounds_accepted_witness :
  consistent default_service /\ unique_keys (lessons default_service)
  /\ @check_pronunciation plain_formatter default_service "I saw an ANT" "A"
     = Ok (true, "Great job! You said the A sound correctly!").
Proof.
  assert (Hc : consistent default_service) by reflexivity.
  assert (Hu : unique_keys (lessons default_service)).
  { cbn. apply NoDup_cons. split; [apply not_elem_of_nil | apply NoDup_nil_2]. }
  split; [exact Hc|]. split; [exact Hu|].
  eapply (@lesson_sounds_accepted plain_formatter default_service "A" _ "Ant" "I saw an ANT"
            Hc Hu).
  - reflexivity.
  - right. eexists. split; [reflexivity|]. right. now left.
  - vm_compute. reflexivity.
Defined.


End CurriculumMoreFacts.

(** ** More on the safety filter *)

Module SafetyMoreFacts.

Import Safety Agent Fixtures.

(** The codes of all topics, in the order of the topic list. *)
Lemma sublist_map {A B} (f : A -> B) (l1 l2 : list A) :
  l1 `sublist_of` l2 -> map f l1 `sublist_of` map f l2.
Proof.
  induction 1 as [|x l1 l2 _ IH|x l1 l2 _ IH]; cbn.
  - constructor.
  - now apply sublist_skip.
  - now apply sublist_cons.
Qed.

Lemma all_codes_distinct :
  NoDup ("inappropriate_language" :: "pii_detected"
         :: map (fun topic => "unsafe_topic_" +:+ PyStr.replace_char " " "_" topic)
                unsafe_topics).
Proof. apply (bool_decide_unpack _). vm_compute. exact I. Qed.

Lemma topic_codes_marked :
  Forall (fun v => PyStr.contains "unsafe_topic" v = true
                   /\ PyStr.contains "pii" v = false
                   /\ String.eqb "inappropriate_language" v = false)
         (map (fun topic => "unsafe_topic_" +:+ PyStr.replace_char " " "_" topic)
              unsafe_topics).
Proof.
  unfold unsafe_topics. cbn [map].
  repeat (constructor; [repeat split; vm_compute; reflexivity|]).
  constructor.
Qed.

Section Libraries.
Context `{ProfanityFilter} `{Regex}.

Lemma violations_parts (x : string) :
  violations (moderate_content x)
  = ((if contains_profanity x then ["inappropriate_language"] else [])
     ++ _detect_pii x ++ _detect_unsafe_topics x)%list.
Proof.
  unfold moderate_content, violations.
  destruct (contains_profanity x), (_detect_pii x), (_detect_unsafe_topics x);
    cbn; rewrite ?app_nil_r; reflexivity.
Qed.

Lemma detect_unsafe_topics_sublist (x : string) :
  _detect_unsafe_topics x
  `sublist_of` map (fun topic => "unsafe_topic_" +:+ PyStr.replace_char " " "_" topic)
                   unsafe_topics.
Proof. unfold _detect_unsafe_topics. apply sublist_map, sublist_filter. Qed.

(** X16.  One pass of [moderate_content] reports no violation code twice:
    [inappropriate_language] at most once, [pii_detected] at most once even
    if several patterns match, and one code per unsafe topic, in the order
    of the topic list. *)
Theorem violations_distinct (x : string) :
  NoDup (violations (moderate_content x))
  /\ violations (moderate_content x)
     `sublist_of` ("inappropriate_language" :: "pii_detected"
                   :: map (fun topic => "unsafe_topic_" +:+ PyStr.replace_char " " "_" topic)
                          unsafe_topics).
Proof.
  assert (Hsub : violations (moderate_content x)
     `sublist_of` ("inappropriate_language" :: "pii_detected"
                   :: map (fun topic => "unsafe_topic_" +:+ PyStr.replace_char " " "_" topic)
                          unsafe_topics)).
  { rewrite violations_parts. unfold _detect_pii.
    pose proof (detect_unsafe_topics_sublist x) as Ht.
    destruct (contains_profanity x), (existsb _ pii_patterns); cbn [app].
    - now do 2 apply sublist_skip.
    - now apply sublist_skip, sublist_cons.
    - now apply sublist_cons, sublist_skip.
    - now do 2 apply sublist_cons. }
  split; [|exact Hsub].
  eapply sublist_NoDup; [apply all_codes_distinct | exact Hsub].
Qed.

(** X17.  For a text that is not safe, the remediation follows the order
    language, personal information, unsafe topic: the text about kind words
    if profanity was found, else the text about personal information if a
    PII pattern matched, else the text about unsafe topics.  The generic
    redirect is never the answer to an unsafe text. *)
Theorem remediation_priority (x : string) :
  is_safe (moderate_content x) = false ->
  generate_safe_response (violations (moderate_content x))
  = if contains_profanity x
    then "Let's use kind words! Can we try saying that in a nicer way?"
    else if existsb (fun pattern => re_search pattern x) pii_patterns
    then "Remember, we don't share personal information! Let's focus on learning letters instead."
    else "That's not something we talk about in our alphabet lessons. Let's learn about letters instead!".
Proof.
  intros Hs.
  assert (Hne : violations (moderate_content x) <> []).
  { intros He. apply SafetyFacts.moderate_safe_iff in He. congruence. }
  rewrite violations_parts in *. unfold _detect_pii in *.
  pose proof (detect_unsafe_topics_sublist x) as Ht.
  pose proof topic_codes_marked as Hm.
  set (codes := map _ unsafe_topics) in *.
  set (found := _detect_unsafe_topics x) in *.
  assert (Hf : Forall (fun v => PyStr.contains "unsafe_topic" v = true
                                /\ PyStr.contains "pii" v = false
                                /\ String.eqb "inappropriate_language" v = false) found).
  { apply Forall_forall. intros v Hv.
    apply (proj1 (Forall_forall _ _) Hm). eapply elem_of_sublist; eauto. }
  destruct (contains_profanity x); [reflexivity|].
  destruct (existsb _ pii_patterns).
  - cbn [app]. unfold generate_safe_response, PyStr.mem. cbn [existsb].
    change (String.eqb "inappropriate_language" "pii_detected") with false. cbn [orb].
    assert (Hl : existsb (String.eqb "inappropriate_language") found = false).
    { apply not_true_is_false. intros He. apply existsb_exists in He as (v & Hv & Heq).
      apply list_elem_of_In in Hv.
      destruct (proj1 (Forall_forall _ _) Hf v Hv) as (_ & _ & Hn). congruence. }
    rewrite Hl. reflexivity.
  - cbn [app] in *. destruct found as [|v rest]; [congruence|].
    apply Forall_cons in Hf as [(Hu & Hp & Hl) Hf].
    unfold generate_safe_response, PyStr.mem. cbn [existsb]. rewrite Hl, Hp, Hu. cbn [orb].
    assert (Hl' : existsb (String.eqb "inappropriate_language") rest = false).
    { apply not_true_is_false. intros He. apply existsb_exists in He as (v' & Hv & Heq).
      apply list_elem_of_In in Hv.
      destruct (proj1 (Forall_forall _ _) Hf v' Hv) as (_ & _ & Hn). congruence. }
    assert (Hp' : existsb (fun v => PyStr.contains "pii" v) rest = false).
    { apply not_true_is_false. intros He. apply existsb_exists in He as (v' & Hv & Heq).
      apply list_elem_of_In in Hv.
      destruct (proj1 (Forall_forall _ _) Hf v' Hv) as (_ & Hn & _). congruence. }
    rewrite Hl', Hp'. reflexivity.
Qed.

(** X18.  [process_user_input] passes a text on exactly when it is safe
    and a request fit for the lessons; it then returns the text unchanged
    with empty metadata.  Otherwise it returns a remediation text: for an
    unsafe text with the violations as metadata, for a safe one the redirect
    to the letters with [inappropriate_request]. *)
Theorem process_user_input_gate (x : string) :
  fst (fst (process_user_input x))
  = is_safe (moderate_content x) && is_child_appropriate_request x
  /\ (fst (fst (process_user_input x)) = true ->
      process_user_input x = (true, x, ∅))
  /\ (is_safe (moderate_content x) = false ->
      process_user_input x
      = (false, generate_safe_response (violations (moderate_content x)),
         {[ "violations" := MList (violations (moderate_content x)) ]}))
  /\ (is_safe (moderate_content x) = true -> is_child_appropriate_request x = false ->
      process_user_input x
      = (false, "Let's focus on learning letters! What letter would you like to practice?",
         {[ "inappropriate_request" := MBool true ]})).
Proof.
  unfold process_user_input.
  pose proof (SafetyFacts.moderate_safe_unchanged x) as Hu.
  unfold is_safe, cleaned_text, violations in *.
  destruct (moderate_content x) as [[safe cleaned] viols]. cbn [fst snd] in *.
  destruct safe; cbn [negb andb].
  - rewrite (Hu eq_refl).
    destruct (is_child_appropriate_request x); cbn [negb fst];
      repeat split; try discriminate; reflexivity.
  - repeat split; try discriminate; reflexivity.
Qed.

End Libraries.

Lemma remediation_priority_witness :
  is_safe (@moderate_content one_word_filter no_pii_regex "a darn scary letter") = false
  /\ generate_safe_response
       (violations (@moderate_content one_word_filter no_pii_regex "a darn scary letter"))
     = "Let's use kind words! Can we try saying that in a nicer way?".
Proof.
  assert (Hs : is_safe (@moderate_content one_word_filter no_pii_regex "a darn scary letter")
               = false) by (vm_compute; reflexivity).
  split; [exact Hs|].
  exact (@remediation_priority one_word_filter no_pii_regex "a darn scary letter" Hs).
Defined.

Lemma process_user_input_gate_witness :
  fst (fst (@process_user_input one_word_filter no_pii_regex "please teach me the letter b"))
  = true
  /\ @process_user_input one_word_filter no_pii_regex "please teach me the letter b"
     = (true, "please teach me the letter b", ∅).
Proof.
  assert (Hp : fst (fst (@process_user_input one_word_filter no_pii_regex
                           "please teach me the letter b")) = true)
    by (vm_compute; reflexivity).
  split; [exact Hp|].
  exact (proj1 (proj2 (@process_user_input_gate one_word_filter no_pii_regex
                         "please teach me the letter b")) Hp).
Defined.

End SafetyMoreFacts.

(** ** More on the orchestrator *)

Module AgentMoreFacts.

Import Curriculum Memory Agent Fixtures.

Lemma last_drop {A} (d : nat) (l : list A) : (d < length l)%nat -> last (drop d l) = last l.
Proof.
  intros Hd. rewrite !last_lookup, lookup_drop, length_drop. f_equal. lia.
Qed.

Lemma last_last_entries {A} (k : Z) (l : list A) :
  (0 <= k)%Z -> l <> [] -> last (last_entries k l) = last l.
Proof.
  intros Hk Hl. destruct (Z.eq_dec k 0%Z) as [->|Hne].
  - now rewrite MemoryFacts.last_entries_zero.
  - rewrite MemoryFacts.last_entries_pos by lia. apply last_drop.
    destruct l; [congruence|]. cbn. lia.
Qed.

(** The phrases of one command are not phrases of another. *)
Lemma skip_is_no_other_command (user_lower : string) :
  PyStr.contains "next letter" user_lower || PyStr.contains "skip" user_lower = true ->
  PyStr.mem user_lower ["help"; "what do i do"; "i don't know"] = false
  /\ PyStr.mem user_lower ["repeat"; "say that again"; "what"] = false.
Proof.
  intros Hs. split; apply not_true_is_false; intros Hm;
    apply existsb_exists in Hm as (p & Hin & Heq); apply String.eqb_eq in Heq; subst p;
    cbn in Hin; repeat (destruct Hin as [<- | Hin]; [vm_compute in Hs; discriminate|]);
    contradiction.
Qed.

Lemma repeat_is_no_help (user_lower : string) :
  PyStr.mem user_lower ["repeat"; "say that again"; "what"] = true ->
  PyStr.mem user_lower ["help"; "what do i do"; "i don't know"] = false.
Proof.
  intros Hm. apply existsb_exists in Hm as (p & Hin & Heq).
  apply String.eqb_eq in Heq; subst p.
  cbn in Hin. repeat (destruct Hin as [<- | Hin]; [reflexivity|]). contradiction.
Qed.

Section Calls.
Context `{Formatter}.

(** *** Reads that do not raise *)

(** X19.  In a service built from its lesson table no reader of the table
    raises, whatever letter or text it is given: [get_lesson],
    [get_letter_examples], [get_letter_activity],
    [get_current_lesson_prompt] and [check_pronunciation] all return. *)
Theorem readers_never_raise (cs : CurriculumService) (letter user_input : string)
    (child_name : option string) :
  consistent cs ->
  is_ok (get_lesson cs letter) = true
  /\ is_ok (get_letter_examples cs letter) = true
  /\ is_ok (get_letter_activity cs letter) = true
  /\ is_ok (get_current_lesson_prompt cs letter child_name) = true
  /\ is_ok (check_pronunciation cs user_input letter) = true.
Proof.
  intros Hc.
  destruct (AgentFacts.consistent_get_lesson cs letter Hc) as (lesson & Hl & Hshape).
  unfold get_letter_examples, get_letter_activity, get_current_lesson_prompt,
         check_pronunciation.
  rewrite Hl. cbn [mbind result_bind is_ok].
  destruct Hshape as [-> | [fields ->]].
  - cbn [Json.truthy negb is_ok]. repeat split. now destruct (existsb _ _).
  - repeat split; destruct (Json.truthy (JObj fields)); try reflexivity;
      now destruct (existsb _ _).
Qed.

(** X20.  In a service built from its lesson table, a letter without a
    lesson is never pronounced correctly: whatever the input, the check
    answers [False] with the hint to try the letter itself in lower case. *)
Theorem no_lesson_never_correct (cs : CurriculumService) (target user_input : string) :
  consistent cs -> get_lesson cs target = Ok JNull ->
  check_pronunciation cs user_input target
  = Ok (false, "Close! Try the '" +:+ PyStr.lower target +:+ "' sound for "
                 +:+ target +:+ ". You can do it!").
Proof.
  intros Hc Hl.
  assert (Hm : phoneme_map cs !! PyStr.upper target = None).
  { unfold consistent, get_lesson, Json.get, Json.get_default, _build_phoneme_map in *.
    destruct (lessons cs) as [| | | | |items]; try discriminate.
    injection Hl as Hl.
    destruct (Json.assoc (PyStr.upper target) items) as [v|] eqn:Ha.
    - cbn in Hl. subst v.
      destruct (AgentFacts.build_items_objects items _ _ _ _ Hc Ha) as [fields Hf].
      discriminate.
    - rewrite (CurriculumMoreFacts.build_items_keeps items _ _ _ Hc
                 (CurriculumMoreFacts.assoc_None_notin _ _ Ha)).
      apply lookup_empty. }
  unfold check_pronunciation. rewrite Hm, Hl. reflexivity.
Qed.

(** *** One call of [generate_response], case by case *)

End Calls.

Section Turns.
Context `{Formatter}.

(** X21.  When the pronunciation check judges the input incorrect,
    [generate_response] returns the feedback of the check as it is, marks
    the turn as needing practice without progress, and moves no letter. *)
Theorem incorrect_holds (now sid user_input : string) (w : World) (feedback : string) :
  check_pronunciation (curriculum w) user_input (letter_of w sid) = Ok (false, feedback) ->
  generate_response now sid user_input w
  = (after_read now sid w, Ok (feedback, base_metadata_of (letter_of w sid) false))
  /\ base_metadata_of (letter_of w sid) false !! "needs_practice" = Some (MBool true)
  /\ base_metadata_of (letter_of w sid) false !! "new_letter" = None
  /\ forall sid', letter_of (after_read now sid w) sid' = letter_of w sid'.
Proof.
  intros Hcheck. split; [|split; [reflexivity|split; [reflexivity|]]].
  - unfold generate_response. rewrite AgentFacts.bind_with_memory.
    pose proof (AgentFacts.get_derived_state_letter now sid (memory w)) as (Hcur & _).
    rewrite Hcur. fold (letter_of w sid).
    rewrite AgentFacts.bind_read_curriculum. cbn [curriculum memory].
    rewrite Hcheck. reflexivity.
  - intros sid'. apply AgentFacts.after_read_letter.
Qed.

(** X22.  In a service built from its lesson table, when the session is at
    a letter from A to Y and the check judges the input correct,
    [generate_response] returns with [progress_made] set, reports the next
    letter as [new_letter], and that letter is the current letter of the
    session afterwards; the letters of the other sessions do not change. *)
Theorem correct_advances (now sid user_input : string) (w : World) (c : ascii)
    (feedback : string) :
  consistent (curriculum w) ->
  letter_of w sid = String c "" -> (65 <= PyStr.ord c <= 89)%Z ->
  check_pronunciation (curriculum w) user_input (String c "") = Ok (true, feedback) ->
  let next := String (PyStr.chr (PyStr.ord c + 1)) "" in
  let w' := fst (generate_response now sid user_input w) in
  w' = after_progress now sid next w
  /\ (exists response,
        snd (generate_response now sid user_input w)
        = Ok (response,
              <["new_letter" := MStr next]>
                (<["progress_made" := MBool true]> (base_metadata_of (String c "") true))))
  /\ letter_of w' sid = next
  /\ forall sid', sid' <> sid -> letter_of w' sid' = letter_of w sid'.
Proof.
  intros Hc Ha Hord Hcheck. cbv zeta.
  set (next := String (PyStr.chr (PyStr.ord c + 1)) "").
  pose proof (AgentFacts.get_derived_state_letter now sid (memory w)) as (Hcur & _).
  fold (letter_of w sid) in Hcur. rewrite Ha in Hcur.
  destruct (AgentFacts.consistent_get_lesson (curriculum w) next Hc)
    as (lesson & Hlesson & Hshape).
  assert (Hrun : exists response,
    generate_response now sid user_input w
    = (after_progress now sid next w,
       Ok (response,
           <["new_letter" := MStr next]>
             (<["progress_made" := MBool true]> (base_metadata_of (String c "") true))))).
  { unfold generate_response. rewrite AgentFacts.bind_with_memory, Hcur.
    rewrite AgentFacts.bind_read_curriculum. cbn [curriculum memory]. rewrite Hcheck.
    rewrite AgentFacts.bind_lift.
    rewrite (CurriculumFacts.get_next_letter_A_to_Y c Hord). fold next.
    cbn [truthy_letter]. change (PyStr.nonempty next) with true. cbv iota.
    rewrite AgentFacts.bind_with_memory. cbn [curriculum memory].
    rewrite AgentFacts.bind_read_curriculum. cbn [curriculum memory]. rewrite Hlesson.
    unfold after_progress, after_read. rewrite Ha. cbn [memory].
    destruct Hshape as [-> | [fields ->]].
    - cbn [Json.truthy]. eexists. reflexivity.
    - destruct (Json.truthy (JObj fields)).
      + rewrite AgentFacts.bind_lift. cbn [Json.get_default]. eexists. reflexivity.
      + eexists. reflexivity. }
  destruct Hrun as [response Hrun]. rewrite Hrun. cbn [fst snd].
  split; [reflexivity|]. split; [eauto|].
  split.
  - rewrite AgentFacts.after_progress_letter. now rewrite decide_True.
  - intros sid' Hne. rewrite AgentFacts.after_progress_letter. now rewrite decide_False.
Qed.

(** The three ways in which [generate_response] returns. *)
Lemma generate_response_returns (now sid user_input : string) (w w' : World)
    (response : string) (metadata : gmap string mval) :
  generate_response now sid user_input w = (w', Ok (response, metadata)) ->
  (w' = after_read now sid w /\ metadata = base_metadata_of (letter_of w sid) false)
  \/ (w' = after_read now sid w
      /\ metadata = <["curriculum_complete" := MBool true]>
                      (base_metadata_of (letter_of w sid) true))
  \/ (exists l,
        get_next_letter (letter_of w sid) = Ok (Some l)
        /\ w' = after_progress now sid l w
        /\ metadata = <["new_letter" := MStr l]>
                        (<["progress_made" := MBool true]>
                           (base_metadata_of (letter_of w sid) true))).
Proof.
  unfold generate_response, after_progress, after_read, letter_of.
  pose proof (AgentFacts.get_derived_state_letter now sid (memory w)) as (Hcur & _).
  rewrite AgentFacts.bind_with_memory, Hcur.
  set (cur := letter_at (memory w) sid).
  rewrite AgentFacts.bind_read_curriculum. cbn [curriculum memory].
  destruct (check_pronunciation (curriculum w) user_input cur) as [[ok fb]|e];
    [|discriminate].
  destruct ok.
  2:{ intros [= <- <- <-]. now left. }
  rewrite AgentFacts.bind_lift.
  destruct (get_next_letter cur) as [next|e] eqn:Hn; [|discriminate].
  unfold truthy_letter.
  assert (Hcomplete :
    forall r, r = (mkWorld (curriculum w) (fst (get_derived_state now sid (memory w))),
                   Ok (fb +:+ " Wow! You've learned the whole alphabet! You're amazing!",
                       <["curriculum_complete" := MBool true]> (base_metadata_of cur true)))
              -> r = (w', Ok (response, metadata)) ->
              w' = mkWorld (curriculum w) (fst (get_derived_state now sid (memory w)))
              /\ metadata = <["curriculum_complete" := MBool true]> (base_metadata_of cur true)).
  { intros r -> [= <- <- <-]. now split. }
  destruct next as [l|]; [|intros Hr; right; left; now apply (Hcomplete _ eq_refl)].
  destruct (PyStr.nonempty l); [|intros Hr; right; left; now apply (Hcomplete _ eq_refl)].
  clear Hcomplete. intros Hr. right. right. exists l. split; [reflexivity|].
  revert Hr. rewrite AgentFacts.bind_with_memory. cbn [curriculum memory].
  rewrite AgentFacts.bind_read_curriculum. cbn [curriculum memory].
  destruct (get_lesson (curriculum w) l) as [lesson|e]; [|discriminate].
  destruct (Json.truthy lesson).
  - rewrite AgentFacts.bind_lift.
    destruct (Json.get_default lesson "prompt" (JStr "")) as [p|e]; [|discriminate].
    intros [= <- <- <-]. now split.
  - intros [= <- <- <-]. now split.
Qed.

(** X23.  Whenever [generate_response] returns, its metadata agree with
    what it did: [current_letter] is the letter the session had before the
    call and [needs_practice] is the negation of [is_correct]; if
    [progress_made] is true the input was correct and [new_letter] is the
    letter the session has after the call; otherwise there is no
    [new_letter], the session keeps its letter, and [curriculum_complete]
    is present only for a correct input. *)
Theorem metadata_reflects_state (now sid user_input : string) (w w' : World)
    (response : string) (metadata : gmap string mval) :
  generate_response now sid user_input w = (w', Ok (response, metadata)) ->
  metadata !! "current_letter" = Some (MStr (letter_of w sid))
  /\ exists is_correct,
       metadata !! "is_correct" = Some (MBool is_correct)
       /\ metadata !! "needs_practice" = Some (MBool (negb is_correct))
       /\ ((metadata !! "progress_made" = Some (MBool true)
            /\ is_correct = true
            /\ metadata !! "new_letter" = Some (MStr (letter_of w' sid))
            /\ metadata !! "curriculum_complete" = None)
           \/ (metadata !! "progress_made" = Some (MBool false)
               /\ metadata !! "new_letter" = None
               /\ letter_of w' sid = letter_of w sid
               /\ (metadata !! "curriculum_complete" = None
                   \/ (metadata !! "curriculum_complete" = Some (MBool true)
                       /\ is_correct = true)))).
Proof.
  intros Hrun.
  destruct (generate_response_returns _ _ _ _ _ _ _ Hrun)
    as [[-> ->] | [[-> ->] | (l & Hn & -> & ->)]].
  - split; [reflexivity|]. exists false. do 2 (split; [reflexivity|]).
    right. do 2 (split; [reflexivity|]).
    split; [apply AgentFacts.after_read_letter | now left].
  - split; [reflexivity|]. exists true. do 2 (split; [reflexivity|]).
    right. do 2 (split; [reflexivity|]).
    split; [apply AgentFacts.after_read_letter | right; now split].
  - split; [reflexivity|]. exists true. do 2 (split; [reflexivity|]).
    left. do 2 (split; [reflexivity|]). split; [|reflexivity].
    rewrite AgentFacts.after_progress_letter, decide_True by reflexivity. reflexivity.
Qed.

Lemma next_of_letter (a : string) :
  is_letter a ->
  exists next,
    get_next_letter a = Ok next
    /\ match next with
       | Some b => successor_of a b /\ PyStr.nonempty b = true
       | None => a = "Z"
       end.
Proof.
  intros Ha. pose proof Ha as (c & -> & Hc).
  destruct (Z.eq_dec (PyStr.ord c) 90%Z) as [Hz|Hz].
  - assert (c = "Z"%char) as ->.
    { rewrite <- (PyStrFacts.chr_ord c), Hz. reflexivity. }
    exists None. split; reflexivity.
  - eexists. split; [apply CurriculumFacts.get_next_letter_A_to_Y; lia|].
    split; [|reflexivity]. exists c. repeat split; lia.
Qed.

(** X24.  In a service built from its lesson table, an input with a skip
    phrase moves a session at a letter from A to Y to the next letter
    without any pronunciation check, and answers with the type [skip] and
    the new letter; for a session at ['Z'] the command finds no successor,
    returns [None] and the letter stays. *)
Theorem skip_moves_on (now sid user_input : string) (w : World) :
  consistent (curriculum w) -> is_letter (letter_of w sid) ->
  is_skip_phrase user_input = true ->
  exists next,
    get_next_letter (letter_of w sid) = Ok next
    /\ match next with
       | Some l =>
           fst (handle_special_commands now sid user_input w) = after_progress now sid l w
           /\ (exists text,
                 snd (handle_special_commands now sid user_input w)
                 = Ok (Some (JStr text,
                             <["new_letter" := MStr l]> {[ "type" := MStr "skip" ]})))
           /\ letter_of (fst (handle_special_commands now sid user_input w)) sid = l
           /\ successor_of (letter_of w sid) l
       | None =>
           handle_special_commands now sid user_input w = (after_read now sid w, Ok None)
           /\ letter_of w sid = "Z"
       end.
Proof.
  intros Hc Hl Hskip. unfold is_skip_phrase in Hskip. cbv zeta in Hskip.
  destruct (skip_is_no_other_command _ Hskip) as [Hhelp Hrep].
  destruct (next_of_letter _ Hl) as (next & Hn & Hnext).
  exists next. split; [exact Hn|].
  pose proof (AgentFacts.get_derived_state_letter now sid (memory w)) as (Hcur & _).
  fold (letter_of w sid) in Hcur.
  unfold handle_special_commands. cbv zeta. rewrite Hhelp, Hrep, Hskip.
  rewrite AgentFacts.bind_with_memory, Hcur, AgentFacts.bind_lift, Hn.
  destruct next as [l|].
  - destruct Hnext as [Hsucc Hne]. cbn [truthy_letter]. rewrite Hne.
    rewrite AgentFacts.bind_with_memory. cbn [curriculum memory].
    rewrite AgentFacts.bind_read_curriculum. cbn [curriculum memory].
    destruct (AgentFacts.consistent_get_lesson (curriculum w) l Hc)
      as (lesson & Hlesson & Hshape).
    rewrite Hlesson.
    assert (Hrun : exists text,
      (prompt ← (if Json.truthy lesson
                 then p ← lift (Json.get_default lesson "prompt"
                                  (JStr ("Let's learn " +:+ l +:+ "!")));
                      mret (py_str p)
                 else mret ("Let's try " +:+ l +:+ "!"));
       mret (Some (JStr ("Okay! " +:+ prompt),
                   <["new_letter" := MStr l]> ({[ "type" := MStr "skip" ]} : gmap string mval))))
        (after_progress now sid l w)
      = (after_progress now sid l w,
         Ok (Some (JStr text, <["new_letter" := MStr l]> {[ "type" := MStr "skip" ]})))).
    { destruct Hshape as [-> | [fields ->]].
      - eexists. reflexivity.
      - destruct (Json.truthy (JObj fields)); eexists; reflexivity. }
    destruct Hrun as [text Hrun].
    unfold after_progress, after_read in *. cbn [memory curriculum] in *.
    rewrite Hrun. cbn [fst snd].
    split; [reflexivity|]. split; [eauto|]. split; [|exact Hsucc].
    pose proof (AgentFacts.after_progress_letter now sid l w sid) as Hp.
    unfold after_progress, after_read in Hp. cbn [memory curriculum] in Hp.
    rewrite Hp, decide_True by reflexivity. reflexivity.
  - cbn [truthy_letter]. split; [reflexivity | exact Hnext].
Qed.

(** X25.  With a window that is not negative, right after a turn was added
    to a session an input with a repeat phrase is answered with the
    assistant text of that turn, whatever it is, and nothing is changed. *)
Theorem repeat_replays_last_reply
    (now0 now1 now2 now sid u a user_input : string) (cs : CurriculumService)
    (ms : MemoryService) :
  (0 <= max_turns ms)%Z -> is_repeat_phrase user_input = true ->
  let w := mkWorld cs (fst (add_turn now0 now1 now2 sid u a ms)) in
  handle_special_commands now sid user_input w
  = (w, Ok (Some (JStr a, {[ "type" := MStr "repeat" ]}))).
Proof.
  intros Hn Hrep. cbv zeta. unfold is_repeat_phrase in Hrep.
  pose proof (repeat_is_no_help _ Hrep) as Hhelp.
  unfold handle_special_commands. cbv zeta. rewrite Hhelp, Hrep.
  rewrite AgentFacts.bind_with_memory. cbn [curriculum memory].
  unfold get_conversation_history, get_session.
  rewrite MemoryFacts.add_turn_stored, MemoryFacts.add_turn_session. cbn [fst snd history].
  change (2 =? 0)%Z with false. cbv iota. cbn [fst snd].
  set (h := (history (session_before now0 sid ms)
             ++ [mkTurn "user" u now1; mkTurn "assistant" a now2])%list).
  assert (Hh : h <> []) by (subst h; now destruct (history _)).
  assert (Hlast : last (last_entries 2 (last_entries (max_turns ms * 2) h))
                  = Some (mkTurn "assistant" a now2)).
  { rewrite last_last_entries; [|lia|].
    - rewrite last_last_entries by (lia || exact Hh).
      subst h. now rewrite last_app.
    - intros He. apply (f_equal last) in He.
      rewrite last_last_entries in He by (lia || exact Hh).
      subst h. rewrite last_app in He. discriminate. }
  rewrite Hlast. reflexivity.
Qed.

End Turns.

Lemma incorrect_holds_witness :
  @check_pronunciation plain_formatter (curriculum new_world) "bee" (letter_of new_world "s")
  = Ok (false, "Close! Try the 'ah' sound for A. You can do it!")
  /\ @generate_response plain_formatter "t1" "s" "bee" new_world
     = (after_read "t1" "s" new_world,
        Ok ("Close! Try the 'ah' sound for A. You can do it!",
            base_metadata_of (letter_of new_world "s") false)).
Proof.
  assert (Hc : @check_pronunciation plain_formatter (curriculum new_world) "bee"
                 (letter_of new_world "s")
               = Ok (false, "Close! Try the 'ah' sound for A. You can do it!"))
    by (vm_compute; reflexivity).
  split; [exact Hc|].
  exact (proj1 (@incorrect_holds plain_formatter "t1" "s" "bee" new_world _ Hc)).
Defined.

Lemma correct_advances_witness :
  consistent (curriculum new_world)
  /\ letter_of (fst (@generate_response plain_formatter "t1" "s" "apple" new_world)) "s" = "B".
Proof.
  assert (Hc : consistent (curriculum new_world)) by reflexivity.
  split; [exact Hc|].
  assert (Ho : (65 <= PyStr.ord "A" <= 89)%Z) by (vm_compute; split; discriminate).
  exact (proj1 (proj2 (proj2
    (@correct_advances plain_formatter "t1" "s" "apple" new_world "A"%char
       "Great job! You said the A sound correctly!" Hc eq_refl Ho eq_refl)))).
Defined.

Lemma metadata_reflects_state_witness :
  @generate_response plain_formatter "t1" "s" "apple" new_world
  = (after_progress "t1" "s" "B" new_world,
     Ok ("Great job! You said the A sound correctly! Great job! Let's try the letter B.",
         <["new_letter" := MStr "B"]>
           (<["progress_made" := MBool true]> (base_metadata_of "A" true))))
  /\ (<["new_letter" := MStr "B"]>
        (<["progress_made" := MBool true]> (base_metadata_of "A" true)) : gmap string mval)
     !! "current_letter" = Some (MStr (letter_of new_world "s")).
Proof.
  assert (Hrun : @generate_response plain_formatter "t1" "s" "apple" new_world
    = (after_progress "t1" "s" "B" new_world,
       Ok ("Great job! You said the A sound correctly! Great job! Let's try the letter B.",
           <["new_letter" := MStr "B"]>
             (<["progress_made" := MBool true]> (base_metadata_of "A" true)))))
    by (vm_compute; reflexivity).
  split; [exact Hrun|].
  exact (proj1 (@metadata_reflects_state plain_formatter "t1" "s" "apple" new_world
                  _ _ _ Hrun)).
Defined.

Lemma skip_moves_on_witness :
  consistent (curriculum new_world) /\ is_letter (letter_of new_world "s")
  /\ is_skip_phrase " Skip this one " = true
  /\ exists next,
       get_next_letter (letter_of new_world "s") = Ok next
       /\ match next with
          | Some l =>
              fst (@handle_special_commands plain_formatter "t1" "s" " Skip this one " new_world)
              = after_progress "t1" "s" l new_world
              /\ (exists text,
                    snd (@handle_special_commands plain_formatter "t1" "s" " Skip this one "
                           new_world)
                    = Ok (Some (JStr text,
                                <["new_letter" := MStr l]> {[ "type" := MStr "skip" ]})))
              /\ letter_of (fst (@handle_special_commands plain_formatter "t1" "s"
                                   " Skip this one " new_world)) "s" = l
              /\ successor_of (letter_of new_world "s") l
          | None =>
              @handle_special_commands plain_formatter "t1" "s" " Skip this one " new_world
              = (after_read "t1" "s" new_world, Ok None)
              /\ letter_of new_world "s" = "Z"
          end.
Proof.
  assert (Hc : consistent (curriculum new_world)) by reflexivity.
  assert (Hl : is_letter (letter_of new_world "s")).
  { exists "A"%char. split; [reflexivity | vm_compute; split; discriminate]. }
  assert (Hs : is_skip_phrase " Skip this one " = true) by (vm_compute; reflexivity).
  split; [exact Hc|]. split; [exact Hl|]. split; [exact Hs|].
  exact (@skip_moves_on plain_formatter "t1" "s" " Skip this one " new_world Hc Hl Hs).
Defined.

Lemma repeat_replays_last_reply_witness :
  (0 <= max_turns (init 3))%Z /\ is_repeat_phrase "Say that again" = true
  /\ @handle_special_commands plain_formatter "t3" "s" "Say that again"
       (mkWorld default_service (fst (add_turn "t0" "t1" "t2" "s" "bee" "Close!" (init 3))))
     = (mkWorld default_service (fst (add_turn "t0" "t1" "t2" "s" "bee" "Close!" (init 3))),
        Ok (Some (JStr "Close!", {[ "type" := MStr "repeat" ]}))).
Proof.
  assert (Hn : (0 <= max_turns (init 3))%Z) by (cbn; lia).
  assert (Hr : is_repeat_phrase "Say that again" = true) by (vm_compute; reflexivity).
  split; [exact Hn|]. split; [exact Hr|].
  exact (@repeat_replays_last_reply plain_formatter "t0" "t1" "t2" "t3" "s" "bee" "Close!"
           "Say that again" default_service (init 3) Hn Hr).
Defined.

Lemma readers_never_raise_witness :
  consistent default_service
  /\ is_ok (@check_pronunciation plain_formatter default_service "zebra" "Q") = true.
Proof.
  assert (Hc : consistent default_service) by reflexivity.
  split; [exact Hc|].
  exact (proj2 (proj2 (proj2 (proj2
    (@readers_never_raise plain_formatter default_service "Q" "zebra" None Hc))))).
Defined.

Lemma no_lesson_never_correct_witness :
  consistent default_service /\ get_lesson default_service "B" = Ok JNull
  /\ @check_pronunciation plain_formatter default_service "bee" "B"
     = Ok (false, "Close! Try the 'b' sound for B. You can do it!").
Proof.
  assert (Hc : consistent default_service) by reflexivity.
  assert (Hl : get_lesson default_service "B" = Ok JNull) by reflexivity.
  split; [exact Hc|]. split; [exact Hl|].
  exact (@no_lesson_never_correct plain_formatter default_service "B" "bee" Hc Hl).
Defined.

End AgentMoreFacts.

(** ** More on the pronunciation scorer *)

Module PhonemeMoreFacts.

Import Phoneme.

(** *** Tips *)

Lemma take_nonempty {A} (n : nat) (l : list A) :
  (1 <= n)%nat -> l <> [] -> (1 <= length (take n l) <= n)%nat.
Proof.
  intros Hn Hl. rewrite length_take. destruct l; [congruence|]. cbn. lia.
Qed.

Lemma tips_count (detected expected : list string) (target_letter : string) :
  (1 <= length (_get_pronunciation_tips detected expected target_letter) <= 3)%nat.
Proof.
  unfold _get_pronunciation_tips. apply take_nonempty; [lia|].
  destruct (omap _ _) as [|t ts]; destruct (table_get target_letter mouth_tips);
    cbn; discriminate.
Qed.

(** X26.  Every analysis comes with at least one and at most three
    pronunciation tips, whatever the transcript and the target are. *)
Theorem analysis_has_one_to_three_tips (transcript target_letter : string)
    (phonics_mode : bool) :
  (1 <= length (pronunciation_tips
                  (analyze_pronunciation transcript target_letter phonics_mode)) <= 3)%nat.
Proof.
  unfold analyze_pronunciation.
  destruct (table_get _ letter_phonemes) as [expected|]; [|cbn; lia].
  destruct (_detect_phonemes _ _) as [detected|e]; [|cbn; lia].
  cbn [pronunciation_tips]. apply tips_count.
Qed.

Lemma vowel_cases (k tip : string) :
  table_get k mouth_tips = Some tip ->
  (k = "A" \/ k = "E" \/ k = "I" \/ k = "O" \/ k = "U").
Proof.
  intros Ht. apply PhonemeFacts.table_get_In in Ht. cbn in Ht.
  repeat (destruct Ht as [[= <- _] | Ht]; [tauto|]). contradiction.
Qed.

(** X27.  For the targets A, E, I, O and U the mouth-shape tip of the
    letter is always among the tips, as the last one: the cut to three
    tips never removes it. *)
Theorem vowel_keeps_mouth_tip (transcript target_letter : string) (phonics_mode : bool)
    (tip : string) :
  table_get (PyStr.upper target_letter) mouth_tips = Some tip ->
  last (pronunciation_tips (analyze_pronunciation transcript target_letter phonics_mode))
  = Some tip.
Proof.
  intros Ht. unfold analyze_pronunciation.
  pose proof (vowel_cases _ _ Ht) as Hv.
  destruct (_detect_phonemes (_normalize_transcript transcript) (PyStr.upper target_letter))
    as [detected|e] eqn:Hd.
  - destruct Hv as [Hk | [Hk | [Hk | [Hk | Hk]]]]; rewrite Hk in *;
      cbn [table_get String.eqb Ascii.eqb Bool.eqb letter_phonemes pronunciation_tips];
      injection Ht as <-;
      unfold _get_pronunciation_tips; rewrite !filter_cons, filter_nil;
      match goal with
      | |- context [mem ?p1 detected] =>
          destruct (mem p1 detected);
          match goal with
          | |- context [mem ?p2 detected] => destruct (mem p2 detected)
          end
      end; vm_compute; reflexivity.
  - exfalso. unfold _detect_phonemes in Hd.
    destruct Hv as [Hk | [Hk | [Hk | [Hk | Hk]]]]; rewrite Hk in Hd;
      destruct (PyStr.contains _ _); discriminate.
Qed.

Lemma vowel_keeps_mouth_tip_witness :
  table_get (PyStr.upper "e") mouth_tips = Some "Smile while saying the sound"
  /\ last (pronunciation_tips (analyze_pronunciation "bee" "e" true))
     = Some "Smile while saying the sound".
Proof.
  assert (Ht : table_get (PyStr.upper "e") mouth_tips = Some "Smile while saying the sound")
    by reflexivity.
  split; [exact Ht|].
  exact (vowel_keeps_mouth_tip "bee" "e" true _ Ht).
Defined.

(** *** The values of the score *)

(** The score in hundredths for [m] detected out of [n] expected phonemes. *)
Lemma score_cases (m n : nat) (bonus : bool) :
  (1 <= n <= 2)%nat -> (m <= n)%nat -> (bonus = true -> m = n) ->
  let base := (inject_Z (Z.of_nat m) / inject_Z (Z.of_nat n))%Q in
  round2 (if bonus then Qmin 1 (base + (2 # 10))%Q else base)
  = Qmake (if (m =? n)%nat then 100 else if (m =? 0)%nat then 0 else 50) 100.
Proof.
  intros Hn Hm Hb.
  assert (Hcases : (n = 1 \/ n = 2)%nat) by lia.
  destruct Hcases as [-> | ->]; destruct bonus;
    try (specialize (Hb eq_refl); subst m);
    try (assert (Hm' : (m = 0 \/ m = 1 \/ m = 2)%nat) by lia;
         destruct Hm' as [-> | [-> | ->]]; try lia);
    vm_compute; reflexivity.
Qed.

Lemma calculate_accuracy_value (detected expected : list string) :
  NoDup expected -> (1 <= length expected <= 2)%nat -> detected <> [] ->
  let m := size ((list_to_set detected : gset string) ∩ list_to_set expected) in
  _calculate_accuracy detected expected
  = Qmake (if (m =? length expected)%nat then 100 else if (m =? 0)%nat then 0 else 50) 100.
Proof.
  intros Hnd Hlen Hd. cbv zeta. unfold _calculate_accuracy.
  destruct expected as [|e0 erest]; [cbn in Hlen; lia|].
  destruct detected as [|d0 drest]; [congruence|].
  set (d := d0 :: drest) in *. set (e := e0 :: erest) in *.
  rewrite PhonemeFacts.count_common_size.
  assert (Hle : (size ((list_to_set d : gset string) ∩ list_to_set e) <= length e)%nat).
  { rewrite <- (size_list_to_set (C := gset string) e) by exact Hnd.
    apply subseteq_size. intros x Hx. now apply elem_of_intersection in Hx as [_ Hx]. }
  apply score_cases; [exact Hlen | exact Hle |].
  intros Hb. apply PhonemeFacts.set_eqb_spec in Hb. rewrite Hb.
  rewrite <- (size_list_to_set (C := gset string) e) by exact Hnd.
  f_equal. apply set_eq. intros x. rewrite elem_of_intersection. tauto.
Qed.

Lemma letter_phonemes_expected (k : string) (expected : list string) :
  table_get k letter_phonemes = Some expected ->
  NoDup expected /\ (1 <= length expected <= 2)%nat.
Proof.
  intros Ht. apply PhonemeFacts.table_get_In in Ht.
  exact (proj1 (Forall_forall _ _) PhonemeFacts.letter_phonemes_shape _
           (proj2 (list_elem_of_In _ _) Ht)).
Qed.

(** X28.  For a target letter A-Z the accuracy is 1, 1/2 or 0, and the
    feedback is the text of the band it falls in: "Excellent", "Nice try"
    or the invitation to work on the sound.  The "Good job" text, for
    scores from 0.6 up to 0.8, is never produced. *)
Theorem feedback_bands (transcript target_letter : string) (phonics_mode : bool)
    (expected : list string) :
  table_get (PyStr.upper target_letter) letter_phonemes = Some expected ->
  let r := analyze_pronunciation transcript target_letter phonics_mode in
  let letter := PyStr.upper target_letter in
  ((accuracy_score r == 1)%Q
   /\ feedback r = "Excellent! You pronounced '" +:+ letter +:+ "' perfectly!")
  \/ ((accuracy_score r == 1 # 2)%Q
      /\ feedback r = "Nice try! Let's practice the '" +:+ letter +:+ "' sound together.")
  \/ ((accuracy_score r == 0)%Q
      /\ feedback r
         = if phonics_mode
           then "Let's work on the '" +:+ letter +:+ "' sound. Listen carefully..."
           else "Let's practice saying the letter '" +:+ letter +:+ "' together.").
Proof.
  intros Ht. cbv zeta. unfold analyze_pronunciation. rewrite Ht.
  destruct (letter_phonemes_expected _ _ Ht) as [Hnd Hlen].
  destruct (_detect_phonemes _ _) as [detected|e] eqn:Hd.
  2:{ exfalso. unfold _detect_phonemes in Hd. unfold table_item in Hd. rewrite Ht in Hd.
      destruct (PyStr.contains _ _); discriminate. }
  cbn [accuracy_score feedback].
  destruct detected as [|d0 drest].
  { right. right. destruct expected; split; reflexivity. }
  rewrite calculate_accuracy_value by (auto || discriminate).
  destruct (_ =? length expected)%nat; [left; split; reflexivity|].
  destruct (_ =? 0)%nat; right; [right | left]; split; reflexivity.
Qed.

Lemma feedback_bands_witness :
  table_get (PyStr.upper "a") letter_phonemes = Some ["/eɪ/"; "/æ/"]
  /\ feedback (analyze_pronunciation "play" "a" true)
     = "Excellent! You pronounced 'A' perfectly!".
Proof.
  assert (Ht : table_get (PyStr.upper "a") letter_phonemes = Some ["/eɪ/"; "/æ/"])
    by reflexivity.
  split; [exact Ht|].
  destruct (feedback_bands "play" "a" true _ Ht) as [[_ Hf] | [[Ha _] | [Ha _]]].
  - exact Hf.
  - vm_compute in Ha. discriminate.
  - vm_compute in Ha. discriminate.
Defined.

(** *** Characters that survive the normalization *)

Lemma chars_app (a b : string) :
  list_ascii_of_string (a +:+ b) = (list_ascii_of_string a ++ list_ascii_of_string b)%list.
Proof. induction a as [|c a IH]; simpl; [reflexivity | now f_equal]. Qed.

Lemma contains_char (c : ascii) (s : string) :
  PyStr.contains (String c "") s = true <-> In c (list_ascii_of_string s).
Proof.
  induction s as [|d s IH]; cbn.
  - split; [discriminate | contradiction].
  - rewrite orb_true_iff, IH. destruct (ascii_dec c d) as [->|Hne].
    + split; [now left | intros _; left; now destruct s].
    + split; [intros [Hf|Hin]; [discriminate | now right]
             | intros [Heq|Hin]; [congruence | now right]].
Qed.

Lemma in_chars_smap (f : ascii -> ascii) (c : ascii) (s : string) :
  In c (list_ascii_of_string s) -> In (f c) (list_ascii_of_string (PyStr.smap f s)).
Proof.
  induction s as [|d s IH]; cbn; [tauto|].
  intros [-> | Hin]; [now left | right; now apply IH].
Qed.

Lemma in_chars_sfilter (p : ascii -> bool) (c : ascii) (s : string) :
  In c (list_ascii_of_string s) -> p c = true -> In c (list_ascii_of_string (sfilter p s)).
Proof.
  intros Hin Hp. induction s as [|d s IH]; cbn in *; [contradiction|].
  destruct Hin as [-> | Hin].
  - rewrite Hp. now left.
  - destruct (p d); [right|]; now apply IH.
Qed.

Lemma in_split_ws_from (c : ascii) (s : string) :
  PyStr.is_space c = false ->
  forall cur,
    In c (list_ascii_of_string cur) \/ In c (list_ascii_of_string s) ->
    exists w, In w (PyStr.split_ws_from s cur) /\ In c (list_ascii_of_string w).
Proof.
  intros Hc. induction s as [|d s IH]; intros cur Hin; cbn.
  - destruct Hin as [Hin | []]. destruct cur as [|x cur]; [contradiction|].
    exists (String x cur). split; [now left | exact Hin].
  - destruct (PyStr.is_space d) eqn:Hd.
    + assert (Hs : In c (list_ascii_of_string cur) \/ In c (list_ascii_of_string s)).
      { destruct Hin as [Hin | [-> | Hin]]; [now left | congruence | now right]. }
      destruct cur as [|x cur].
      * cbn. apply IH. destruct Hs as [[] | Hs]. now right.
      * cbn. destruct Hs as [Hs | Hs].
        -- exists (String x cur). split; [now left | exact Hs].
        -- destruct (IH "" (or_intror Hs)) as (w & Hw & Hcw).
           exists w. split; [now right | exact Hcw].
    + apply IH. rewrite chars_app. cbn.
      destruct Hin as [Hin | [-> | Hin]].
      * left. apply in_or_app. now left.
      * left. apply in_or_app. right. now left.
      * now right.
Qed.

Lemma in_chars_join (sep : string) (c : ascii) (w : string) (ws : list string) :
  In w ws -> In c (list_ascii_of_string w) -> In c (list_ascii_of_string (join sep ws)).
Proof.
  intros Hw Hc. induction ws as [|p rest IH]; [contradiction|].
  destruct rest as [|q rest].
  - destruct Hw as [-> | []]. exact Hc.
  - change (join sep (p :: q :: rest)) with (p +:+ sep +:+ join sep (q :: rest)).
    rewrite !chars_app. destruct Hw as [-> | Hw].
    + apply in_or_app. now left.
    + apply in_or_app. right. apply in_or_app. right. now apply IH.
Qed.

(** A lower-case letter of the transcript, in either case, is still there
    after the normalization. *)
Lemma normalize_keeps_letter (c : ascii) (transcript : string) :
  PyStr.is_lower c = true ->
  PyStr.contains (String c "") (PyStr.lower transcript) = true ->
  PyStr.contains (String c "") (_normalize_transcript transcript) = true.
Proof.
  intros Hl Hin. apply contains_char in Hin. apply contains_char.
  unfold _normalize_transcript.
  destruct transcript as [|t0 trest]; [contradiction|].
  change (PyStr.nonempty (String t0 trest)) with true. cbn [negb].
  assert (Hord : (97 <= PyStr.ord c <= 122)%Z).
  { unfold PyStr.is_lower in Hl. apply andb_true_iff in Hl as [H1 H2].
    apply Z.leb_le in H1, H2. lia. }
  assert (Hw : is_word_or_space c = true).
  { unfold is_word_or_space, PyStr.is_alpha. rewrite Hl. now rewrite orb_true_r. }
  assert (Hs : PyStr.is_space c = false).
  { unfold PyStr.is_space.
    repeat (apply orb_false_iff; split);
      try (apply andb_false_iff; right; apply Z.leb_gt; lia).
    apply Z.eqb_neq. lia. }
  pose proof (in_chars_sfilter is_word_or_space c _ Hin Hw) as Hf.
  destruct (in_split_ws_from c _ Hs "" (or_intror Hf)) as (w & Hws & Hcw).
  eapply in_chars_join; eauto.
Qed.

(** *** Credit by letter name *)

Lemma by_pattern_vowel_sounds (transcript x : string) :
  In x (flat_map (fun '(phoneme, patterns) =>
          flat_map (fun pattern =>
            if PyStr.contains pattern transcript then [phoneme] else []) patterns)
          phoneme_patterns) ->
  In x (map fst phoneme_patterns).
Proof.
  intros Hx. apply in_flat_map in Hx as ([phoneme patterns] & Hin & Hx).
  apply in_flat_map in Hx as (pattern & _ & Hx).
  destruct (PyStr.contains pattern transcript); [|contradiction].
  destruct Hx as [<- | []]. apply in_map_iff. now exists (phoneme, patterns).
Qed.

Lemma upper_letter_lower (c : ascii) :
  (65 <= PyStr.ord c <= 90)%Z ->
  PyStr.is_lower (PyStr.lower_char c) = true
  /\ PyStr.upper (String c "") = String c ""
  /\ PyStr.lower (String c "") = String (PyStr.lower_char c) "".
Proof.
  intros Hc. split; [|split; [|reflexivity]].
  - unfold PyStr.lower_char, PyStr.is_upper.
    destruct (Z.leb_spec 65 (PyStr.ord c)); [|lia].
    destruct (Z.leb_spec (PyStr.ord c) 90); [|lia]. cbn [andb].
    unfold PyStr.is_lower. rewrite PyStrFacts.ord_chr by lia.
    apply andb_true_iff; split; apply Z.leb_le; lia.
  - cbn. rewrite PyStrFacts.upper_char_not_lower; [reflexivity|].
    unfold PyStr.is_lower. apply andb_false_iff. left. apply Z.leb_gt. lia.
Qed.

(** X29.  For a target letter A-Z, a transcript in which the letter occurs
    anywhere, in upper or lower case, gets the accuracy 1 and the
    "Excellent" feedback: the occurrence credits all the expected phonemes
    of the letter. *)
Theorem letter_in_transcript_scores_full (transcript : string) (c : ascii)
    (phonics_mode : bool) :
  (65 <= PyStr.ord c <= 90)%Z ->
  PyStr.contains (PyStr.lower (String c "")) (PyStr.lower transcript) = true ->
  let r := analyze_pronunciation transcript (String c "") phonics_mode in
  (accuracy_score r == 1)%Q
  /\ feedback r = "Excellent! You pronounced '" +:+ String c "" +:+ "' perfectly!"
  /\ forall x, In x (expected_phonemes r) -> In x (detected_phonemes r).
Proof.
  intros Hc Hin. cbv zeta.
  destruct (upper_letter_lower c Hc) as (Hlow & Hup & Hlo).
  rewrite Hlo in Hin. apply normalize_keeps_letter in Hin; [|exact Hlow].
  unfold analyze_pronunciation. rewrite Hup.
  destruct (table_get (String c "") letter_phonemes) as [expected|] eqn:Ht.
  2:{ exfalso. revert Ht. clear -Hc.
      destruct c as [[] [] [] [] [] [] [] []]; vm_compute in Hc; destruct Hc as [H1 H2];
        try (exfalso; apply H1; reflexivity); try (exfalso; apply H2; reflexivity);
        vm_compute; discriminate. }
  destruct (letter_phonemes_expected _ _ Ht) as [Hnd Hlen].
  unfold _detect_phonemes, table_item. rewrite Hlo, Hin, Ht. cbn [mbind result_bind mret result_ret].
  set (by_pattern := flat_map _ phoneme_patterns).
  cbn [accuracy_score feedback detected_phonemes expected_phonemes].
  assert (Hsub : forall x, In x expected -> In x (remove_dups (expected ++ by_pattern))).
  { intros x Hx. apply list_elem_of_In, elem_of_remove_dups, list_elem_of_In.
    apply in_or_app. now left. }
  assert (Hne : remove_dups (expected ++ by_pattern) <> []).
  { destruct expected as [|e0 erest]; [cbn in Hlen; lia|].
    intros He. specialize (Hsub e0 (or_introl eq_refl)). rewrite He in Hsub. contradiction. }
  rewrite calculate_accuracy_value by assumption.
  assert (Hm : size ((list_to_set (remove_dups (expected ++ by_pattern)) : gset string)
                     ∩ list_to_set expected) = length expected).
  { rewrite <- (size_list_to_set (C := gset string) expected) by exact Hnd.
    f_equal. apply set_eq. intros x.
    rewrite elem_of_intersection, !elem_of_list_to_set. split; [tauto|].
    intros Hx. split; [|exact Hx]. apply list_elem_of_In, Hsub. now apply list_elem_of_In. }
  rewrite Hm, Nat.eqb_refl. split; [reflexivity|]. split; [reflexivity | exact Hsub].
Qed.

Lemma letter_in_transcript_scores_full_witness :
  (65 <= PyStr.ord "T" <= 90)%Z
  /\ PyStr.contains (PyStr.lower "T") (PyStr.lower "What is that?") = true
  /\ feedback (analyze_pronunciation "What is that?" "T" true)
     = "Excellent! You pronounced 'T' perfectly!".
Proof.
  assert (Hc : (65 <= PyStr.ord "T" <= 90)%Z) by (vm_compute; split; discriminate).
  assert (Hin : PyStr.contains (PyStr.lower "T") (PyStr.lower "What is that?") = true)
    by (vm_compute; reflexivity).
  split; [exact Hc|]. split; [exact Hin|].
  exact (proj1 (proj2 (letter_in_transcript_scores_full "What is that?" "T"%char true Hc Hin))).
Defined.

(** *** No credit without the letter, for consonants *)

Lemma in_chars_sfilter_inv (p : ascii -> bool) (c : ascii) (s : string) :
  In c (list_ascii_of_string (sfilter p s)) -> In c (list_ascii_of_string s).
Proof.
  induction s as [|d s IH]; cbn; [tauto|].
  destruct (p d); cbn; [intros [-> | Hin]; [now left | right; now apply IH]
                       | intros Hin; right; now apply IH].
Qed.

Lemma in_split_ws_from_inv (c : ascii) (s : string) :
  forall cur w,
    In w (PyStr.split_ws_from s cur) -> In c (list_ascii_of_string w) ->
    In c (list_ascii_of_string cur) \/ In c (list_ascii_of_string s).
Proof.
  induction s as [|d s IH]; intros cur w Hw Hc; cbn in Hw.
  - destruct cur as [|x cur]; [contradiction|]. cbn in Hw.
    destruct Hw as [<- | []]. now left.
  - destruct (PyStr.is_space d).
    + destruct cur as [|x cur]; cbn in Hw.
      * destruct (IH "" w Hw Hc) as [[] | Hin]. right. now right.
      * destruct Hw as [<- | Hw]; [now left|].
        destruct (IH "" w Hw Hc) as [[] | Hin]. right. now right.
    + destruct (IH _ w Hw Hc) as [Hin | Hin]; [|right; now right].
      rewrite chars_app in Hin. apply in_app_or in Hin as [Hin | [<- | []]];
        [now left | right; now left].
Qed.

Lemma in_chars_join_inv (c : ascii) (ws : list string) :
  In c (list_ascii_of_string (join " " ws)) ->
  c = " "%char \/ exists w, In w ws /\ In c (list_ascii_of_string w).
Proof.
  induction ws as [|p rest IH]; [contradiction|].
  destruct rest as [|q rest].
  - intros Hin. right. exists p. split; [now left | exact Hin].
  - change (join " " (p :: q :: rest)) with (p +:+ " " +:+ join " " (q :: rest)).
    rewrite !chars_app. intros Hin.
    apply in_app_or in Hin as [Hin | Hin]; [right; exists p; split; [now left | exact Hin]|].
    apply in_app_or in Hin as [[<- | []] | Hin]; [now left|].
    destruct (IH Hin) as [-> | (w & Hw & Hcw)]; [now left|].
    right. exists w. split; [now right | exact Hcw].
Qed.

(** What the normalization leaves of a letter was in the transcript. *)
Lemma normalize_adds_no_letter (c : ascii) (transcript : string) :
  PyStr.is_lower c = true ->
  PyStr.contains (String c "") (_normalize_transcript transcript) = true ->
  PyStr.contains (String c "") (PyStr.lower transcript) = true.
Proof.
  intros Hl Hin. apply contains_char in Hin. apply contains_char.
  unfold _normalize_transcript in Hin.
  destruct (negb (PyStr.nonempty transcript)); [contradiction|].
  apply in_chars_join_inv in Hin as [-> | (w & Hw & Hcw)]; [discriminate|].
  destruct (in_split_ws_from_inv c _ "" w Hw Hcw) as [[] | Hf].
  now apply in_chars_sfilter_inv in Hf.
Qed.

Lemma letter_has_phonemes (c : ascii) :
  (65 <= PyStr.ord c <= 90)%Z ->
  exists expected, table_get (String c "") letter_phonemes = Some expected.
Proof.
  intros Hc.
  destruct (table_get (String c "") letter_phonemes) as [expected|] eqn:Ht; [eauto|].
  exfalso. revert Ht. clear -Hc.
  destruct c as [[] [] [] [] [] [] [] []]; vm_compute in Hc; destruct Hc as [H1 H2];
    try (exfalso; apply H1; reflexivity); try (exfalso; apply H2; reflexivity);
    vm_compute; discriminate.
Qed.

Lemma consonant_sounds_unpatterned :
  forallb (fun kv =>
    match table_get (fst kv) mouth_tips with
    | Some _ => true
    | None => forallb (fun x => negb (mem x (map fst phoneme_patterns))) (snd kv)
    end) letter_phonemes = true.
Proof. vm_compute. reflexivity. Qed.

(** X30.  For a consonant target, a transcript in which the letter does
    not occur gets no credit at all: none of the expected phonemes is
    detected, the accuracy is 0 and the feedback is the invitation to work
    on the sound.  With X29 the score of a consonant is all or nothing. *)
Theorem consonant_without_letter_scores_nothing (transcript : string) (c : ascii)
    (phonics_mode : bool) :
  (65 <= PyStr.ord c <= 90)%Z ->
  table_get (String c "") mouth_tips = None ->
  PyStr.contains (PyStr.lower (String c "")) (PyStr.lower transcript) = false ->
  let r := analyze_pronunciation transcript (String c "") phonics_mode in
  (accuracy_score r == 0)%Q
  /\ feedback r
     = (if phonics_mode
        then "Let's work on the '" +:+ String c "" +:+ "' sound. Listen carefully..."
        else "Let's practice saying the letter '" +:+ String c "" +:+ "' together.")
  /\ forall x, In x (expected_phonemes r) -> ~ In x (detected_phonemes r).
Proof.
  intros Hc Hcons Hnot. cbv zeta.
  destruct (upper_letter_lower c Hc) as (Hlow & Hup & Hlo).
  rewrite Hlo in Hnot.
  assert (Hnorm : PyStr.contains (String (PyStr.lower_char c) "")
                    (_normalize_transcript transcript) = false).
  { apply not_true_is_false. intros Hin.
    apply normalize_adds_no_letter in Hin; [congruence | exact Hlow]. }
  unfold analyze_pronunciation. rewrite Hup.
  destruct (letter_has_phonemes c Hc) as [expected Ht]. rewrite Ht.
  destruct (letter_phonemes_expected _ _ Ht) as [Hnd Hlen].
  unfold _detect_phonemes. rewrite Hlo, Hnorm. cbn [mbind result_bind mret result_ret app].
  set (by_pattern := flat_map _ phoneme_patterns).
  cbn [accuracy_score feedback detected_phonemes expected_phonemes].
  assert (Hdisj : forall x, In x expected -> ~ In x (remove_dups by_pattern)).
  { intros x Hx Hd.
    apply (proj2 (list_elem_of_In _ _)) in Hd. rewrite elem_of_remove_dups in Hd.
    apply (proj1 (list_elem_of_In _ _)) in Hd.
    apply by_pattern_vowel_sounds in Hd.
    pose proof (proj1 (forallb_forall _ _) consonant_sounds_unpatterned
                  _ (PhonemeFacts.table_get_In _ _ _ Ht)) as Hk.
    cbn [fst snd] in Hk. rewrite Hcons in Hk.
    pose proof (proj1 (forallb_forall _ _) Hk x Hx) as Hm.
    apply negb_true_iff in Hm.
    assert (Hy : mem x (map fst phoneme_patterns) = true).
    { apply PhonemeFacts.mem_spec. now apply list_elem_of_In. }
    congruence. }
  destruct (remove_dups by_pattern) as [|d0 drest] eqn:Hdet.
  { destruct expected; cbn; repeat split; try reflexivity; intros x _ []. }
  rewrite <- Hdet in *.
  rewrite calculate_accuracy_value by (auto; rewrite Hdet; discriminate).
  assert (Hm : size ((list_to_set (remove_dups by_pattern) : gset string)
                     ∩ list_to_set expected) = 0%nat).
  { apply size_empty_iff. apply set_equiv. intros x.
    rewrite elem_of_intersection, !elem_of_list_to_set. split; [|intros Hx; inversion Hx].
    intros [Hd He]. exfalso. apply (Hdisj x); now apply list_elem_of_In. }
  rewrite Hm. destruct expected as [|e0 erest]; [cbn in Hlen; lia|].
  cbn [length Nat.eqb]. split; [reflexivity|]. split; [|exact Hdisj].
  destruct phonics_mode; reflexivity.
Qed.

Lemma consonant_without_letter_scores_nothing_witness :
  (65 <= PyStr.ord "B" <= 90)%Z
  /\ table_get "B" mouth_tips = None
  /\ PyStr.contains (PyStr.lower "B") (PyStr.lower "I like tea") = false
  /\ (accuracy_score (analyze_pronunciation "I like tea" "B" true) == 0)%Q.
Proof.
  assert (Hc : (65 <= PyStr.ord "B" <= 90)%Z) by (vm_compute; split; discriminate).
  assert (Ht : table_get "B" mouth_tips = None) by reflexivity.
  assert (Hn : PyStr.contains (PyStr.lower "B") (PyStr.lower "I like tea") = false)
    by (vm_compute; reflexivity).
  split; [exact Hc|]. split; [exact Ht|]. split; [exact Hn|].
  exact (proj1 (consonant_without_letter_scores_nothing "I like tea" "B"%char true Hc Ht Hn)).
Defined.

End PhonemeMoreFacts.
